(** * Inside Parliament: first-person movement, collision and view modes

    A shallow embedding of the movement core of [src/commons-model.js]
    (the key handlers, [checkCollisions], [checkGround], [animate] and the
    two view-mode click handlers), followed by the properties of it that
    the specification states; then the handlers as one step function with
    the invariants of the states they reach, and the parts of [minimap.js]
    and [mp-loader.js] that compute: the conversions between the world and
    the canvas, the party colours and the seating of the MPs.

    Conventions of the embedding.
    - A JavaScript number is an exact rational ([Q]): no rounding, no NaN.
      The one infinite value the code uses, the initial [distance: Infinity]
      of a collision result, is kept as a separate constructor ([Num]).
      Division by zero is [0] in [Q], where the code gets [NaN] or an
      infinity.  The divisions of the code are by the length of a non-zero
      vector and by the size of an expanded box; that size is positive for
      a positive radius and a bounding box with [min <= max], and the
      statements that hold of the code only then say so ([solidBoxes]).
    - [Math.sqrt] has no exact rational counterpart: it is a parameter
      ([Math_sqrt]) of every definition that calls it, and the general
      theorems hold for every such function.  Concrete runs use [Qsqrt],
      the square root rounded down to six decimals.
    - The module-level variables of the script become the fields of one
      record, [State]; a handler is a function from [State] to [State].
    - three.js is a library of the program, not part of it: its vectors and
      boxes are written out, a mesh carries its [raycast] method as a field,
      and [lookAt] and [OrbitControls.update] are parameters, the latter a
      function of the camera position, the target and the damped motion the
      controller still has to apply, which is part of the state.
    - The one exception the movement code can meet, the [TypeError] of a
      ray cast on a list entry that is no [Object3D], is given by
      [intersectObjects_throws] and [animate_completion]; [checkGround] and
      [animate] are the values when nothing is thrown.
    - [Math.random] is a parameter too ([random]): the value of each of
      its calls, by call number.  [Array.prototype.sort] is a parameter of
      [calculateMPSeats], its comparator being modelled.
    - The DOM (instruction panel, debug text, minimap, renderer) is not
      modelled. *)

From Stdlib Require Import QArith Qabs Lqa ZArith List Bool String Lia.
From Stdlib Require Import Ascii NArith Permutation.
Import ListNotations.
Open Scope Q_scope.

(** ** Numbers *)

Definition Qltb (a b : Q) : bool := negb (Qle_bool b a).

Notation "a <=! b" := (Qle_bool a b) (at level 70, no associativity) : Q_scope.
Notation "a <! b" := (Qltb a b) (at level 70, no associativity) : Q_scope.

(** [a !== 0] of the source. *)
Definition nonzero (a : Q) : bool := negb (Qeq_bool a 0).

(** [Math.sign]: -1, 0 or 1. *)
Definition Math_sign (a : Q) : Q := inject_Z (Z.sgn (Qnum a)).

Definition Math_abs (a : Q) : Q := Qabs a.

(** [Number(b)] for a boolean [b]. *)
Definition Number (b : bool) : Q := if b then 1 else 0.

(** A number that may be [Infinity]. *)
Inductive Num : Type :=
| Finite (q : Q)
| Infinity.

(** [a < n] for a finite [a]. *)
Definition lessThan (a : Q) (n : Num) : bool :=
  match n with
  | Finite b => a <! b
  | Infinity => true
  end.

(** Square root rounded down to a multiple of [10^-6]; the instance of
    [Math.sqrt] used in the concrete runs. *)
Definition Qsqrt (a : Q) : Q :=
  Qmake (Z.sqrt ((Qnum a * 1000000000000) / Zpos (Qden a))) 1000000.

(** ** THREE.Vector3 *)

Module Vector3.

Record t : Type := new { x : Q; y : Q; z : Q }.

(** [new THREE.Vector3()] *)
Definition zero : t := new 0 0 0.

Definition add (a v : t) : t := new (x a + x v) (y a + y v) (z a + z v).

Definition sub (a v : t) : t := new (x a - x v) (y a - y v) (z a - z v).

Definition addScalar (a : t) (s : Q) : t := new (x a + s) (y a + s) (z a + s).

Definition multiplyScalar (a : t) (s : Q) : t :=
  new (x a * s) (y a * s) (z a * s).

Definition divideScalar (a : t) (s : Q) : t := multiplyScalar a (1 / s).

Definition addScaledVector (a v : t) (s : Q) : t :=
  new (x a + x v * s) (y a + y v * s) (z a + z v * s).

Definition crossVectors (a b : t) : t :=
  new (y a * z b - z a * y b) (z a * x b - x a * z b) (x a * y b - y a * x b).

Definition lengthSq (a : t) : Q := x a * x a + y a * y a + z a * z a.

Definition distanceToSquared (a v : t) : Q := lengthSq (sub a v).

Definition set_y (a : t) (s : Q) : t := new (x a) s (z a).

Section Sqrt.
Variable Math_sqrt : Q -> Q.

Definition length (a : t) : Q := Math_sqrt (lengthSq a).

Definition distanceTo (a v : t) : Q := Math_sqrt (distanceToSquared a v).

(** [normalize()] is [divideScalar(length() || 1)]. *)
Definition normalize (a : t) : t :=
  divideScalar a (if nonzero (length a) then length a else 1).
End Sqrt.

End Vector3.

(** ** THREE.Box3 *)

Module Box3.

Record t : Type := new { min : Vector3.t; max : Vector3.t }.

Definition isEmpty (b : t) : bool :=
  (Vector3.x (max b) <! Vector3.x (min b))
  || (Vector3.y (max b) <! Vector3.y (min b))
  || (Vector3.z (max b) <! Vector3.z (min b)).

Definition containsPoint (b : t) (p : Vector3.t) : bool :=
  (Vector3.x (min b) <=! Vector3.x p) && (Vector3.x p <=! Vector3.x (max b))
  && (Vector3.y (min b) <=! Vector3.y p) && (Vector3.y p <=! Vector3.y (max b))
  && (Vector3.z (min b) <=! Vector3.z p) && (Vector3.z p <=! Vector3.z (max b)).

Definition expandByScalar (b : t) (s : Q) : t :=
  new (Vector3.addScalar (min b) (- s)) (Vector3.addScalar (max b) s).

Definition getCenter (b : t) : Vector3.t :=
  if isEmpty b then Vector3.zero
  else Vector3.multiplyScalar (Vector3.add (min b) (max b)) 0.5.

Definition getSize (b : t) : Vector3.t :=
  if isEmpty b then Vector3.zero else Vector3.sub (max b) (min b).

End Box3.

(** ** Ray hits and scene objects *)

(** One entry of the array [Raycaster.intersectObjects] returns. *)
Module Intersection.
Record t : Type := new { distance : Q; point : Vector3.t }.
End Intersection.

(** An entry of [collisionObjects], as far as the movement code looks at
    it.  [position] and [getWorldPosition] are optional because the code
    tests for them; [geometry] is the bounding box of the object's geometry
    ([object.geometry.boundingBox], computed on demand), absent when the
    object has no geometry.  [layers] tells whether the entry has the
    [layers] and [children] that [Raycaster.intersectObjects] reads of
    every entry, as each [THREE.Object3D] has and a plain object has not;
    [raycast origin direction] is then the object's own [raycast] method,
    the hits of a ray on it and its descendants. *)
Module Object3D.
Record t : Type := new {
  position : option Vector3.t;
  getWorldPosition : option Vector3.t;
  geometry : option Box3.t;
  layers : bool;
  raycast : Vector3.t -> Vector3.t -> list Intersection.t
}.
End Object3D.

(** ** Constants of the script *)

Definition gravity : Q := 30.
Definition jumpHeight : Q := 2.
Definition playerHeight : Q := 1.6.
Definition playerRadius : Q := 0.3.

Definition floorCollisionBox : Box3.t :=
  Box3.new (Vector3.new (-20) (-0.1) (-20)) (Vector3.new 20 0.1 20).

(** ** checkCollisions *)

Module Collision.
Record t : Type := new {
  colliding : bool;
  normal : Vector3.t;
  distance : Num;
  object : option Object3D.t
}.
End Collision.

(** Normal and distance computed for a position inside an expanded box:
    the body of [if (boundingBox.containsPoint(position))] up to the
    comparison with the best result so far. *)
Definition penetration (boundingBox : Box3.t) (position : Vector3.t)
  : Vector3.t * Q :=
  let center := Box3.getCenter boundingBox in
  let size := Box3.getSize boundingBox in
  let dx := (Vector3.x position - Vector3.x center) / Vector3.x size in
  let dy := (Vector3.y position - Vector3.y center) / Vector3.y size in
  let dz := (Vector3.z position - Vector3.z center) / Vector3.z size in
  let absDx := Math_abs dx in
  let absDy := Math_abs dy in
  let absDz := Math_abs dz in
  if (absDx <=! absDy) && (absDx <=! absDz) then
    (Vector3.new (Math_sign dx) 0 0,
     (Vector3.x size / 2) - (absDx * Vector3.x size / 2))
  else if (absDy <=! absDx) && (absDy <=! absDz) then
    (Vector3.new 0 (Math_sign dy) 0,
     (Vector3.y size / 2) - (absDy * Vector3.y size / 2))
  else
    (Vector3.new 0 0 (Math_sign dz),
     (Vector3.z size / 2) - (absDz * Vector3.z size / 2)).

(** The box tested for an object: its geometry's bounding box moved to the
    object's world position and expanded by the player radius. *)
Definition expandedBox (geometry : Box3.t) (objectWorldPosition : Vector3.t)
  (radius : Q) : Box3.t :=
  Box3.expandByScalar
    (Box3.new (Vector3.add (Box3.min geometry) objectWorldPosition)
              (Vector3.add (Box3.max geometry) objectWorldPosition))
    radius.

Section Collisions.
Variable Math_sqrt : Q -> Q.

(** [object.position && object.position.distanceTo(position) > 5] *)
Definition tooFar (object : Object3D.t) (position : Vector3.t) : bool :=
  match Object3D.position object with
  | Some p => 5 <! Vector3.distanceTo Math_sqrt p position
  | None => false
  end.

(** The world position the loop works with, [None] when the object is
    skipped for having neither [getWorldPosition] nor [position]. *)
Definition worldPositionOf (object : Object3D.t) : option Vector3.t :=
  match Object3D.getWorldPosition object with
  | Some w => Some w
  | None => Object3D.position object
  end.

(** One iteration of [for (const object of collisionObjects)]. *)
Definition checkObject (position : Vector3.t) (radius : Q)
  (result : Collision.t) (object : Object3D.t) : Collision.t :=
  if tooFar object position then result
  else
    match worldPositionOf object with
    | None => result
    | Some objectWorldPosition =>
        match Object3D.geometry object with
        | None => result
        | Some geometry =>
            let boundingBox := expandedBox geometry objectWorldPosition radius in
            if Box3.containsPoint boundingBox position then
              let '(normal, distance) := penetration boundingBox position in
              if lessThan distance (Collision.distance result) then
                Collision.new true normal (Finite distance) (Some object)
              else result
            else result
        end
    end.

Definition noCollision : Collision.t :=
  Collision.new false Vector3.zero Infinity None.

Definition checkCollisions (collisionObjects : list Object3D.t)
  (position : Vector3.t) (radius : Q) : Collision.t :=
  let result := noCollision in
  let playerBottom := Vector3.y position - playerHeight / 2 in
  if playerBottom <=! Vector3.y (Box3.max floorCollisionBox) then
    Collision.new true (Vector3.new 0 1 0)
      (Finite (Vector3.y (Box3.max floorCollisionBox) - playerBottom)) None
  else if (List.length collisionObjects =? 0)%nat then result
  else fold_left (checkObject position radius) collisionObjects result.

End Collisions.

(** ** checkGround *)

Module Ground.
Record t : Type := new { onGround : bool; groundY : Q }.
End Ground.

(** [intersects.sort(ascSort)]: ascending by distance, stable. *)
Fixpoint insertHit (h : Intersection.t) (l : list Intersection.t)
  : list Intersection.t :=
  match l with
  | [] => [h]
  | k :: l' =>
      if Intersection.distance h <=! Intersection.distance k then h :: l
      else k :: insertHit h l'
  end.

Definition sortHits (l : list Intersection.t) : list Intersection.t :=
  fold_right insertHit [] l.

(** [raycaster.set(origin, direction); raycaster.intersectObjects(objects, true)],
    when it returns: see [intersectObjects_throws] below. *)
Definition intersectObjects (origin direction : Vector3.t)
  (objects : list Object3D.t) : list Intersection.t :=
  sortHits (flat_map (fun o => Object3D.raycast o origin direction) objects).

Definition checkGround (collisionObjects : list Object3D.t)
  (position : Vector3.t) : Ground.t :=
  let intersects :=
    intersectObjects
      (Vector3.new (Vector3.x position) (Vector3.y position) (Vector3.z position))
      (Vector3.new 0 (-1) 0) collisionObjects in
  let fallback :=
    if Vector3.y position <=! playerHeight then Ground.new true 0
    else Ground.new false 0 in
  match intersects with
  | hit :: _ =>
      if Intersection.distance hit <! playerHeight * 0.5 + 0.1 then
        Ground.new true (Vector3.y (Intersection.point hit))
      else fallback
  | [] => fallback
  end.

(** [raycaster.intersectObjects] reads [object.layers] of every entry of
    the list before it casts the ray on it, and a [TypeError] is thrown on
    an entry that has none.  [intersectObjects] and [checkGround] are what
    the calls return when no entry throws. *)
Definition intersectObjects_throws (objects : list Object3D.t) : bool :=
  negb (forallb Object3D.layers objects).

(** ** The camera and the module-level state *)

(** The rotation part of [camera.matrix], by columns.  The orientation of
    the camera is this one value: the quaternion the controls write and the
    matrix the renderer derives from it are not told apart. *)
Module Matrix.
Record t : Type := new {
  column0 : Vector3.t;
  column1 : Vector3.t;
  column2 : Vector3.t
}.
Definition identity : t :=
  new (Vector3.new 1 0 0) (Vector3.new 0 1 0) (Vector3.new 0 0 1).
End Matrix.

Module Camera.
Record t : Type := new { position : Vector3.t; matrix : Matrix.t }.
(** [camera.up], never assigned by the script. *)
Definition up : Vector3.t := Vector3.new 0 1 0.
End Camera.

(** [THREE.OrbitControls], as far as the script meets it.  With
    [enableDamping = true], as the script sets it, [update()] applies part
    of the rotation, pan and zoom the user's last gestures left and keeps
    the rest for the next call: [Pending] is these private variables of the
    controller.  [update()] reads the camera position, the target and the
    pending motion, and writes the camera (position and orientation), the
    target and the pending motion: [Updated]. *)
Module OrbitControls.
Record Pending : Type := newPending {
  sphericalDelta : Q * Q;              (* theta, phi *)
  panOffset : Vector3.t;
  scale : Q
}.
(** Nothing left to apply. *)
Definition atRest : Pending := newPending (0, 0) Vector3.zero 1.
Record Updated : Type := newUpdated {
  camera : Camera.t;
  target : Vector3.t;
  pending : Pending
}.
Definition update : Type := Vector3.t -> Vector3.t -> Pending -> Updated.
End OrbitControls.

Record State : Type := mkState {
  camera : Camera.t;
  controls_isLocked : bool;            (* controls.isLocked *)
  velocity : Vector3.t;
  moveForward : bool;
  moveBackward : bool;
  moveLeft : bool;
  moveRight : bool;
  canJump : bool;
  isJumping : bool;
  jumpVelocity : Q;
  collisionObjects : list Object3D.t;
  overviewMode : bool;
  orbitControls_enabled : bool;        (* orbitControls.enabled *)
  orbitControls_target : Vector3.t;    (* orbitControls.target *)
  orbitControls_pending : OrbitControls.Pending
}.

(** The state when the script has run to its end and nothing is loaded. *)
Definition initialState : State :=
  {| camera := Camera.new (Vector3.new 0 1.6 10) Matrix.identity;
     controls_isLocked := false;
     velocity := Vector3.zero;
     moveForward := false; moveBackward := false;
     moveLeft := false; moveRight := false;
     canJump := true; isJumping := false; jumpVelocity := 0;
     collisionObjects := [];
     overviewMode := false;
     orbitControls_enabled := false;
     orbitControls_target := Vector3.zero;
     orbitControls_pending := OrbitControls.atRest |}.

(** Assignments to one variable. *)
Definition set_camera (s : State) (c : Camera.t) : State :=
  mkState c (controls_isLocked s) (velocity s) (moveForward s)
    (moveBackward s) (moveLeft s) (moveRight s) (canJump s) (isJumping s)
    (jumpVelocity s) (collisionObjects s) (overviewMode s)
    (orbitControls_enabled s) (orbitControls_target s)
    (orbitControls_pending s).

Definition set_position (s : State) (p : Vector3.t) : State :=
  set_camera s (Camera.new p (Camera.matrix (camera s))).

Definition set_position_y (s : State) (q : Q) : State :=
  set_position s (Vector3.set_y (Camera.position (camera s)) q).

Definition set_isLocked (s : State) (b : bool) : State :=
  mkState (camera s) b (velocity s) (moveForward s)
    (moveBackward s) (moveLeft s) (moveRight s) (canJump s) (isJumping s)
    (jumpVelocity s) (collisionObjects s) (overviewMode s)
    (orbitControls_enabled s) (orbitControls_target s)
    (orbitControls_pending s).

Definition set_velocity (s : State) (v : Vector3.t) : State :=
  mkState (camera s) (controls_isLocked s) v (moveForward s)
    (moveBackward s) (moveLeft s) (moveRight s) (canJump s) (isJumping s)
    (jumpVelocity s) (collisionObjects s) (overviewMode s)
    (orbitControls_enabled s) (orbitControls_target s)
    (orbitControls_pending s).

Definition set_moveForward (s : State) (b : bool) : State :=
  mkState (camera s) (controls_isLocked s) (velocity s) b
    (moveBackward s) (moveLeft s) (moveRight s) (canJump s) (isJumping s)
    (jumpVelocity s) (collisionObjects s) (overviewMode s)
    (orbitControls_enabled s) (orbitControls_target s)
    (orbitControls_pending s).

Definition set_moveBackward (s : State) (b : bool) : State :=
  mkState (camera s) (controls_isLocked s) (velocity s) (moveForward s)
    b (moveLeft s) (moveRight s) (canJump s) (isJumping s)
    (jumpVelocity s) (collisionObjects s) (overviewMode s)
    (orbitControls_enabled s) (orbitControls_target s)
    (orbitControls_pending s).

Definition set_moveLeft (s : State) (b : bool) : State :=
  mkState (camera s) (controls_isLocked s) (velocity s) (moveForward s)
    (moveBackward s) b (moveRight s) (canJump s) (isJumping s)
    (jumpVelocity s) (collisionObjects s) (overviewMode s)
    (orbitControls_enabled s) (orbitControls_target s)
    (orbitControls_pending s).

Definition set_moveRight (s : State) (b : bool) : State :=
  mkState (camera s) (controls_isLocked s) (velocity s) (moveForward s)
    (moveBackward s) (moveLeft s) b (canJump s) (isJumping s)
    (jumpVelocity s) (collisionObjects s) (overviewMode s)
    (orbitControls_enabled s) (orbitControls_target s)
    (orbitControls_pending s).

Definition set_canJump (s : State) (b : bool) : State :=
  mkState (camera s) (controls_isLocked s) (velocity s) (moveForward s)
    (moveBackward s) (moveLeft s) (moveRight s) b (isJumping s)
    (jumpVelocity s) (collisionObjects s) (overviewMode s)
    (orbitControls_enabled s) (orbitControls_target s)
    (orbitControls_pending s).

Definition set_isJumping (s : State) (b : bool) : State :=
  mkState (camera s) (controls_isLocked s) (velocity s) (moveForward s)
    (moveBackward s) (moveLeft s) (moveRight s) (canJump s) b
    (jumpVelocity s) (collisionObjects s) (overviewMode s)
    (orbitControls_enabled s) (orbitControls_target s)
    (orbitControls_pending s).

Definition set_jumpVelocity (s : State) (q : Q) : State :=
  mkState (camera s) (controls_isLocked s) (velocity s) (moveForward s)
    (moveBackward s) (moveLeft s) (moveRight s) (canJump s) (isJumping s)
    q (collisionObjects s) (overviewMode s)
    (orbitControls_enabled s) (orbitControls_target s)
    (orbitControls_pending s).

Definition set_collisionObjects (s : State) (l : list Object3D.t) : State :=
  mkState (camera s) (controls_isLocked s) (velocity s) (moveForward s)
    (moveBackward s) (moveLeft s) (moveRight s) (canJump s) (isJumping s)
    (jumpVelocity s) l (overviewMode s)
    (orbitControls_enabled s) (orbitControls_target s)
    (orbitControls_pending s).

Definition set_overviewMode (s : State) (b : bool) : State :=
  mkState (camera s) (controls_isLocked s) (velocity s) (moveForward s)
    (moveBackward s) (moveLeft s) (moveRight s) (canJump s) (isJumping s)
    (jumpVelocity s) (collisionObjects s) b
    (orbitControls_enabled s) (orbitControls_target s)
    (orbitControls_pending s).

Definition set_orbitControls_enabled (s : State) (b : bool) : State :=
  mkState (camera s) (controls_isLocked s) (velocity s) (moveForward s)
    (moveBackward s) (moveLeft s) (moveRight s) (canJump s) (isJumping s)
    (jumpVelocity s) (collisionObjects s) (overviewMode s)
    b (orbitControls_target s) (orbitControls_pending s).

Definition set_orbitControls_target (s : State) (v : Vector3.t) : State :=
  mkState (camera s) (controls_isLocked s) (velocity s) (moveForward s)
    (moveBackward s) (moveLeft s) (moveRight s) (canJump s) (isJumping s)
    (jumpVelocity s) (collisionObjects s) (overviewMode s)
    (orbitControls_enabled s) v (orbitControls_pending s).

Definition set_orbitControls_pending (s : State) (p : OrbitControls.Pending)
  : State :=
  mkState (camera s) (controls_isLocked s) (velocity s) (moveForward s)
    (moveBackward s) (moveLeft s) (moveRight s) (canJump s) (isJumping s)
    (jumpVelocity s) (collisionObjects s) (overviewMode s)
    (orbitControls_enabled s) (orbitControls_target s) p.

(** ** PointerLockControls *)

(** [controls.lock()] and [controls.unlock()]: the change of [isLocked] is
    taken to happen at once. *)
Definition controls_lock (s : State) : State := set_isLocked s true.
Definition controls_unlock (s : State) : State := set_isLocked s false.

(** [controls.moveRight(distance)]: along the first column of the camera
    matrix. *)
Definition controls_moveRight (c : Camera.t) (distance : Q) : Camera.t :=
  let v := Matrix.column0 (Camera.matrix c) in
  Camera.new (Vector3.addScaledVector (Camera.position c) v distance)
             (Camera.matrix c).

(** [controls.moveForward(distance)]: along [up x column0], parallel to the
    xz-plane. *)
Definition controls_moveForward (c : Camera.t) (distance : Q) : Camera.t :=
  let v := Vector3.crossVectors Camera.up (Matrix.column0 (Camera.matrix c)) in
  Camera.new (Vector3.addScaledVector (Camera.position c) v distance)
             (Camera.matrix c).

(** ** Input handlers *)

(** [document.addEventListener('click', ...)]: the activation gesture. *)
Definition document_click (s : State) : State :=
  if negb (controls_isLocked s) && negb (overviewMode s) then controls_lock s
  else s.

Section Keys.
Variable Math_sqrt : Q -> Q.

Definition keydown (code : string) (s : State) : State :=
  if (code =? "ArrowUp")%string || (code =? "KeyW")%string then
    set_moveForward s true
  else if (code =? "ArrowLeft")%string || (code =? "KeyA")%string then
    set_moveLeft s true
  else if (code =? "ArrowDown")%string || (code =? "KeyS")%string then
    set_moveBackward s true
  else if (code =? "ArrowRight")%string || (code =? "KeyD")%string then
    set_moveRight s true
  else if (code =? "Space")%string then
    if canJump s then
      let s := set_jumpVelocity s (Math_sqrt (2 * gravity * jumpHeight)) in
      let s := set_isJumping s true in
      set_canJump s false
    else s
  else s.
End Keys.

Definition keyup (code : string) (s : State) : State :=
  if (code =? "ArrowUp")%string || (code =? "KeyW")%string then
    set_moveForward s false
  else if (code =? "ArrowLeft")%string || (code =? "KeyA")%string then
    set_moveLeft s false
  else if (code =? "ArrowDown")%string || (code =? "KeyS")%string then
    set_moveBackward s false
  else if (code =? "ArrowRight")%string || (code =? "KeyD")%string then
    set_moveRight s false
  else s.

(** ** View modes *)

Module Viewpoint.
Record t : Type := new {
  name : string;
  position : Vector3.t;
  target : Vector3.t
}.
End Viewpoint.

Definition viewpoints : list Viewpoint.t :=
  [ Viewpoint.new "Speaker's Chair" (Vector3.new 0 2 (-10)) (Vector3.new 0 1 0);
    Viewpoint.new "Government Frontbench" (Vector3.new 2 2 0) (Vector3.new (-2) 1 0);
    Viewpoint.new "Opposition Frontbench" (Vector3.new (-2) 2 0) (Vector3.new 2 1 0);
    Viewpoint.new "Center of Chamber" (Vector3.new 0 5 0) (Vector3.new 0 0 (-5));
    Viewpoint.new "Public Gallery" (Vector3.new 0 8 12) (Vector3.new 0 1 0) ].

Section Modes.
(** [camera.lookAt(target)] from a camera position: the new orientation. *)
Variable lookAt : Vector3.t -> Vector3.t -> Matrix.t.
(** [orbitControls.update()], a method of the library: from the camera
    position, the target and the pending motion, the new camera pose
    (distance and angle limits, then a look at the target), the new target
    and what is left of the pending motion. *)
Variable orbitControls_update : OrbitControls.update.

(** A call of [orbitControls.update()]. *)
Definition orbitControls_update_call (s : State) : State :=
  let u :=
    orbitControls_update (Camera.position (camera s)) (orbitControls_target s)
      (orbitControls_pending s) in
  let s := set_camera s (OrbitControls.camera u) in
  let s := set_orbitControls_target s (OrbitControls.target u) in
  set_orbitControls_pending s (OrbitControls.pending u).

(** [viewModeButton.addEventListener('click', ...)] *)
Definition viewModeButton_click (s : State) : State :=
  let s := set_overviewMode s (negb (overviewMode s)) in
  if overviewMode s then
    let s := controls_unlock s in
    let s := set_orbitControls_enabled s true in
    let s := set_position s (Vector3.new 0 15 0) in
    set_camera s
      (Camera.new (Camera.position (camera s))
         (lookAt (Camera.position (camera s)) (Vector3.new 0 0 0)))
  else
    set_orbitControls_enabled s false.

(** The click handler of the button of one viewpoint. *)
Definition viewpoint_click (viewpoint : Viewpoint.t) (s : State) : State :=
  let s := set_overviewMode s true in
  let s := controls_unlock s in
  let s := set_orbitControls_enabled s true in
  let s := set_position s (Viewpoint.position viewpoint) in
  let s := set_orbitControls_target s (Viewpoint.target viewpoint) in
  orbitControls_update_call s.

End Modes.

(** ** animate: the per-frame update *)

(** [if (isJumping) { camera.position.y += jumpVelocity * delta;
    jumpVelocity -= gravity * delta; }] *)
Definition applyGravity (delta : Q) (s : State) : State :=
  if isJumping s then
    let s :=
      set_position_y s
        (Vector3.y (Camera.position (camera s)) + jumpVelocity s * delta) in
    set_jumpVelocity s (jumpVelocity s - gravity * delta)
  else s.

(** "If we hit the ground while jumping" *)
Definition land (groundCheck : Ground.t) (s : State) : State :=
  if isJumping s && Ground.onGround groundCheck && (jumpVelocity s <=! 0) then
    let s := set_isJumping s false in
    let s := set_jumpVelocity s 0 in
    let s := set_position_y s (Ground.groundY groundCheck + playerHeight) in
    set_canJump s true
  else s.

(** "If we're not jumping but not on ground, start falling" *)
Definition startFalling (groundCheck : Ground.t) (s : State) : State :=
  if negb (isJumping s) && negb (Ground.onGround groundCheck) then
    let s := set_isJumping s true in
    let s := set_jumpVelocity s 0 in
    set_canJump s false
  else s.

(** "Enforce minimum height (emergency floor collision)" *)
Definition enforceMinimumHeight (s : State) : State :=
  if Vector3.y (Camera.position (camera s)) <! playerHeight then
    let s := set_position_y s playerHeight in
    let s := set_isJumping s false in
    let s := set_jumpVelocity s 0 in
    set_canJump s true
  else s.

(** [collision.normal.multiplyScalar(collision.distance + 0.01)] scales the
    normal of the result in place and returns that same vector: from there
    on [correction] and [collision.normal] are one object, and the two
    tests [collision.normal.x !== 0] and [collision.normal.z !== 0] read
    the scaled vector.  A colliding result always carries a finite distance
    ([checkCollisions_colliding_finite] below), so the [Infinity] branch is
    never taken on a result of [checkCollisions]. *)
Definition applyCollision (collision : Collision.t) (s : State) : State :=
  if Collision.colliding collision then
    match Collision.distance collision with
    | Finite distance =>
        let correction :=
          Vector3.multiplyScalar (Collision.normal collision) (distance + 0.01) in
        let collision_normal := correction in
        let s :=
          set_position s (Vector3.add (Camera.position (camera s)) correction) in
        let s :=
          if nonzero (Vector3.x collision_normal) then
            set_velocity s
              (Vector3.new 0 (Vector3.y (velocity s)) (Vector3.z (velocity s)))
          else s in
        if nonzero (Vector3.z collision_normal) then
          set_velocity s
            (Vector3.new (Vector3.x (velocity s)) (Vector3.y (velocity s)) 0)
        else s
    | Infinity => s
    end
  else s.

(** How a call of [animate] ends: it returns, or the ray cast of
    [checkGround] throws.  The state is the one the call leaves. *)
Inductive Completion : Type :=
| Returned (s : State)
| Thrown (s : State).

Definition stateOf (c : Completion) : State :=
  match c with
  | Returned s => s
  | Thrown s => s
  end.

Section Animate.
Variable Math_sqrt : Q -> Q.
Variable orbitControls_update : OrbitControls.update.

(** "First-person movement code" and "Move the player".  [direction] is a
    module-level vector whose [y] is never written and stays [0]; its [x]
    and [z] are assigned before they are read, so it is local here. *)
Definition movePlayer (delta : Q) (s : State) : State :=
  let v := velocity s in
  let v :=
    Vector3.new (Vector3.x v - Vector3.x v * 10 * delta) (Vector3.y v)
      (Vector3.z v) in
  let v :=
    Vector3.new (Vector3.x v) (Vector3.y v)
      (Vector3.z v - Vector3.z v * 10 * delta) in
  let direction :=
    Vector3.normalize Math_sqrt
      (Vector3.new (Number (moveRight s) - Number (moveLeft s)) 0
         (Number (moveForward s) - Number (moveBackward s))) in
  let v :=
    if moveForward s || moveBackward s then
      Vector3.new (Vector3.x v) (Vector3.y v)
        (Vector3.z v - Vector3.z direction * 20 * delta)
    else v in
  let v :=
    if moveLeft s || moveRight s then
      Vector3.new (Vector3.x v - Vector3.x direction * 20 * delta)
        (Vector3.y v) (Vector3.z v)
    else v in
  let s := set_velocity s v in
  let s :=
    set_camera s (controls_moveRight (camera s) (- Vector3.x (velocity s) * delta)) in
  set_camera s (controls_moveForward (camera s) (- Vector3.z (velocity s) * delta)).

(** The state just before "Check for collisions after movement". *)
Definition beforeCollision (delta : Q) (s : State) : State :=
  let s := applyGravity delta s in
  let groundCheck :=
    checkGround (collisionObjects s) (Camera.position (camera s)) in
  let s := land groundCheck s in
  let s := startFalling groundCheck s in
  let s := enforceMinimumHeight s in
  movePlayer delta s.

(** The branch [else if (controls.isLocked)] of [animate]. *)
Definition firstPersonUpdate (delta : Q) (s : State) : State :=
  let s := beforeCollision delta s in
  let collision :=
    checkCollisions Math_sqrt (collisionObjects s)
      (Camera.position (camera s)) playerRadius in
  applyCollision collision s.

(** [animate], with [delta] the value of [clock.getDelta()]. *)
Definition animate (delta : Q) (s : State) : State :=
  if overviewMode s then orbitControls_update_call orbitControls_update s
  else if controls_isLocked s then firstPersonUpdate delta s
  else s.

(** [animate] with the exception of the ray cast.  In first person with
    the controls locked, [checkGround] is called right after the gravity
    step; when it throws, the rest of [animate] is not run: no landing, no
    movement, no collision response, no rendering of the frame.  The next
    frame was requested at the start of [animate] and runs all the same. *)
Definition animate_completion (delta : Q) (s : State) : Completion :=
  if overviewMode s then Returned (animate delta s)
  else if controls_isLocked s then
    let s1 := applyGravity delta s in
    if intersectObjects_throws (collisionObjects s1) then Thrown s1
    else Returned (animate delta s)
  else Returned (animate delta s).

End Animate.

(** ** The ground detector in the words of the specification

    Used only to compare [checkGround] with: "the nearest solid
    intersection within [standingHeight/2 + 0.1] counts as ground,
    reporting the intersection height"; failing that, the world floor at
    height 0 when [position.y <= standingHeight]; otherwise unsupported. *)

(** The nearest of a list of hits, the earliest one among equally near. *)
Fixpoint nearest (l : list Intersection.t) : option Intersection.t :=
  match l with
  | [] => None
  | h :: l' =>
      match nearest l' with
      | None => Some h
      | Some k =>
          if Intersection.distance h <=! Intersection.distance k then Some h
          else Some k
      end
  end.

Definition detect (position : Vector3.t) (solids : list Object3D.t) : Ground.t :=
  let hits :=
    flat_map (fun o => Object3D.raycast o position (Vector3.new 0 (-1) 0))
      solids in
  match nearest hits with
  | Some hit =>
      if Intersection.distance hit <! playerHeight / 2 + 0.1 then
        Ground.new true (Vector3.y (Intersection.point hit))
      else if Vector3.y position <=! playerHeight then Ground.new true 0
      else Ground.new false 0
  | None =>
      if Vector3.y position <=! playerHeight then Ground.new true 0
      else Ground.new false 0
  end.

(** ** Scene objects and states of the concrete runs *)

(** A downward ray on an axis-aligned box: it hits the top face when it
    starts at or above it and inside the outline of the box. *)
Definition boxRaycast (center : Vector3.t) (width height depth : Q)
  (origin direction : Vector3.t) : list Intersection.t :=
  let top := Vector3.y center + height / 2 in
  if (Vector3.x center - width / 2 <=! Vector3.x origin)
     && (Vector3.x origin <=! Vector3.x center + width / 2)
     && (Vector3.z center - depth / 2 <=! Vector3.z origin)
     && (Vector3.z origin <=! Vector3.z center + depth / 2)
     && (top <=! Vector3.y origin)
  then [ Intersection.new (Vector3.y origin - top)
           (Vector3.new (Vector3.x origin) top (Vector3.z origin)) ]
  else [].

(** [new THREE.Mesh(new THREE.BoxGeometry(width, height, depth), ...)] with
    [position.set(...)], added to the scene itself. *)
Definition boxMesh (center : Vector3.t) (width height depth : Q) : Object3D.t :=
  Object3D.new (Some center) (Some center)
    (Some (Box3.new
             (Vector3.new (- (width / 2)) (- (height / 2)) (- (depth / 2)))
             (Vector3.new (width / 2) (height / 2) (depth / 2))))
    true
    (boxRaycast center width height depth).

(** The back wall of [createWalls]. *)
Definition backWall : Object3D.t := boxMesh (Vector3.new 0 5 (-15)) 30 10 0.5.

(** The back of the first bench of tier 4 on the government side
    ([createTieredSide], [side = 1], [tier = 4], [z = -12]). *)
Definition benchBack : Object3D.t :=
  boxMesh (Vector3.new 9.65 1.9 (-10.75)) 0.2 0.8 2.5.

(** The box of the wall scenario of the specification: centre [(5, 0.5, 0)],
    half-extents [(1, 1, 1)]. *)
Definition scenarioBox : Object3D.t := boxMesh (Vector3.new 5 0.5 0) 2 2 2.

(** A group: position but no geometry. *)
Definition group : Object3D.t :=
  Object3D.new (Some Vector3.zero) (Some Vector3.zero) None true
    (fun _ _ => []).

(** A plain object with a bounding box and nothing else: no position, no
    [getWorldPosition], and none of what an [Object3D] has. *)
Definition plainObject : Object3D.t :=
  Object3D.new None None
    (Some (Box3.new (Vector3.new (-1) (-1) (-1)) (Vector3.new 1 1 1)))
    false (fun _ _ => []).

(** Stand-ins for [lookAt] and [OrbitControls.update] in concrete runs:
    a [lookAt] that leaves the camera unturned, and an orbit controller
    with nothing to apply, which leaves the camera where it is and the
    target and the pending motion as they are. *)
Definition lookAt_fixed (eye target : Vector3.t) : Matrix.t := Matrix.identity.
Definition orbit_fixed : OrbitControls.update :=
  fun position target pending =>
    OrbitControls.newUpdated (Camera.new position Matrix.identity) target
      pending.

(** Standing in first person, controls locked, at a given place with a
    given scene. *)
Definition standingAt (p : Vector3.t) (objects : list Object3D.t) : State :=
  set_collisionObjects
    (set_position (controls_lock initialState) p) objects.

(** ** Vocabulary of the statements about one box *)

Inductive Axis : Type := AxisX | AxisY | AxisZ.

Definition component (a : Axis) (v : Vector3.t) : Q :=
  match a with
  | AxisX => Vector3.x v
  | AxisY => Vector3.y v
  | AxisZ => Vector3.z v
  end.

(** The vector with [s] on axis [a] and 0 elsewhere. *)
Definition along (a : Axis) (s : Q) : Vector3.t :=
  match a with
  | AxisX => Vector3.new s 0 0
  | AxisY => Vector3.new 0 s 0
  | AxisZ => Vector3.new 0 0 s
  end.

Definition extent (a : Axis) (b : Box3.t) : Q :=
  component a (Box3.max b) - component a (Box3.min b).

Definition halfExtent (a : Axis) (b : Box3.t) : Q := extent a b / 2.

(** Offset of a position from the centre of a box. *)
Definition offset (a : Axis) (b : Box3.t) (p : Vector3.t) : Q :=
  component a p - (component a (Box3.min b) + component a (Box3.max b)) * 0.5.

(** The ratio [checkCollisions] computes: the offset over the full size. *)
Definition ratio (a : Axis) (b : Box3.t) (p : Vector3.t) : Q :=
  offset a b p / extent a b.

(** The ratio the specification describes: the offset over the
    half-extent. *)
Definition ratioByHalfExtent (a : Axis) (b : Box3.t) (p : Vector3.t) : Q :=
  offset a b p / halfExtent a b.

(** ** Vocabulary of the statements about the phases of a tick *)

(** The vertical phases change neither the scene, nor the input flags, nor
    the horizontal velocity, nor the orientation and the horizontal place
    of the camera. *)
Definition sameHorizontal (s s' : State) : Prop :=
  collisionObjects s' = collisionObjects s
  /\ Camera.matrix (camera s') = Camera.matrix (camera s)
  /\ Vector3.x (Camera.position (camera s')) = Vector3.x (Camera.position (camera s))
  /\ Vector3.z (Camera.position (camera s')) = Vector3.z (Camera.position (camera s))
  /\ velocity s' = velocity s
  /\ moveForward s' = moveForward s /\ moveBackward s' = moveBackward s
  /\ moveLeft s' = moveLeft s /\ moveRight s' = moveRight s
  /\ overviewMode s' = overviewMode s
  /\ controls_isLocked s' = controls_isLocked s.

(** The jump state is the same in two states. *)
Definition sameJump (s s' : State) : Prop :=
  isJumping s' = isJumping s
  /\ jumpVelocity s' = jumpVelocity s
  /\ canJump s' = canJump s.

(** The camera has no roll: the first column of its matrix is horizontal,
    as it is for a camera turned by the pointer-lock controls or by
    [lookAt] with the up vector [(0, 1, 0)]. *)
Definition level (s : State) : Prop :=
  Vector3.y (Matrix.column0 (Camera.matrix (camera s))) == 0.

(** Jumping or falling in first person with a given vertical velocity. *)
Definition jumpingAt (p : Vector3.t) (v : Q) (objects : list Object3D.t)
  : State :=
  set_canJump (set_isJumping (set_jumpVelocity (standingAt p objects) v) true)
    false.

(** ** Vocabulary of the statements about two runs *)

(** What the determinism claim lists as the inputs of a tick, [delta]
    apart: body state, input flags and solids. *)
Definition sameInputs (s1 s2 : State) : Prop :=
  Camera.position (camera s1) = Camera.position (camera s2)
  /\ velocity s1 = velocity s2
  /\ jumpVelocity s1 = jumpVelocity s2
  /\ isJumping s1 = isJumping s2
  /\ canJump s1 = canJump s2
  /\ moveForward s1 = moveForward s2
  /\ moveBackward s1 = moveBackward s2
  /\ moveLeft s1 = moveLeft s2
  /\ moveRight s1 = moveRight s2
  /\ collisionObjects s1 = collisionObjects s2.

(** The same heading: the column of the camera matrix the movement step
    reads. *)
Definition sameHeading (s1 s2 : State) : Prop :=
  Matrix.column0 (Camera.matrix (camera s1))
  = Matrix.column0 (Camera.matrix (camera s2)).

(** What the claim lists as the results of a tick. *)
Definition sameOutputs (s1 s2 : State) : Prop :=
  Camera.position (camera s1) = Camera.position (camera s2)
  /\ velocity s1 = velocity s2
  /\ jumpVelocity s1 = jumpVelocity s2
  /\ isJumping s1 = isJumping s2
  /\ canJump s1 = canJump s2.

(** The camera turned a quarter turn about the vertical. *)
Definition quarterTurn : Matrix.t :=
  Matrix.new (Vector3.new 0 0 (-1)) (Vector3.new 0 1 0) (Vector3.new 1 0 0).

(** In first person, controls locked, at [p] with horizontal velocity [v]
    and camera orientation [m]. *)
Definition slidingAt (p v : Vector3.t) (m : Matrix.t)
  (objects : list Object3D.t) : State :=
  set_velocity (set_camera (standingAt p objects) (Camera.new p m)) v.

(** ** Events: the handlers of the script as one step function *)

(** What can happen between two frames and at a frame.  [HouseLoaded]
    carries the objects [createHouseOfCommons] resolved with, each with its
    [userData.collidable].  [PointerLock] and [PointerUnlock] are the
    browser granting and releasing the pointer lock, which it does some
    time after [controls.lock()] and [controls.unlock()] asked for it, or
    on its own (the Escape key).  [OrbitControlsInput] is a gesture (drag,
    wheel, touch) taken by the listeners of the orbit controller, which
    heed it only when the controller is enabled: it leaves a motion to
    apply at the next calls of [update()]. *)
Inductive Event : Type :=
| Keydown (code : string)
| Keyup (code : string)
| DocumentClick
| ViewModeButtonClick
| ViewpointClick (viewpoint : Viewpoint.t)
| PointerLock
| PointerUnlock
| OrbitControlsInput (pending : OrbitControls.Pending)
| HouseLoaded (objects : list (Object3D.t * bool))
| Frame (delta : Q).

(** [collisionObjects = objects.filter(obj => obj.userData.collidable)] *)
Definition houseLoaded (objects : list (Object3D.t * bool)) (s : State)
  : State :=
  set_collisionObjects s (map fst (filter snd objects)).

Section Events.
Variable Math_sqrt : Q -> Q.
Variable lookAt : Vector3.t -> Vector3.t -> Matrix.t.
Variable orbitControls_update : OrbitControls.update.

Definition handle (s : State) (e : Event) : State :=
  match e with
  | Keydown code => keydown Math_sqrt code s
  | Keyup code => keyup code s
  | DocumentClick => document_click s
  | ViewModeButtonClick => viewModeButton_click lookAt s
  | ViewpointClick viewpoint => viewpoint_click orbitControls_update viewpoint s
  | PointerLock => controls_lock s
  | PointerUnlock => controls_unlock s
  | OrbitControlsInput pending =>
      if orbitControls_enabled s then set_orbitControls_pending s pending
      else s
  | HouseLoaded objects => houseLoaded objects s
  | Frame delta =>
      stateOf (animate_completion Math_sqrt orbitControls_update delta s)
  end.

(** The state after a sequence of events, from the initial state. *)
Definition run (events : list Event) : State :=
  fold_left handle events initialState.

(** [n] frames in a row, each of them returning. *)
Fixpoint frames (delta : Q) (n : nat) (s : State) : State :=
  match n with
  | O => s
  | S n' => frames delta n' (animate Math_sqrt orbitControls_update delta s)
  end.

End Events.

(** ** Vocabulary of the invariants *)


(** The jump variables agree with each other: [canJump] is the negation of
    [isJumping], the vertical velocity is 0 when not jumping, and the unused
    vertical component of [velocity] is 0. *)
Definition jumpConsistent (s : State) : Prop :=
  canJump s = negb (isJumping s)
  /\ (isJumping s = false -> jumpVelocity s = 0)
  /\ Vector3.y (velocity s) = 0.

(** The mode variables agree with each other: the orbit controller is
    enabled exactly in the overview. *)
Definition modeConsistent (s : State) : Prop :=
  orbitControls_enabled s = overviewMode s.


(** ** Vocabulary of the statements about the solids of a query *)

(** [object] is a solid the loop of [checkCollisions] tests and finds to
    contain [position]: in range, with a world position and a geometry,
    [position] inside its expanded box; [normal] and [distance] are what
    the loop computes for it. *)
Definition candidate (Math_sqrt : Q -> Q) (position : Vector3.t) (radius : Q)
  (object : Object3D.t) (normal : Vector3.t) (distance : Q) : Prop :=
  exists w g,
    tooFar Math_sqrt object position = false
    /\ worldPositionOf object = Some w
    /\ Object3D.geometry object = Some g
    /\ Box3.containsPoint (expandedBox g w radius) position = true
    /\ penetration (expandedBox g w radius) position = (normal, distance).

(** The bounding box of every geometry of the list is a box with
    [min <= max], as [computeBoundingBox] gives for a geometry with
    vertices.  Expanded by a positive radius such a box has a positive size
    on every axis, so that no division of [penetration] is by zero. *)
Definition solidBoxes (objects : list Object3D.t) : Prop :=
  forall object g,
    In object objects -> Object3D.geometry object = Some g ->
    Box3.isEmpty g = false.

(** Order on distances that may be [Infinity]. *)
Definition numLe (a b : Num) : Prop :=
  match a, b with
  | _, Infinity => True
  | Finite x, Finite y => x <= y
  | Infinity, Finite _ => False
  end.

(** Two vectors with equal components. *)
Definition sameVector (a b : Vector3.t) : Prop :=
  Vector3.x a == Vector3.x b
  /\ Vector3.y a == Vector3.y b
  /\ Vector3.z a == Vector3.z b.


(** ** Vocabulary of the statements about the world floor *)

(** First person, controls locked, no solid loaded, camera without roll. *)
Definition emptyScene (s : State) : Prop :=
  overviewMode s = false
  /\ controls_isLocked s = true
  /\ collisionObjects s = []
  /\ level s.

(** Standing on the world floor, free to jump. *)
Definition atRest (s : State) : Prop :=
  isJumping s = false
  /\ canJump s = true
  /\ Vector3.y (Camera.position (camera s)) == playerHeight.

(** A natural number as a JavaScript number. *)
Definition Qnat (n : nat) : Q := inject_Z (Z.of_nat n).


(** ** minimap.js: between the world and the canvas *)

(** Where [drawMPs] and [drawPlayer] (and the minimap code of [animate])
    draw a world position on a canvas of the given size:
    [x = (position.x + 20) * (width / 40)],
    [y = (position.z + 20) * (height / 40)]. *)
Definition minimapPoint (width height : Q) (position : Vector3.t) : Q * Q :=
  ((Vector3.x position + 20) * (width / 40),
   (Vector3.z position + 20) * (height / 40)).

(** The world position the click handler computes for a canvas point:
    [worldX = (x / width * 40) - 20], [worldZ = (y / height * 40) - 20]. *)
Definition minimapWorld (width height : Q) (x y : Q) : Q * Q :=
  (x / width * 40 - 20, y / height * 40 - 20).

(** ** mp-loader.js: party colours *)

(** [String.prototype.toLowerCase] on the letters A to Z; the other
    characters are kept, which is all the [switch] of [getPartyColor] can
    tell apart, its labels being lower-case ASCII without the letter k. *)
Definition lowerAscii (c : ascii) : ascii :=
  let n := nat_of_ascii c in
  if ((65 <=? n) && (n <=? 90))%nat then ascii_of_nat (n + 32) else c.

Fixpoint toLowerCase (s : string) : string :=
  match s with
  | EmptyString => EmptyString
  | String c s' => String (lowerAscii c) (toLowerCase s')
  end.

(** The colour of the body of an MP figure. *)
Definition getMPColor (party : string) : N :=
  if (party =? "Labour")%string then 0xE4003B%N
  else if (party =? "Conservative")%string then 0x0087DC%N
  else if (party =? "Liberal Democrats")%string then 0xFAA61A%N
  else if (party =? "Non-partisan")%string then 0x777777%N
  else 0xCCCCCC%N.

(** The colour of the default head texture and of the info panel. *)
Definition getPartyColor (party : string) : N :=
  let p := toLowerCase party in
  if (p =? "labour")%string then 0xE4003B%N
  else if (p =? "conservative")%string then 0x0087DC%N
  else if (p =? "liberal democrats")%string then 0xFAA61A%N
  else if (p =? "green")%string then 0x6AB023%N
  else if (p =? "scottish national party")%string || (p =? "snp")%string
       then 0xFFF95D%N
  else if (p =? "plaid cymru")%string then 0x005B54%N
  else if (p =? "non-partisan")%string then 0x777777%N
  else 0xCCCCCC%N.


(** ** mp-loader.js: seats *)

(** The fields of an MP record of [mps.json] the seating reads.  A missing
    [position] is the empty string: both are false for [Boolean] and equal
    to none of the position names. *)
Module MP.
Record t : Type := new { id : nat; party : string; position : string }.
End MP.

(** A seat is a point; [occupiedSeats] is a set of keys
    [`${x},${y},${z}`], of which the model keeps the points: two keys are
    the same string exactly when the three numbers are equal. *)
Definition sameSeat (a b : Vector3.t) : bool :=
  Qeq_bool (Vector3.x a) (Vector3.x b)
  && Qeq_bool (Vector3.y a) (Vector3.y b)
  && Qeq_bool (Vector3.z a) (Vector3.z b).

(** [occupiedSeats.has(seatKey)] *)
Definition has (occupiedSeats : list Vector3.t) (seat : Vector3.t) : bool :=
  existsb (sameSeat seat) occupiedSeats.

(** [occupiedSeats.add(seatKey)] *)
Definition add (occupiedSeats : list Vector3.t) (seat : Vector3.t)
  : list Vector3.t :=
  if has occupiedSeats seat then occupiedSeats else seat :: occupiedSeats.

(** [seatMap.get(id)] and [seatMap.set(id, seat)] on a [Map] kept as the
    list of its entries in insertion order. *)
Fixpoint mapGet (seatMap : list (nat * Vector3.t)) (id : nat)
  : option Vector3.t :=
  match seatMap with
  | [] => None
  | (k, v) :: m => if (k =? id)%nat then Some v else mapGet m id
  end.

Fixpoint mapSet (seatMap : list (nat * Vector3.t)) (id : nat) (seat : Vector3.t)
  : list (nat * Vector3.t) :=
  match seatMap with
  | [] => [(id, seat)]
  | (k, v) :: m =>
      if (k =? id)%nat then (k, seat) :: m else (k, v) :: mapSet m id seat
  end.

(** The inner loop of [findPartyBenchSeat],
    [for (let z = -10; z <= 10; z += 0.5)], entered at [z] with [count]
    iterations to go. *)
Fixpoint benchRow (side : Q) (tier : nat) (occupiedSeats : list Vector3.t)
  (z : Q) (count : nat) : option Vector3.t :=
  match count with
  | O => None
  | S count' =>
      if z <=! 10 then
        if (tier =? 0)%nat && (-2 <! z) && (z <! 2) then
          benchRow side tier occupiedSeats (z + 0.5) count'
        else
          let xBase := side * (3 + Qnat tier * 1.5) in
          let yBase := Qnat tier * 0.25 + 0.5 in
          let seat := Vector3.new xBase yBase z in
          if negb (has occupiedSeats seat) then Some seat
          else benchRow side tier occupiedSeats (z + 0.5) count'
      else None
  end.

(** The outer loop, [for (let tier = startTier; tier <= maxTier; tier++)],
    entered at [tier] with [count] tiers to go. *)
Fixpoint benchTiers (side : Q) (occupiedSeats : list Vector3.t)
  (tier count : nat) : option Vector3.t :=
  match count with
  | O => None
  | S count' =>
      match benchRow side tier occupiedSeats (-10) 41 with
      | Some seat => Some seat
      | None => benchTiers side occupiedSeats (S tier) count'
      end
  end.

Definition findPartyBenchSeat (side : Q) (isFrontbench : bool)
  (occupiedSeats : list Vector3.t) : Vector3.t :=
  let startTier := if isFrontbench then 0%nat else 1%nat in
  let maxTier := if isFrontbench then 0%nat else 7%nat in
  match benchTiers side occupiedSeats startTier (S maxTier - startTier) with
  | Some seat => seat
  | None => Vector3.new (side * 10) 0.5 0
  end.

(** The two loops of [findMinorPartySeat]. *)
Fixpoint minorSeats (xBase zOffset : Q) (occupiedSeats : list Vector3.t)
  (row seat count : nat) : option Vector3.t :=
  match count with
  | O => None
  | S count' =>
      let x := xBase + Qnat row * 0.5 in
      let y := Qnat row * 0.25 + 0.5 in
      let z := zOffset + Qnat seat * 0.5 in
      if negb (has occupiedSeats (Vector3.new x y z)) then
        Some (Vector3.new x y z)
      else minorSeats xBase zOffset occupiedSeats row (S seat) count'
  end.

Fixpoint minorRows (xBase zOffset : Q) (occupiedSeats : list Vector3.t)
  (row count : nat) : option Vector3.t :=
  match count with
  | O => None
  | S count' =>
      match minorSeats xBase zOffset occupiedSeats row 0 4 with
      | Some seat => Some seat
      | None => minorRows xBase zOffset occupiedSeats (S row) count'
      end
  end.

Definition findMinorPartySeat (side zOffset : Q)
  (occupiedSeats : list Vector3.t) : Vector3.t :=
  let xBase := side * 12 in
  match minorRows xBase zOffset occupiedSeats 0 3 with
  | Some seat => seat
  | None => Vector3.new xBase 0.5 zOffset
  end.

(** [Boolean(mp.position)] *)
Definition isFrontbench (mp : MP.t) : bool :=
  negb (MP.position mp =? "")%string.

Definition findRegularSeat (mp : MP.t) (occupiedSeats : list Vector3.t)
  : Vector3.t :=
  if (MP.party mp =? "Labour")%string then
    findPartyBenchSeat 1 (isFrontbench mp) occupiedSeats
  else if (MP.party mp =? "Conservative")%string then
    findPartyBenchSeat (-1) (isFrontbench mp) occupiedSeats
  else if (MP.party mp =? "Liberal Democrats")%string then
    findMinorPartySeat (-1) 8 occupiedSeats
  else findMinorPartySeat (-1) 0 occupiedSeats.

(** The comparator [calculateMPSeats] sorts the MPs with. *)
Definition compareMPs (a b : MP.t) : Z :=
  if (MP.position a =? "Speaker of the House of Commons")%string then (-1)%Z
  else if (MP.position b =? "Speaker of the House of Commons")%string then 1%Z
  else if (MP.position a =? "Prime Minister")%string then (-1)%Z
  else if (MP.position b =? "Prime Minister")%string then 1%Z
  else if (MP.position a =? "Leader of the Opposition")%string then (-1)%Z
  else if (MP.position b =? "Leader of the Opposition")%string then 1%Z
  else
    let aFront := isFrontbench a in
    let bFront := isFrontbench b in
    if aFront && negb bFront then (-1)%Z
    else if negb aFront && bFront then 1%Z
    else 0%Z.

(** The state of the [forEach] of [calculateMPSeats]: the two collections
    and how many values [Math.random] has returned so far. *)
Record Seating : Type := mkSeating {
  seatMap : list (nat * Vector3.t);
  occupiedSeats : list Vector3.t;
  drawn : nat
}.

Section Seats.
(** [random k] is the value of the call number [k] of [Math.random()]. *)
Variable random : nat -> Q.

(** The last resort of [findNearestAvailableSeat], with the next two
    random values. *)
Definition lastResort (party : string) (k : nat) : Vector3.t :=
  let side := if (party =? "Labour")%string then 1 else -1 in
  Vector3.new (side * (10 + random k * 2)) 0.5 (random (S k) * 10 - 5).

(** The loop [while (attempts < 20)], entered at [attempts] with [count]
    iterations to go. *)
Fixpoint nearbySeat (preferred : Vector3.t) (occupied : list Vector3.t)
  (attempts count : nat) (k : nat) : option Vector3.t * nat :=
  match count with
  | O => (None, k)
  | S count' =>
      let radius := 0.5 in
      let x := Vector3.x preferred + (random k - 0.5) * radius * Qnat attempts in
      let z :=
        Vector3.z preferred + (random (S k) - 0.5) * radius * Qnat attempts in
      let y := Vector3.y preferred in
      if negb (has occupied (Vector3.new x y z)) then
        (Some (Vector3.new x y z), S (S k))
      else nearbySeat preferred occupied (S attempts) count' (S (S k))
  end.

Definition findNearestAvailableSeat (preferred : Vector3.t) (party : string)
  (occupied : list Vector3.t) (k : nat) : Vector3.t * nat :=
  match nearbySeat preferred occupied 0 20 k with
  | (Some seat, k') => (seat, k')
  | (None, k') => (lastResort party k', S (S k'))
  end.

(** The body of [sortedMPs.forEach(mp => ...)]. *)
Definition seatMP (st : Seating) (mp : MP.t) : Seating :=
  if (MP.position mp =? "Speaker of the House of Commons")%string then
    mkSeating (mapSet (seatMap st) (MP.id mp) (Vector3.new 0 0.5 (-13)))
      (occupiedSeats st) (drawn st)
  else
    let seatPosition :=
      if (MP.position mp =? "Prime Minister")%string then
        Vector3.new 2 0.5 (-1)
      else if (MP.position mp =? "Leader of the Opposition")%string then
        Vector3.new (-2) 0.5 (-1)
      else if (MP.position mp =? "Deputy Prime Minister")%string then
        Vector3.new 2 0.5 1
      else if (MP.position mp =? "Chancellor of the Exchequer")%string then
        Vector3.new 2 0.5 (-2)
      else if (MP.position mp =? "Shadow Chancellor")%string then
        Vector3.new (-2) 0.5 (-2)
      else if (MP.position mp =? "Leader of the Liberal Democrats")%string then
        findMinorPartySeat (-1) 8 (occupiedSeats st)
      else findRegularSeat mp (occupiedSeats st) in
    if negb (has (occupiedSeats st) seatPosition) then
      mkSeating (mapSet (seatMap st) (MP.id mp) seatPosition)
        (add (occupiedSeats st) seatPosition) (drawn st)
    else
      let '(seat, k) :=
        findNearestAvailableSeat seatPosition (MP.party mp)
          (occupiedSeats st) (drawn st) in
      mkSeating (mapSet (seatMap st) (MP.id mp) seat)
        (add (occupiedSeats st) seat) k.

(** [calculateMPSeats] after the sort: the [forEach] over [sortedMPs],
    from the empty map and set and with [Math.random] at its call number
    [k]. *)
Definition seatAll (sortedMPs : list MP.t) (k : nat) : Seating :=
  fold_left seatMP sortedMPs (mkSeating [] [] k).

(** [calculateMPSeats], the sort being a parameter: [compareMPs] is not a
    consistent comparator (two Speakers compare as less both ways), so
    what the sort returns for it is left to the engine. *)
Definition calculateMPSeats (sort : list MP.t -> list MP.t)
  (mps : list MP.t) (k : nat) : list (nat * Vector3.t) :=
  seatMap (seatAll (sort mps) k).

End Seats.

(** ** Vocabulary of the statements about seats *)

(** The seat number [k] of a bench tier, counted from [z = -10] in steps
    of 0.5. *)
Definition benchSeat (side : Q) (tier k : nat) : Vector3.t :=
  Vector3.new (side * (3 + Qnat tier * 1.5)) (Qnat tier * 0.25 + 0.5)
    (-10 + Qnat k * 0.5).

(** The seats of the front bench beside the dispatch boxes, which the
    search passes over. *)
Definition besideDispatchBox (tier k : nat) : Prop :=
  tier = 0%nat /\ -2 < -10 + Qnat k * 0.5 /\ -10 + Qnat k * 0.5 < 2.

(** The seats [findPartyBenchSeat] searches: tier 0 for the front bench,
    tiers 1 to 7 otherwise, 41 places each. *)
Definition onBench (isFrontbench : bool) (tier k : nat) : Prop :=
  (if isFrontbench then tier = 0%nat else (1 <= tier <= 7)%nat)
  /\ (k <= 40)%nat
  /\ ~ besideDispatchBox tier k.

(** The order the two loops visit places in. *)
Definition before (row seat row' seat' : nat) : Prop :=
  (row < row')%nat \/ (row = row' /\ (seat < seat')%nat).

(** The place [seat] of the row [row] of the minor party area. *)
Definition minorSeat (xBase zOffset : Q) (row seat : nat) : Vector3.t :=
  Vector3.new (xBase + Qnat row * 0.5) (Qnat row * 0.25 + 0.5)
    (zOffset + Qnat seat * 0.5).

(** [Math.random()] returns values from 0 (included) to 1 (excluded). *)
Definition unitInterval (random : nat -> Q) : Prop :=
  forall k, 0 <= random k /\ random k < 1.

Definition speaker (mp : MP.t) : Prop :=
  MP.position mp = "Speaker of the House of Commons"%string.

(** The seating priority the comments of the comparator name: the
    Speaker, the Prime Minister, the Leader of the Opposition, the other
    front benchers, the back benchers. *)
Definition priority (mp : MP.t) : nat :=
  if (MP.position mp =? "Speaker of the House of Commons")%string then 0
  else if (MP.position mp =? "Prime Minister")%string then 1
  else if (MP.position mp =? "Leader of the Opposition")%string then 2
  else if isFrontbench mp then 3
  else 4.

(** * Properties *)

(** ** Comparisons *)

(** Closed goals: evaluate, then compare. *)
Ltac run :=
  vm_compute;
  first [ reflexivity | discriminate | let H := fresh in intro H; discriminate H ].

(** [lra] after turning the divisions by 2 into products. *)
Ltac qlra := unfold Qdiv in *; change (/ 2) with (1 # 2) in *; lra.

Lemma Qltb_lt (a b : Q) : (a <! b) = true <-> a < b.
Proof.
  unfold Qltb. rewrite negb_true_iff. split; intro H.
  - apply Qnot_le_lt. intro C. apply Qle_bool_iff in C. congruence.
  - destruct (Qle_bool b a) eqn:E; [|reflexivity].
    apply Qle_bool_iff in E. exfalso. apply (Qlt_not_le _ _ H E).
Qed.

Lemma Qltb_ge (a b : Q) : (a <! b) = false <-> b <= a.
Proof.
  unfold Qltb. rewrite negb_false_iff. apply Qle_bool_iff.
Qed.

Lemma Qleb_gt (a b : Q) : (a <=! b) = false <-> b < a.
Proof.
  rewrite <- Qltb_lt. unfold Qltb. rewrite negb_true_iff. reflexivity.
Qed.

Lemma Qltb_comp (a b b' : Q) : b == b' -> (a <! b) = (a <! b').
Proof.
  intro E. unfold Qltb. f_equal. apply Qleb_comp; [exact E | reflexivity].
Qed.

Lemma nonzero_true (a : Q) : nonzero a = true <-> ~ a == 0.
Proof.
  unfold nonzero. rewrite negb_true_iff. split; intro H.
  - apply Qeq_bool_neq. exact H.
  - destruct (Qeq_bool a 0) eqn:E; [|reflexivity].
    apply Qeq_bool_iff in E. contradiction.
Qed.

Lemma nonzero_false (a : Q) : nonzero a = false <-> a == 0.
Proof.
  unfold nonzero. rewrite negb_false_iff. apply Qeq_bool_iff.
Qed.

(** ** The ground detector *)

Lemma insertHit_head (h : Intersection.t) (l : list Intersection.t) :
  hd_error (insertHit h l) =
  match hd_error l with
  | None => Some h
  | Some k =>
      if Intersection.distance h <=! Intersection.distance k then Some h
      else Some k
  end.
Proof.
  destruct l as [|k l']; [reflexivity|].
  cbn [insertHit hd_error].
  destruct (Intersection.distance h <=! Intersection.distance k); reflexivity.
Qed.

(** The first element of the sorted array is the nearest hit. *)
Lemma sortHits_head (l : list Intersection.t) :
  hd_error (sortHits l) = nearest l.
Proof.
  induction l as [|h l IH]; [reflexivity|].
  unfold sortHits in *. cbn [fold_right nearest].
  rewrite insertHit_head, IH. reflexivity.
Qed.

(** [nearest] returns a hit of the list that no other hit undercuts. *)
Lemma nearest_minimal (l : list Intersection.t) (h : Intersection.t) :
  nearest l = Some h ->
  In h l /\
  forall k, In k l -> Intersection.distance h <= Intersection.distance k.
Proof.
  revert h. induction l as [|a l IH]; intros h H; [discriminate|].
  cbn [nearest] in H. destruct (nearest l) as [m|] eqn:N.
  - destruct (IH m eq_refl) as [Hin Hmin].
    destruct (Intersection.distance a <=! Intersection.distance m) eqn:E;
      injection H as <-.
    + apply Qle_bool_iff in E. split; [left; reflexivity|].
      intros k [<-|Hk]; [apply Qle_refl|].
      eapply Qle_trans; [exact E | apply Hmin, Hk].
    + apply Qleb_gt in E. split; [right; exact Hin|].
      intros k [<-|Hk]; [apply Qlt_le_weak, E | apply Hmin, Hk].
  - injection H as <-. split; [left; reflexivity|].
    intros k [<-|Hk]; [apply Qle_refl|].
    destruct l; [contradiction | cbn [nearest] in N].
    destruct (nearest l); [destruct (_ <=! _)|]; discriminate.
Qed.

Lemma ground_threshold : playerHeight * 0.5 + 0.1 == playerHeight / 2 + 0.1.
Proof. reflexivity. Qed.

(** C4. For every position and list of solids, [checkGround] is the ground
    detector of the specification: supported at the height of the nearest
    downward hit when that hit is within [standingHeight/2 + 0.1] of the
    position; failing that, supported at height 0 exactly when
    [position.y <= standingHeight]; otherwise unsupported. *)
Theorem checkGround_is_detect :
  forall (collisionObjects : list Object3D.t) (position : Vector3.t),
    checkGround collisionObjects position = detect position collisionObjects.
Proof.
  intros objs p. unfold checkGround, detect, intersectObjects.
  replace (Vector3.new (Vector3.x p) (Vector3.y p) (Vector3.z p)) with p
    by (destruct p; reflexivity).
  set (hits := flat_map _ objs).
  pose proof (sortHits_head hits) as H.
  destruct (sortHits hits) as [|hit rest]; cbn [hd_error] in H; rewrite <- H.
  - reflexivity.
  - rewrite (Qltb_comp _ _ _ ground_threshold).
    destruct (Intersection.distance hit <! playerHeight / 2 + 0.1);
      [reflexivity|].
    destruct (Vector3.y p <=! playerHeight); reflexivity.
Qed.

(** ** The jump key *)

(** C5. A jump starts exactly when [canJump] holds at the key press: then
    the vertical velocity becomes [sqrt(2 * gravity * jumpHeight)] with
    [gravity = 30] and [jumpHeight = 2], [isJumping] is set and [canJump]
    cleared, and nothing else changes; when [canJump] is false the key
    press leaves the whole state, so [jumpVelocity] and [isJumping], as it
    was. *)
Theorem space_key_jumps_iff_canJump :
  forall (Math_sqrt : Q -> Q) (s : State),
    let s' := keydown Math_sqrt "Space" s in
    if canJump s then
      jumpVelocity s' = Math_sqrt (2 * 30 * 2)
      /\ isJumping s' = true
      /\ canJump s' = false
      /\ set_canJump (set_isJumping (set_jumpVelocity s' (jumpVelocity s))
                        (isJumping s)) true = s
    else s' = s.
Proof.
  intros Math_sqrt s s'.
  assert (E : s' = if canJump s
                   then set_canJump
                          (set_isJumping
                             (set_jumpVelocity s
                                (Math_sqrt (2 * gravity * jumpHeight))) true)
                          false
                   else s) by reflexivity.
  destruct s as [c l v f b le r cj ij jv objs om oe ot op].
  cbn [canJump] in *. destruct cj; rewrite E; [|reflexivity].
  repeat split.
Qed.

(** ** The collision resolver: the loop over the solids *)

Section CollisionLoop.
Variable Math_sqrt : Q -> Q.
Variable position : Vector3.t.
Variable radius : Q.

(** What one iteration can do: leave the result as it is, or replace it
    by the collision with the object at hand, which then was in range,
    had a world position and a geometry, and contains the position in its
    expanded box. *)
Lemma checkObject_cases (result : Collision.t) (object : Object3D.t) :
  checkObject Math_sqrt position radius result object = result
  \/ exists w g,
       tooFar Math_sqrt object position = false
       /\ worldPositionOf object = Some w
       /\ Object3D.geometry object = Some g
       /\ Box3.containsPoint (expandedBox g w radius) position = true
       /\ lessThan (snd (penetration (expandedBox g w radius) position))
            (Collision.distance result) = true
       /\ checkObject Math_sqrt position radius result object =
          Collision.new true
            (fst (penetration (expandedBox g w radius) position))
            (Finite (snd (penetration (expandedBox g w radius) position)))
            (Some object).
Proof.
  unfold checkObject.
  destruct (tooFar Math_sqrt object position) eqn:F; [left; reflexivity|].
  destruct (worldPositionOf object) as [w|] eqn:W; [|left; reflexivity].
  destruct (Object3D.geometry object) as [g|] eqn:G; [|left; reflexivity].
  destruct (Box3.containsPoint (expandedBox g w radius) position) eqn:C;
    [|left; reflexivity].
  destruct (penetration (expandedBox g w radius) position) as [n d] eqn:P.
  cbn [fst snd].
  destruct (lessThan d (Collision.distance result)) eqn:L;
    [|left; reflexivity].
  right. exists w, g. rewrite P. cbn [fst snd]. repeat split; assumption.
Qed.

(** An invariant of the loop holds of its result. *)
Lemma loop_invariant (P : Collision.t -> Prop)
  (objects : list Object3D.t) (result : Collision.t) :
  P result ->
  (forall r o, In o objects -> P r ->
               P (checkObject Math_sqrt position radius r o)) ->
  P (fold_left (checkObject Math_sqrt position radius) objects result).
Proof.
  revert result. induction objects as [|o objects IH]; intros r H0 Hstep.
  - exact H0.
  - cbn [fold_left]. apply IH.
    + apply Hstep; [left; reflexivity | exact H0].
    + intros r' o' Hin. apply Hstep. right. exact Hin.
Qed.

(** The result of [checkCollisions] is the floor collision, no collision,
    or what the loop over the solids returns. *)
Lemma checkCollisions_unfold (objects : list Object3D.t) :
  checkCollisions Math_sqrt objects position radius =
  if Vector3.y position - playerHeight / 2 <=! 0.1 then
    Collision.new true (Vector3.new 0 1 0)
      (Finite (0.1 - (Vector3.y position - playerHeight / 2))) None
  else
    fold_left (checkObject Math_sqrt position radius) objects
      (noCollision).
Proof.
  unfold checkCollisions. cbn [floorCollisionBox Box3.max Vector3.y].
  destruct (_ <=! 0.1); [reflexivity|].
  destruct objects; reflexivity.
Qed.

(** The object a result names was in the list, in range, and the result
    is a collision. *)
Lemma checkCollisions_object (objects : list Object3D.t) (o : Object3D.t) :
  Collision.object (checkCollisions Math_sqrt objects position radius)
    = Some o ->
  In o objects /\ tooFar Math_sqrt o position = false.
Proof.
  rewrite checkCollisions_unfold.
  destruct (_ <=! 0.1); [discriminate|].
  apply (loop_invariant
           (fun r => Collision.object r = Some o ->
                     In o objects /\ tooFar Math_sqrt o position = false)).
  - discriminate.
  - intros r o' Hin IH.
    destruct (checkObject_cases r o') as [->|(w & g & F & _ & _ & _ & _ & ->)];
      [exact IH|].
    cbn [Collision.object]. intro E. injection E as <-. split; assumption.
Qed.

(** A solid the loop skips does not change its result. *)
Lemma checkCollisions_skip (l1 l2 : list Object3D.t) (o : Object3D.t) :
  (forall r, checkObject Math_sqrt position radius r o = r) ->
  checkCollisions Math_sqrt (l1 ++ o :: l2) position radius =
  checkCollisions Math_sqrt (l1 ++ l2) position radius.
Proof.
  intro Hskip. rewrite !checkCollisions_unfold.
  destruct (_ <=! 0.1); [reflexivity|].
  rewrite !fold_left_app. cbn [fold_left]. rewrite Hskip. reflexivity.
Qed.

End CollisionLoop.

(** C7. A solid whose centre, the [position] the cutoff test reads, is more
    than 5 units from the query position is never the [object] of the
    result of [checkCollisions], whatever its bounding box. *)
Theorem broad_phase_cutoff :
  forall (Math_sqrt : Q -> Q) (collisionObjects : list Object3D.t)
         (position : Vector3.t) (radius : Q)
         (solid : Object3D.t) (center : Vector3.t),
    Object3D.position solid = Some center ->
    5 < Vector3.distanceTo Math_sqrt center position ->
    Collision.object (checkCollisions Math_sqrt collisionObjects position radius)
      <> Some solid.
Proof.
  intros Math_sqrt objs p r solid c Hc Hfar Hobj.
  apply checkCollisions_object in Hobj. destruct Hobj as [_ F].
  unfold tooFar in F. rewrite Hc in F.
  apply Qltb_lt in Hfar. congruence.
Qed.

(** The back wall is 30 units wide about its centre: ten units along it,
    the camera is inside its expanded box and out of range of the test. *)
Lemma broad_phase_cutoff_witness :
  Box3.containsPoint
    (expandedBox
       (Box3.new (Vector3.new (-15) (-5) (-0.25)) (Vector3.new 15 5 0.25))
       (Vector3.new 0 5 (-15)) playerRadius)
    (Vector3.new 10 1.6 (-14.6)) = true
  /\ Collision.object
       (checkCollisions Qsqrt [backWall] (Vector3.new 10 1.6 (-14.6))
          playerRadius) <> Some backWall.
Proof.
  split; [vm_compute; reflexivity|].
  apply (broad_phase_cutoff Qsqrt [backWall] (Vector3.new 10 1.6 (-14.6))
           playerRadius backWall (Vector3.new 0 5 (-15))).
  - reflexivity.
  - vm_compute. reflexivity.
Defined.

(** ** The collision resolver: one box *)

Lemma containsPoint_bounds (b : Box3.t) (p : Vector3.t) :
  Box3.containsPoint b p = true ->
  forall a, component a (Box3.min b) <= component a p
            /\ component a p <= component a (Box3.max b).
Proof.
  unfold Box3.containsPoint. rewrite !andb_true_iff, !Qle_bool_iff.
  intros [[[[[H1 H2] H3] H4] H5] H6] a. destruct a; cbn [component]; auto.
Qed.

Lemma containsPoint_not_empty (b : Box3.t) (p : Vector3.t) :
  Box3.containsPoint b p = true -> Box3.isEmpty b = false.
Proof.
  intro H. pose proof (containsPoint_bounds b p H) as B.
  destruct (B AxisX) as [X1 X2], (B AxisY) as [Y1 Y2], (B AxisZ) as [Z1 Z2].
  cbn [component] in *. unfold Box3.isEmpty.
  rewrite !orb_false_iff, !Qltb_ge. repeat split; lra.
Qed.

(** The axis [penetration] settles on, the normal and the distance it
    returns, in the vocabulary above: the axis has the smallest absolute
    ratio, the normal is the sign of the ratio on that axis, and the
    distance is the code's expression for that axis. *)
Lemma penetration_axis (b : Box3.t) (p : Vector3.t) :
  Box3.isEmpty b = false ->
  exists a,
    penetration b p =
      (along a (Math_sign (ratio a b p)),
       extent a b / 2 - Math_abs (ratio a b p) * extent a b / 2)
    /\ forall a', Math_abs (ratio a b p) <= Math_abs (ratio a' b p).
Proof.
  intro E. unfold penetration, Box3.getCenter, Box3.getSize. rewrite E.
  cbn [Vector3.multiplyScalar Vector3.add Vector3.sub Vector3.x Vector3.y
       Vector3.z].
  change ((Vector3.x p - (Vector3.x (Box3.min b) + Vector3.x (Box3.max b)) * 0.5)
          / (Vector3.x (Box3.max b) - Vector3.x (Box3.min b)))
    with (ratio AxisX b p).
  change ((Vector3.y p - (Vector3.y (Box3.min b) + Vector3.y (Box3.max b)) * 0.5)
          / (Vector3.y (Box3.max b) - Vector3.y (Box3.min b)))
    with (ratio AxisY b p).
  change ((Vector3.z p - (Vector3.z (Box3.min b) + Vector3.z (Box3.max b)) * 0.5)
          / (Vector3.z (Box3.max b) - Vector3.z (Box3.min b)))
    with (ratio AxisZ b p).
  destruct ((Math_abs (ratio AxisX b p) <=! Math_abs (ratio AxisY b p))
            && (Math_abs (ratio AxisX b p) <=! Math_abs (ratio AxisZ b p)))
    eqn:CX.
  { exists AxisX. split; [reflexivity|].
    apply andb_true_iff in CX. rewrite !Qle_bool_iff in CX.
    intros [ | | ]; [apply Qle_refl | tauto | tauto]. }
  destruct ((Math_abs (ratio AxisY b p) <=! Math_abs (ratio AxisX b p))
            && (Math_abs (ratio AxisY b p) <=! Math_abs (ratio AxisZ b p)))
    eqn:CY.
  { exists AxisY. split; [reflexivity|].
    apply andb_true_iff in CY. rewrite !Qle_bool_iff in CY.
    intros [ | | ]; [tauto | apply Qle_refl | tauto]. }
  exists AxisZ. split; [reflexivity|].
  apply andb_false_iff in CX. apply andb_false_iff in CY.
  rewrite !Qleb_gt in CX, CY.
  intros [ | | ]; [ | | apply Qle_refl]; destruct CX, CY; lra.
Qed.

Lemma Qabs_div_mul (o s : Q) : 0 < s -> Qabs (o / s) * s == Qabs o.
Proof.
  intro H. unfold Qdiv. rewrite Qabs_Qmult.
  rewrite (Qabs_pos (/ s)) by (apply Qlt_le_weak, Qinv_lt_0_compat, H).
  field. lra.
Qed.

Lemma Qdiv_zero (o s : Q) : s == 0 -> o / s == 0.
Proof.
  intro H. unfold Qdiv. rewrite H. change (/ 0) with 0. ring.
Qed.

(** On one axis, for a coordinate between the two faces: the code's
    distance is the half-extent less HALF the absolute offset, so it is the
    half-extent times [1 - |ratio|] for the code's ratio, and never less
    than half the half-extent. *)
Lemma axis_distance (a : Axis) (b : Box3.t) (p : Vector3.t) :
  component a (Box3.min b) <= component a p ->
  component a p <= component a (Box3.max b) ->
  let d := extent a b / 2 - Math_abs (ratio a b p) * extent a b / 2 in
  d == halfExtent a b * (1 - Math_abs (ratio a b p))
  /\ d == halfExtent a b - Qabs (offset a b p) / 2
  /\ halfExtent a b / 2 <= d.
Proof.
  intros Hlo Hhi d. subst d. unfold halfExtent, Math_abs, ratio.
  assert (Hoff : Qabs (offset a b p) <= extent a b / 2).
  { apply Qabs_Qle_condition. unfold offset, extent. split; qlra. }
  assert (Hs : 0 <= extent a b) by (unfold extent; lra).
  assert (M : Qabs (offset a b p / extent a b) * extent a b
              == Qabs (offset a b p)).
  { destruct (Qeq_dec (extent a b) 0) as [Z|NZ].
    - pose proof (Qabs_nonneg (offset a b p)) as N.
      assert (O : Qabs (offset a b p) == 0) by qlra.
      rewrite O, Z. ring.
    - apply Qabs_div_mul. lra. }
  set (r := Qabs (offset a b p / extent a b)) in *.
  set (o := Qabs (offset a b p)) in *.
  set (e := extent a b) in *.
  repeat split; qlra.
Qed.

(** The sign of the code's ratio is the sign of the offset. *)
Lemma sign_ratio (a : Axis) (b : Box3.t) (p : Vector3.t) :
  0 < extent a b ->
  Math_sign (ratio a b p) = Math_sign (offset a b p).
Proof.
  intro H. unfold Math_sign, ratio, Qdiv. f_equal.
  destruct (extent a b) as [n d]. unfold Qlt in H. cbn in H.
  assert (0 < n)%Z by lia. destruct n as [|n|n]; try lia.
  cbn [Qinv Qnum Qmult]. rewrite Z.sgn_mul. cbn [Z.sgn]. lia.
Qed.

(** What [checkCollisions] reports for a box that contains the position:
    see [penetration_axis] and [axis_distance].  In particular the distance
    is at least half the half-extent of the chosen axis however close the
    position is to the faces of the box. *)
Lemma penetration_distance_bound (b : Box3.t) (p : Vector3.t) :
  Box3.containsPoint b p = true ->
  exists a,
    fst (penetration b p) = along a (Math_sign (ratio a b p))
    /\ snd (penetration b p) == halfExtent a b * (1 - Math_abs (ratio a b p))
    /\ snd (penetration b p) == halfExtent a b - Qabs (offset a b p) / 2
    /\ halfExtent a b / 2 <= snd (penetration b p)
    /\ 0 <= snd (penetration b p).
Proof.
  intro C. pose proof (containsPoint_bounds b p C) as B.
  destruct (penetration_axis b p (containsPoint_not_empty b p C))
    as (a & -> & _).
  exists a. cbn [fst snd]. destruct (B a) as [Hlo Hhi].
  destruct (axis_distance a b p Hlo Hhi) as (D1 & D2 & D3).
  repeat split; try assumption.
  assert (0 <= halfExtent a b) by (unfold halfExtent, extent; qlra).
  qlra.
Qed.

(** ** The collision resolver: what a result can be *)

(** A colliding result carries a finite, non-negative distance. *)
Lemma checkCollisions_colliding_finite
  (Math_sqrt : Q -> Q) (objects : list Object3D.t) (position : Vector3.t)
  (radius : Q) :
  Collision.colliding (checkCollisions Math_sqrt objects position radius) = true ->
  exists d,
    Collision.distance (checkCollisions Math_sqrt objects position radius)
      = Finite d
    /\ 0 <= d.
Proof.
  rewrite checkCollisions_unfold.
  destruct (_ <=! 0.1) eqn:F.
  - intros _. eexists. split; [reflexivity|].
    apply Qle_bool_iff in F. lra.
  - apply (loop_invariant Math_sqrt position radius
             (fun r => Collision.colliding r = true ->
                       exists d, Collision.distance r = Finite d /\ 0 <= d)).
    + discriminate.
    + intros r o _ IH.
      destruct (checkObject_cases Math_sqrt position radius r o)
        as [->|(w & g & _ & _ & _ & C & _ & ->)]; [exact IH|].
      intros _. eexists. split; [reflexivity|].
      destruct (penetration_distance_bound _ _ C) as (a & _ & _ & _ & _ & N).
      exact N.
Qed.

(** A result that is not colliding is the initial one. *)
Lemma checkCollisions_not_colliding
  (Math_sqrt : Q -> Q) (objects : list Object3D.t) (position : Vector3.t)
  (radius : Q) :
  Collision.colliding (checkCollisions Math_sqrt objects position radius) = false ->
  checkCollisions Math_sqrt objects position radius = noCollision.
Proof.
  rewrite checkCollisions_unfold.
  destruct (_ <=! 0.1); [discriminate|].
  apply (loop_invariant Math_sqrt position radius
           (fun r => Collision.colliding r = false -> r = noCollision)).
  - reflexivity.
  - intros r o _ IH.
    destruct (checkObject_cases Math_sqrt position radius r o)
      as [->|(w & g & _ & _ & _ & _ & _ & ->)]; [exact IH | discriminate].
Qed.

(** ** The phases of a tick: what each leaves alone *)

Ltac fields :=
  cbn [camera controls_isLocked velocity moveForward moveBackward moveLeft
       moveRight canJump isJumping jumpVelocity collisionObjects overviewMode
       orbitControls_enabled orbitControls_target orbitControls_pending
       set_camera set_position set_position_y set_isLocked set_velocity
       set_moveForward set_moveBackward set_moveLeft set_moveRight
       set_canJump set_isJumping set_jumpVelocity set_collisionObjects
       set_overviewMode set_orbitControls_enabled set_orbitControls_target
       set_orbitControls_pending orbitControls_update_call
       controls_lock controls_unlock controls_moveRight controls_moveForward
       Camera.position Camera.matrix Vector3.set_y
       Vector3.x Vector3.y Vector3.z] in *.

Ltac phase :=
  unfold applyGravity, land, startFalling, enforceMinimumHeight;
  repeat match goal with
         | |- context [if ?c then _ else _] => destruct c
         end;
  fields.

Lemma applyGravity_frame (delta : Q) (s : State) :
  sameHorizontal s (applyGravity delta s).
Proof. unfold sameHorizontal. phase; repeat split. Qed.

Lemma land_frame (g : Ground.t) (s : State) : sameHorizontal s (land g s).
Proof. unfold sameHorizontal. phase; repeat split. Qed.

Lemma startFalling_frame (g : Ground.t) (s : State) :
  sameHorizontal s (startFalling g s).
Proof. unfold sameHorizontal. phase; repeat split. Qed.

Lemma enforceMinimumHeight_frame (s : State) :
  sameHorizontal s (enforceMinimumHeight s).
Proof. unfold sameHorizontal. phase; repeat split. Qed.

(** After "Enforce minimum height" the camera is at the player height or
    above. *)
Lemma enforceMinimumHeight_floor (s : State) :
  playerHeight <= Vector3.y (Camera.position (camera (enforceMinimumHeight s))).
Proof.
  unfold enforceMinimumHeight.
  destruct (_ <! playerHeight) eqn:E; fields.
  - apply Qle_refl.
  - apply Qltb_ge in E. exact E.
Qed.

Lemma movePlayer_frame (Math_sqrt : Q -> Q) (delta : Q) (s : State) :
  sameJump s (movePlayer Math_sqrt delta s)
  /\ collisionObjects (movePlayer Math_sqrt delta s) = collisionObjects s
  /\ Camera.matrix (camera (movePlayer Math_sqrt delta s))
     = Camera.matrix (camera s).
Proof.
  unfold sameJump, movePlayer. fields. repeat split.
Qed.

(** A camera without roll keeps its height when the player is moved. *)
Lemma movePlayer_height (Math_sqrt : Q -> Q) (delta : Q) (s : State) :
  level s ->
  Vector3.y (Camera.position (camera (movePlayer Math_sqrt delta s)))
  == Vector3.y (Camera.position (camera s)).
Proof.
  unfold level, movePlayer. intro L. fields.
  unfold Vector3.addScaledVector, Vector3.crossVectors, Camera.up. fields.
  rewrite L. ring.
Qed.

Lemma applyCollision_frame (collision : Collision.t) (s : State) :
  sameJump s (applyCollision collision s)
  /\ collisionObjects (applyCollision collision s) = collisionObjects s
  /\ Camera.matrix (camera (applyCollision collision s))
     = Camera.matrix (camera s).
Proof.
  unfold sameJump, applyCollision.
  destruct (Collision.colliding collision); [|repeat split].
  destruct (Collision.distance collision); [|repeat split].
  destruct (nonzero _); destruct (nonzero _); fields; repeat split.
Qed.

Lemma beforeCollision_level (Math_sqrt : Q -> Q) (delta : Q) (s : State) :
  level s ->
  level (enforceMinimumHeight
           (startFalling
              (checkGround (collisionObjects (applyGravity delta s))
                 (Camera.position (camera (applyGravity delta s))))
              (land
                 (checkGround (collisionObjects (applyGravity delta s))
                    (Camera.position (camera (applyGravity delta s))))
                 (applyGravity delta s)))).
Proof.
  unfold level. intro L.
  set (s1 := applyGravity delta s).
  set (g := checkGround _ _).
  destruct (applyGravity_frame delta s) as (_ & M1 & _).
  destruct (land_frame g s1) as (_ & M2 & _).
  destruct (startFalling_frame g (land g s1)) as (_ & M3 & _).
  destruct (enforceMinimumHeight_frame (startFalling g (land g s1)))
    as (_ & M4 & _).
  rewrite M4, M3, M2. unfold s1. rewrite M1. exact L.
Qed.

(** With a camera without roll, the state handed to the collision check is
    at the player height or above. *)
Lemma beforeCollision_floor (Math_sqrt : Q -> Q) (delta : Q) (s : State) :
  level s ->
  playerHeight
  <= Vector3.y (Camera.position (camera (beforeCollision Math_sqrt delta s))).
Proof.
  intro L. unfold beforeCollision.
  rewrite movePlayer_height by (apply (beforeCollision_level Math_sqrt), L).
  apply enforceMinimumHeight_floor.
Qed.

Lemma beforeCollision_objects (Math_sqrt : Q -> Q) (delta : Q) (s : State) :
  collisionObjects (beforeCollision Math_sqrt delta s) = collisionObjects s.
Proof.
  unfold beforeCollision.
  set (s1 := applyGravity delta s).
  set (g := checkGround _ _).
  destruct (movePlayer_frame Math_sqrt delta
              (enforceMinimumHeight (startFalling g (land g s1))))
    as (_ & O5 & _).
  destruct (applyGravity_frame delta s) as (O1 & _).
  destruct (land_frame g s1) as (O2 & _).
  destruct (startFalling_frame g (land g s1)) as (O3 & _).
  destruct (enforceMinimumHeight_frame (startFalling g (land g s1)))
    as (O4 & _).
  rewrite O5, O4, O3, O2. exact O1.
Qed.

(** ** Empty scene, skipped solids *)

(** An object without geometry, or with neither [getWorldPosition] nor
    [position], leaves the result of an iteration as it was. *)
Lemma checkObject_skips (Math_sqrt : Q -> Q) (position : Vector3.t)
  (radius : Q) (object : Object3D.t) :
  Object3D.geometry object = None
  \/ (Object3D.getWorldPosition object = None
      /\ Object3D.position object = None) ->
  forall result,
    checkObject Math_sqrt position radius result object = result.
Proof.
  intros H result. unfold checkObject, worldPositionOf.
  destruct (tooFar Math_sqrt object position); [reflexivity|].
  destruct H as [G|[W P]].
  - rewrite G. destruct (Object3D.getWorldPosition object);
      [reflexivity | destruct (Object3D.position object); reflexivity].
  - rewrite W, P. reflexivity.
Qed.

(** C9 as stated fails for a solid without position.  A plain object with
    neither [position] nor [getWorldPosition] is skipped by the resolver,
    which answers as on the empty list; but the tick does not get that far:
    the ray cast of [checkGround], which comes first, throws on it, and the
    tick ends there, in the state the gravity step left. *)
Lemma solid_without_position_aborts_tick :
  let s := standingAt (Vector3.new 0 1.6 10) [plainObject] in
  Object3D.position plainObject = None
  /\ Object3D.getWorldPosition plainObject = None
  /\ checkCollisions Qsqrt [plainObject] (Vector3.new 0 1.6 10) playerRadius
     = checkCollisions Qsqrt [] (Vector3.new 0 1.6 10) playerRadius
  /\ animate_completion Qsqrt orbit_fixed (1 # 60) s = Thrown s
  /\ animate_completion Qsqrt orbit_fixed (1 # 60) s
     <> Returned (animate Qsqrt orbit_fixed (1 # 60) s).
Proof.
  cbv zeta. repeat apply conj; try reflexivity. discriminate.
Qed.

(** C9, as the code has it.  With an empty list of solids the resolver
    reports the floor-plane collision or no collision at all, and the
    ground detector reports the world floor at height 0 exactly when
    [position.y <= playerHeight]; a first-person tick on an empty scene,
    the camera without roll, finds no collision and ends in the state the
    movement step produced.  A solid without geometry, or with neither a
    world position nor a position, is skipped by the resolver, which
    answers as if it were not in the list.  The tick returns when every
    entry of the list has what the ray cast of [checkGround] reads of it,
    as every [Object3D] has, one without geometry too; on a list with an
    entry that has not, a first-person tick throws after the gravity
    step. *)
Theorem empty_scene_and_skipped_solids :
  forall (Math_sqrt : Q -> Q),
    (forall position radius,
        checkCollisions Math_sqrt [] position radius =
        if Vector3.y position - playerHeight / 2 <=! 0.1 then
          Collision.new true (Vector3.new 0 1 0)
            (Finite (0.1 - (Vector3.y position - playerHeight / 2))) None
        else Collision.new false Vector3.zero Infinity None)
    /\ (forall position,
           checkGround [] position =
           Ground.new (Vector3.y position <=! playerHeight) 0)
    /\ (forall orbitControls_update delta s,
           overviewMode s = false -> controls_isLocked s = true ->
           collisionObjects s = [] -> level s ->
           let s1 := beforeCollision Math_sqrt delta s in
           Collision.colliding
             (checkCollisions Math_sqrt (collisionObjects s1)
                (Camera.position (camera s1)) playerRadius) = false
           /\ animate_completion Math_sqrt orbitControls_update delta s
              = Returned s1)
    /\ (forall position radius l1 l2 solid,
           Object3D.geometry solid = None
           \/ (Object3D.getWorldPosition solid = None
               /\ Object3D.position solid = None) ->
           checkCollisions Math_sqrt (l1 ++ solid :: l2) position radius =
           checkCollisions Math_sqrt (l1 ++ l2) position radius)
    /\ (forall orbitControls_update delta s,
           forallb Object3D.layers (collisionObjects s) = true ->
           animate_completion Math_sqrt orbitControls_update delta s
           = Returned (animate Math_sqrt orbitControls_update delta s))
    /\ (forall orbitControls_update delta s,
           overviewMode s = false -> controls_isLocked s = true ->
           forallb Object3D.layers (collisionObjects s) = false ->
           animate_completion Math_sqrt orbitControls_update delta s
           = Thrown (applyGravity delta s)).
Proof.
  intro Math_sqrt.
  assert (G : forall delta s,
             collisionObjects (applyGravity delta s) = collisionObjects s).
  { intros delta s. apply (applyGravity_frame delta s). }
  split; [|split; [|split; [|split; [|split]]]].
  - intros p r. rewrite checkCollisions_unfold. reflexivity.
  - intro p. unfold checkGround, intersectObjects. cbn [flat_map sortHits fold_right].
    destruct (Vector3.y p <=! playerHeight); reflexivity.
  - intros orbit delta s OM LK E L s1.
    assert (C : Collision.colliding
                  (checkCollisions Math_sqrt (collisionObjects s1)
                     (Camera.position (camera s1)) playerRadius) = false).
    { unfold s1. rewrite beforeCollision_objects, E, checkCollisions_unfold.
      pose proof (beforeCollision_floor Math_sqrt delta s L) as F.
      destruct (_ <=! 0.1) eqn:B; [|reflexivity].
      apply Qle_bool_iff in B. unfold playerHeight in *. exfalso. qlra. }
    split; [exact C|].
    unfold animate_completion, intersectObjects_throws.
    rewrite OM, LK, G, E. cbn [forallb negb].
    unfold animate. rewrite OM, LK. unfold firstPersonUpdate. fold s1.
    unfold applyCollision. rewrite C. reflexivity.
  - intros p r l1 l2 solid H. apply checkCollisions_skip.
    apply checkObject_skips, H.
  - intros orbit delta s A. unfold animate_completion, intersectObjects_throws.
    rewrite G, A. cbn [negb].
    destruct (overviewMode s); [reflexivity|].
    destruct (controls_isLocked s); reflexivity.
  - intros orbit delta s OM LK A.
    unfold animate_completion, intersectObjects_throws.
    rewrite OM, LK, G, A. reflexivity.
Qed.

(** An empty scene; a group, which has no geometry, between two meshes:
    skipped by the resolver, and the tick returns. *)
Lemma empty_scene_and_skipped_solids_witness :
  (let s1 := beforeCollision Qsqrt (1 # 60) (standingAt (Vector3.new 0 1.6 10) []) in
   Collision.colliding
     (checkCollisions Qsqrt (collisionObjects s1)
        (Camera.position (camera s1)) playerRadius) = false
   /\ animate_completion Qsqrt orbit_fixed (1 # 60)
        (standingAt (Vector3.new 0 1.6 10) [])
      = Returned s1)
  /\ checkCollisions Qsqrt ([backWall] ++ group :: [benchBack])
       (Vector3.new 10 1.6 (-9.75)) playerRadius
     = checkCollisions Qsqrt ([backWall] ++ [benchBack])
         (Vector3.new 10 1.6 (-9.75)) playerRadius
  /\ animate_completion Qsqrt orbit_fixed (1 # 60)
       (standingAt (Vector3.new 10 1.6 (-9.75)) [backWall; group; benchBack])
     = Returned
         (animate Qsqrt orbit_fixed (1 # 60)
            (standingAt (Vector3.new 10 1.6 (-9.75))
               [backWall; group; benchBack]))
  /\ animate_completion Qsqrt orbit_fixed (1 # 60)
       (standingAt (Vector3.new 10 1.6 (-9.75)) [backWall; plainObject])
     = Thrown
         (applyGravity (1 # 60)
            (standingAt (Vector3.new 10 1.6 (-9.75)) [backWall; plainObject])).
Proof.
  destruct (empty_scene_and_skipped_solids Qsqrt) as (_ & _ & T & K & R & X).
  split; [|split; [|split]].
  - apply (T orbit_fixed (1 # 60) (standingAt (Vector3.new 0 1.6 10) []));
      reflexivity.
  - apply (K (Vector3.new 10 1.6 (-9.75)) playerRadius [backWall] [benchBack]
             group).
    left. reflexivity.
  - apply (R orbit_fixed (1 # 60)). reflexivity.
  - apply (X orbit_fixed (1 # 60)); reflexivity.
Defined.

(** In first person with the controls locked, [animate] is the
    first-person update. *)
Lemma animate_firstPerson
  (Math_sqrt : Q -> Q)
  (orbitControls_update : OrbitControls.update)
  (delta : Q) (s : State) :
  overviewMode s = false -> controls_isLocked s = true ->
  animate Math_sqrt orbitControls_update delta s
  = firstPersonUpdate Math_sqrt delta s.
Proof.
  intros OM LK. unfold animate. rewrite OM, LK. reflexivity.
Qed.

(** ** Landing *)

(** C6. In a first-person tick that starts while jumping, if after the
    gravity step the ground detector reports support and the vertical
    velocity is not positive, the landing step sets [position.y] to
    [groundY + playerHeight], zeroes the vertical velocity, clears
    [isJumping] and sets [canJump]; the three flags keep these values to
    the end of the tick. *)
Theorem landing :
  forall (Math_sqrt : Q -> Q)
         (orbitControls_update : OrbitControls.update)
         (delta : Q) (s : State),
    overviewMode s = false ->
    controls_isLocked s = true ->
    isJumping s = true ->
    let s1 := applyGravity delta s in
    let groundCheck :=
      checkGround (collisionObjects s1) (Camera.position (camera s1)) in
    Ground.onGround groundCheck = true ->
    jumpVelocity s1 <= 0 ->
    let s2 := land groundCheck s1 in
    let s' := animate Math_sqrt orbitControls_update delta s in
    (Vector3.y (Camera.position (camera s2))
       = Ground.groundY groundCheck + playerHeight
     /\ jumpVelocity s2 = 0 /\ isJumping s2 = false /\ canJump s2 = true)
    /\ (jumpVelocity s' = 0 /\ isJumping s' = false /\ canJump s' = true).
Proof.
  intros Math_sqrt orbit delta s OM LK J s1 g G V s2 s'.
  assert (J1 : isJumping s1 = true).
  { unfold s1, applyGravity. rewrite J. fields. exact J. }
  assert (E2 : s2 = set_canJump
                      (set_position_y
                         (set_jumpVelocity (set_isJumping s1 false) 0)
                         (Ground.groundY g + playerHeight)) true).
  { unfold s2, land. rewrite J1, G.
    apply Qle_bool_iff in V. rewrite V. reflexivity. }
  assert (L2 : jumpVelocity s2 = 0 /\ isJumping s2 = false /\ canJump s2 = true).
  { rewrite E2. fields. repeat split. }
  split.
  { split; [rewrite E2; fields; reflexivity | exact L2]. }
  destruct L2 as (V2 & J2 & C2).
  assert (E3 : startFalling g s2 = s2).
  { unfold startFalling. rewrite G, J2. reflexivity. }
  assert (L4 : jumpVelocity (enforceMinimumHeight s2) = 0
               /\ isJumping (enforceMinimumHeight s2) = false
               /\ canJump (enforceMinimumHeight s2) = true).
  { unfold enforceMinimumHeight. destruct (_ <! playerHeight); fields;
      repeat split; assumption. }
  unfold s', animate. rewrite OM, LK.
  unfold firstPersonUpdate, beforeCollision. fold s1. fold g. fold s2.
  rewrite E3.
  match goal with
  | |- context [applyCollision ?c ?t] =>
      destruct (applyCollision_frame c t) as ((A1 & A2 & A3) & _)
  end.
  destruct (movePlayer_frame Math_sqrt delta (enforceMinimumHeight s2))
    as ((M1 & M2 & M3) & _).
  destruct L4 as (V4 & J4 & C4).
  rewrite A1, A2, A3, M1, M2, M3. repeat split; assumption.
Qed.

(** When the surface is not below the world floor, the camera has no roll
    and the tick finds no collision, the height set by the landing step is
    the height at the end of the tick. *)
Lemma landing_height_kept (Math_sqrt : Q -> Q) (delta : Q) (s : State) :
  isJumping s = true ->
  level s ->
  let s1 := applyGravity delta s in
  let groundCheck :=
    checkGround (collisionObjects s1) (Camera.position (camera s1)) in
  Ground.onGround groundCheck = true ->
  jumpVelocity s1 <= 0 ->
  0 <= Ground.groundY groundCheck ->
  let s5 := beforeCollision Math_sqrt delta s in
  Collision.colliding
    (checkCollisions Math_sqrt (collisionObjects s5)
       (Camera.position (camera s5)) playerRadius) = false ->
  Vector3.y (Camera.position (camera (firstPersonUpdate Math_sqrt delta s)))
  == Ground.groundY groundCheck + playerHeight.
Proof.
  intros J L s1 g G V P s5 C.
  unfold firstPersonUpdate. fold s5. unfold applyCollision. rewrite C.
  unfold s5, beforeCollision. fold s1. fold g.
  rewrite movePlayer_height by (apply (beforeCollision_level Math_sqrt), L).
  assert (J1 : isJumping s1 = true).
  { unfold s1, applyGravity. rewrite J. fields. exact J. }
  assert (E2 : land g s1
               = set_canJump
                   (set_position_y
                      (set_jumpVelocity (set_isJumping s1 false) 0)
                      (Ground.groundY g + playerHeight)) true).
  { unfold land. rewrite J1, G.
    apply Qle_bool_iff in V. rewrite V. reflexivity. }
  rewrite E2. unfold startFalling. fields. rewrite G. cbn [negb andb].
  unfold enforceMinimumHeight. fields.
  destruct (_ <! playerHeight) eqn:B; fields; [|reflexivity].
  apply Qltb_lt in B. lra.
Qed.

(** Falling back onto the world floor in an empty scene. *)
Lemma landing_witness :
  let s := jumpingAt (Vector3.new 0 1.6 10) (-1) [] in
  let s' := animate Qsqrt orbit_fixed (1 # 60) s in
  jumpVelocity s' = 0 /\ isJumping s' = false /\ canJump s' = true.
Proof.
  intros s s'.
  refine (proj2 (landing Qsqrt orbit_fixed (1 # 60) s _ _ _ _ _)).
  - reflexivity.
  - reflexivity.
  - reflexivity.
  - reflexivity.
  - vm_compute. discriminate.
Defined.

(** ** The response to a collision *)

Lemma scaled_nonzero (n d : Q) : 0 <= d -> (n * (d + 0.01) == 0 <-> n == 0).
Proof.
  intro H. split; intro E.
  - destruct (Qmult_integral _ _ E) as [Z|Z]; [exact Z | exfalso; lra].
  - rewrite E. ring.
Qed.

(** The response to a colliding result with a finite, non-negative
    distance. *)
Lemma applyCollision_response (collision : Collision.t) (s1 : State) (d : Q) :
  Collision.colliding collision = true ->
  Collision.distance collision = Finite d ->
  0 <= d ->
  let s' := applyCollision collision s1 in
  Camera.position (camera s')
  = Vector3.add (Camera.position (camera s1))
      (Vector3.multiplyScalar (Collision.normal collision) (d + 0.01))
  /\ (~ Vector3.x (Collision.normal collision) == 0 ->
      Vector3.x (velocity s') = 0)
  /\ (Vector3.x (Collision.normal collision) == 0 ->
      Vector3.x (velocity s') = Vector3.x (velocity s1))
  /\ (~ Vector3.z (Collision.normal collision) == 0 ->
      Vector3.z (velocity s') = 0)
  /\ (Vector3.z (Collision.normal collision) == 0 ->
      Vector3.z (velocity s') = Vector3.z (velocity s1))
  /\ Vector3.y (velocity s') = Vector3.y (velocity s1)
  /\ jumpVelocity s' = jumpVelocity s1.
Proof.
  intros C D N s'. subst s'.
  pose proof (scaled_nonzero (Vector3.x (Collision.normal collision)) d N) as SX.
  pose proof (scaled_nonzero (Vector3.z (Collision.normal collision)) d N) as SZ.
  unfold applyCollision. rewrite C, D.
  cbn [Vector3.multiplyScalar Vector3.x Vector3.z].
  destruct (nonzero (Vector3.x (Collision.normal collision) * (d + 0.01))) eqn:NX;
    destruct (nonzero (Vector3.z (Collision.normal collision) * (d + 0.01))) eqn:NZ;
    cbn [camera velocity jumpVelocity set_position set_camera set_velocity
         Camera.position Vector3.x Vector3.y Vector3.z];
    try (apply nonzero_true in NX); try (apply nonzero_false in NX);
    try (apply nonzero_true in NZ); try (apply nonzero_false in NZ);
    repeat apply conj; try reflexivity; intro H; tauto.
Qed.

(** C3, as the code has it.  When the resolver reports a collision in a
    first-person tick, the position handed to it is moved by
    [normal * (distance + 0.01)]; the x component of [velocity] is zeroed
    when the normal's x is not zero and kept otherwise, and likewise for z;
    the vertical velocity [jumpVelocity] (and the unused [velocity.y]) is
    left as it was, also when the normal's y is not zero. *)
Theorem collision_response :
  forall (Math_sqrt : Q -> Q)
         (orbitControls_update : OrbitControls.update)
         (delta : Q) (s : State),
    overviewMode s = false ->
    controls_isLocked s = true ->
    let s1 := beforeCollision Math_sqrt delta s in
    let collision :=
      checkCollisions Math_sqrt (collisionObjects s1)
        (Camera.position (camera s1)) playerRadius in
    let s' := animate Math_sqrt orbitControls_update delta s in
    Collision.colliding collision = true ->
    exists distance,
      Collision.distance collision = Finite distance
      /\ Camera.position (camera s')
         = Vector3.add (Camera.position (camera s1))
             (Vector3.multiplyScalar (Collision.normal collision)
                (distance + 0.01))
      /\ (~ Vector3.x (Collision.normal collision) == 0 ->
          Vector3.x (velocity s') = 0)
      /\ (Vector3.x (Collision.normal collision) == 0 ->
          Vector3.x (velocity s') = Vector3.x (velocity s1))
      /\ (~ Vector3.z (Collision.normal collision) == 0 ->
          Vector3.z (velocity s') = 0)
      /\ (Vector3.z (Collision.normal collision) == 0 ->
          Vector3.z (velocity s') = Vector3.z (velocity s1))
      /\ Vector3.y (velocity s') = Vector3.y (velocity s1)
      /\ jumpVelocity s' = jumpVelocity s1.
Proof.
  intros Math_sqrt orbit delta s OM LK s1 collision s' C.
  destruct (checkCollisions_colliding_finite _ _ _ _ C) as (d & D & N).
  exists d. split; [exact D|].
  unfold s'. rewrite (animate_firstPerson _ _ _ _ OM LK).
  exact (applyCollision_response collision s1 d C D N).
Qed.

(** Walking into the middle of the back wall: the normal is along x. *)
Lemma collision_response_witness :
  let s := standingAt (Vector3.new 1 1.6 (-14.6)) [backWall] in
  let s1 := beforeCollision Qsqrt (1 # 60) s in
  let collision :=
    checkCollisions Qsqrt (collisionObjects s1) (Camera.position (camera s1))
      playerRadius in
  let s' := animate Qsqrt orbit_fixed (1 # 60) s in
  exists distance,
    Collision.distance collision = Finite distance
    /\ Camera.position (camera s')
       = Vector3.add (Camera.position (camera s1))
           (Vector3.multiplyScalar (Collision.normal collision)
              (distance + 0.01))
    /\ (~ Vector3.x (Collision.normal collision) == 0 ->
        Vector3.x (velocity s') = 0)
    /\ (Vector3.x (Collision.normal collision) == 0 ->
        Vector3.x (velocity s') = Vector3.x (velocity s1))
    /\ (~ Vector3.z (Collision.normal collision) == 0 ->
        Vector3.z (velocity s') = 0)
    /\ (Vector3.z (Collision.normal collision) == 0 ->
        Vector3.z (velocity s') = Vector3.z (velocity s1))
    /\ Vector3.y (velocity s') = Vector3.y (velocity s1)
    /\ jumpVelocity s' = jumpVelocity s1.
Proof.
  intros s s1 collision s'.
  apply (collision_response Qsqrt orbit_fixed (1 # 60) s).
  - reflexivity.
  - reflexivity.
  - vm_compute. reflexivity.
Defined.

(** C3 as stated fails: rising beside the back of a bench, the resolver
    reports a collision whose normal is along y, and the vertical velocity
    after the tick is 2.5, not 0. *)
Lemma vertical_velocity_not_zeroed :
  let s := jumpingAt (Vector3.new 10 2 (-9.75)) 3 [benchBack] in
  let s1 := beforeCollision Qsqrt (1 # 60) s in
  let collision :=
    checkCollisions Qsqrt (collisionObjects s1) (Camera.position (camera s1))
      playerRadius in
  let s' := animate Qsqrt orbit_fixed (1 # 60) s in
  Collision.colliding collision = true
  /\ Vector3.y (Collision.normal collision) == 1
  /\ jumpVelocity s' == 2.5
  /\ ~ jumpVelocity s' == 0.
Proof.
  cbv zeta. repeat apply conj; run.
Qed.

(** ** The floor *)

(** With a camera without roll, a tick whose collision does not push
    downwards ends at the player height or above. *)
Lemma firstPersonUpdate_floor (Math_sqrt : Q -> Q) (delta : Q) (s : State) :
  level s ->
  let s1 := beforeCollision Math_sqrt delta s in
  0 <= Vector3.y
         (Collision.normal
            (checkCollisions Math_sqrt (collisionObjects s1)
               (Camera.position (camera s1)) playerRadius)) ->
  playerHeight
  <= Vector3.y (Camera.position (camera (firstPersonUpdate Math_sqrt delta s))).
Proof.
  intros L s1 N. pose proof (beforeCollision_floor Math_sqrt delta s L) as F.
  fold s1 in F. unfold firstPersonUpdate. fold s1.
  set (c := checkCollisions _ _ _ _) in *.
  unfold applyCollision.
  destruct (Collision.colliding c) eqn:C; [|exact F].
  destruct (checkCollisions_colliding_finite _ _ _ _ C) as (d & D & P).
  fold c in D. rewrite D.
  assert (G : playerHeight
              <= Vector3.y
                   (Vector3.add (Camera.position (camera s1))
                      (Vector3.multiplyScalar (Collision.normal c) (d + 0.01)))).
  { cbn [Vector3.add Vector3.multiplyScalar Vector3.y].
    assert (0 <= Vector3.y (Collision.normal c) * (d + 0.01))
      by (apply Qmult_le_0_compat; lra).
    lra. }
  destruct (nonzero _); destruct (nonzero _); fields; exact G.
Qed.

(** C1 fails on the code.  Standing at the player height beside the back
    of a bench of the chamber, no key pressed: the expanded box of the
    bench back contains the camera, the axis of smallest ratio is y, the
    centre of the box is above the camera, and the collision correction,
    applied after the minimum height was enforced, moves the camera down
    to [y = 1.04], below [playerHeight = 1.6]. *)
Theorem floor_broken_by_collision_correction :
  let s := standingAt (Vector3.new 10 1.6 (-9.75)) [benchBack] in
  let s' := animate Qsqrt orbit_fixed (1 # 60) s in
  overviewMode s = false
  /\ controls_isLocked s = true
  /\ level s
  /\ Vector3.y (Camera.position (camera s)) == playerHeight
  /\ Vector3.y (Camera.position (camera s')) == 1.04
  /\ Vector3.y (Camera.position (camera s')) < playerHeight.
Proof.
  cbv zeta. repeat apply conj; run.
Qed.

(** ** The reported penetration distance *)

(** C2 fails on the code.  In the wall scenario of the specification (box
    centred at [(5, 0.5, 0)], half-extents 1, radius 0.3), a position 0.01
    inside the corner of the expanded box: the ratios are the offsets over
    the full size of the box, not over its half-extents, and the reported
    distance is 0.655, half the half-extent and more, where
    [halfExtent * (1 - |ratio|)] with the ratio over the half-extent is
    0.01. *)
Theorem penetration_distance_not_small_at_boundary :
  let position := Vector3.new 3.71 1.79 1.29 in
  let box :=
    expandedBox (Box3.new (Vector3.new (-1) (-1) (-1)) (Vector3.new 1 1 1))
      (Vector3.new 5 0.5 0) playerRadius in
  let collision := checkCollisions Qsqrt [scenarioBox] position playerRadius in
  Box3.containsPoint box position = true
  /\ Vector3.x position - Vector3.x (Box3.min box) == 0.01
  /\ Collision.colliding collision = true
  /\ Collision.normal collision = Vector3.new (-1) 0 0
  /\ match Collision.distance collision with
     | Finite d => d == 0.655
     | Infinity => False
     end
  /\ ratio AxisX box position == - (129 # 260)
  /\ ratioByHalfExtent AxisX box position == - (129 # 130)
  /\ halfExtent AxisX box * (1 - Qabs (ratioByHalfExtent AxisX box position))
     == 0.01.
Proof.
  cbv zeta. repeat apply conj; run.
Qed.

(** ** View modes *)





(** ** Two runs of a tick *)

(** C10 as stated fails: two first-person states with the same position,
    velocities, flags and solids, the camera turned a quarter turn in the
    second one, end the same tick at different places. *)
Lemma tick_depends_on_heading :
  let a := slidingAt (Vector3.new 0 1.6 10) (Vector3.new 1 0 0)
             Matrix.identity [] in
  let b := slidingAt (Vector3.new 0 1.6 10) (Vector3.new 1 0 0)
             quarterTurn [] in
  sameInputs a b
  /\ overviewMode a = false /\ overviewMode b = false
  /\ controls_isLocked a = true /\ controls_isLocked b = true
  /\ ~ sameOutputs (animate Qsqrt orbit_fixed (1 # 60) a)
         (animate Qsqrt orbit_fixed (1 # 60) b).
Proof.
  cbv zeta. repeat apply conj; try reflexivity.
  intros (P & _). apply (f_equal Vector3.x) in P.
  vm_compute in P. discriminate P.
Qed.

Ltac same_phase :=
  intros (Hp & Hv & Hjv & Hj & Hc & Hf & Hb & Hl & Hr & Ho) Hm;
  unfold sameInputs, sameHeading in *;
  unfold applyGravity, land, startFalling, enforceMinimumHeight,
    movePlayer, applyCollision;
  rewrite ?Hp, ?Hv, ?Hjv, ?Hj, ?Hc, ?Hf, ?Hb, ?Hl, ?Hr, ?Ho, ?Hm;
  repeat match goal with
         | |- context [if ?c then _ else _] => destruct c eqn:?
         | |- context [match ?c with Finite _ => _ | Infinity => _ end] =>
             destruct c eqn:?
         end;
  fields; repeat apply conj; congruence.

Lemma applyGravity_same (delta : Q) (s1 s2 : State) :
  sameInputs s1 s2 -> sameHeading s1 s2 ->
  sameInputs (applyGravity delta s1) (applyGravity delta s2)
  /\ sameHeading (applyGravity delta s1) (applyGravity delta s2).
Proof. same_phase. Qed.

Lemma land_same (g : Ground.t) (s1 s2 : State) :
  sameInputs s1 s2 -> sameHeading s1 s2 ->
  sameInputs (land g s1) (land g s2) /\ sameHeading (land g s1) (land g s2).
Proof. same_phase. Qed.

Lemma startFalling_same (g : Ground.t) (s1 s2 : State) :
  sameInputs s1 s2 -> sameHeading s1 s2 ->
  sameInputs (startFalling g s1) (startFalling g s2)
  /\ sameHeading (startFalling g s1) (startFalling g s2).
Proof. same_phase. Qed.

Lemma enforceMinimumHeight_same (s1 s2 : State) :
  sameInputs s1 s2 -> sameHeading s1 s2 ->
  sameInputs (enforceMinimumHeight s1) (enforceMinimumHeight s2)
  /\ sameHeading (enforceMinimumHeight s1) (enforceMinimumHeight s2).
Proof. same_phase. Qed.

Lemma movePlayer_same (Math_sqrt : Q -> Q) (delta : Q) (s1 s2 : State) :
  sameInputs s1 s2 -> sameHeading s1 s2 ->
  sameInputs (movePlayer Math_sqrt delta s1) (movePlayer Math_sqrt delta s2)
  /\ sameHeading (movePlayer Math_sqrt delta s1) (movePlayer Math_sqrt delta s2).
Proof.
  intros (Hp & Hv & Hjv & Hj & Hc & Hf & Hb & Hl & Hr & Ho) Hm.
  unfold sameInputs, sameHeading in *. unfold movePlayer.
  cbn [camera velocity moveForward moveBackward moveLeft moveRight canJump
       isJumping jumpVelocity collisionObjects set_camera set_velocity
       controls_moveRight controls_moveForward Camera.position Camera.matrix].
  rewrite Hp, Hv, Hf, Hb, Hl, Hr, Hm.
  repeat apply conj; (reflexivity || assumption).
Qed.

Lemma applyCollision_same (c : Collision.t) (s1 s2 : State) :
  sameInputs s1 s2 -> sameHeading s1 s2 ->
  sameInputs (applyCollision c s1) (applyCollision c s2)
  /\ sameHeading (applyCollision c s1) (applyCollision c s2).
Proof. same_phase. Qed.

(** C10, as the code has it.  Two first-person ticks with the controls
    locked, started from states with the same position, velocities, jump
    flags, input flags and solids, the same [delta], and the same first
    column of the camera matrix, end with the same position, velocities and
    jump flags, whatever else differs between the two states. *)
Theorem tick_deterministic_given_heading :
  forall (Math_sqrt : Q -> Q)
         (orbitControls_update : OrbitControls.update)
         (delta : Q) (s1 s2 : State),
    overviewMode s1 = false -> overviewMode s2 = false ->
    controls_isLocked s1 = true -> controls_isLocked s2 = true ->
    sameInputs s1 s2 ->
    sameHeading s1 s2 ->
    sameOutputs (animate Math_sqrt orbitControls_update delta s1)
                (animate Math_sqrt orbitControls_update delta s2).
Proof.
  intros Math_sqrt orbit delta s1 s2 O1 O2 L1 L2 I H.
  rewrite !animate_firstPerson by assumption.
  unfold firstPersonUpdate, beforeCollision.
  destruct (applyGravity_same delta s1 s2 I H) as (I1 & H1).
  set (a1 := applyGravity delta s1) in *.
  set (a2 := applyGravity delta s2) in *.
  assert (G : checkGround (collisionObjects a1) (Camera.position (camera a1))
              = checkGround (collisionObjects a2) (Camera.position (camera a2))).
  { destruct I1 as (P & _ & _ & _ & _ & _ & _ & _ & _ & O).
    rewrite P, O. reflexivity. }
  rewrite G. set (g := checkGround (collisionObjects a2) _).
  destruct (land_same g a1 a2 I1 H1) as (I2 & H2).
  destruct (startFalling_same g _ _ I2 H2) as (I3 & H3).
  destruct (enforceMinimumHeight_same _ _ I3 H3) as (I4 & H4).
  destruct (movePlayer_same Math_sqrt delta _ _ I4 H4) as (I5 & H5).
  set (m1 := movePlayer Math_sqrt delta
               (enforceMinimumHeight (startFalling g (land g a1)))) in *.
  set (m2 := movePlayer Math_sqrt delta
               (enforceMinimumHeight (startFalling g (land g a2)))) in *.
  assert (C : checkCollisions Math_sqrt (collisionObjects m1)
                (Camera.position (camera m1)) playerRadius
              = checkCollisions Math_sqrt (collisionObjects m2)
                  (Camera.position (camera m2)) playerRadius).
  { destruct I5 as (P & _ & _ & _ & _ & _ & _ & _ & _ & O).
    rewrite P, O. reflexivity. }
  rewrite C.
  destruct (applyCollision_same
              (checkCollisions Math_sqrt (collisionObjects m2)
                 (Camera.position (camera m2)) playerRadius) m1 m2 I5 H5)
    as ((P & V & JV & J & CJ & _) & _).
  unfold sameOutputs. repeat split; assumption.
Qed.

(** Two states that differ in the orbit target and in the second and third
    columns of the camera matrix. *)
Lemma tick_deterministic_given_heading_witness :
  sameOutputs
    (animate Qsqrt orbit_fixed (1 # 60)
       (slidingAt (Vector3.new 0 1.6 10) (Vector3.new 1 0 0) Matrix.identity
          [benchBack]))
    (animate Qsqrt orbit_fixed (1 # 60)
       (set_orbitControls_target
          (slidingAt (Vector3.new 0 1.6 10) (Vector3.new 1 0 0)
             (Matrix.new (Vector3.new 1 0 0) (Vector3.new 0 0 1)
                (Vector3.new 0 (-1) 0))
             [benchBack])
          (Vector3.new 1 2 3))).
Proof.
  apply tick_deterministic_given_heading.
  - reflexivity.
  - reflexivity.
  - reflexivity.
  - reflexivity.
  - unfold sameInputs. repeat apply conj; reflexivity.
  - reflexivity.
Defined.

(** * Further properties of the movement core *)

(** ** What every reachable state satisfies *)

Section Reachable.
Variable Math_sqrt : Q -> Q.
Variable lookAt : Vector3.t -> Vector3.t -> Matrix.t.
Variable orbitControls_update : OrbitControls.update.

Lemma run_invariant (P : State -> Prop) :
  P initialState ->
  (forall s e, P s -> P (handle Math_sqrt lookAt orbitControls_update s e)) ->
  forall events, P (run Math_sqrt lookAt orbitControls_update events).
Proof.
  intros H0 Hstep events. unfold run.
  generalize dependent initialState.
  induction events as [|e events IH]; intros s Hs; [exact Hs|].
  cbn [fold_left]. apply IH, Hstep, Hs.
Qed.

End Reachable.

Ltac keys code :=
  unfold keydown, keyup;
  repeat match goal with
         | |- context [(code =? ?k)%string] => destruct (code =? k)%string
         end;
  cbn [orb].

Lemma applyCollision_velocity_y (collision : Collision.t) (s : State) :
  Vector3.y (velocity (applyCollision collision s)) = Vector3.y (velocity s).
Proof.
  unfold applyCollision.
  destruct (Collision.colliding collision); [|reflexivity].
  destruct (Collision.distance collision); [|reflexivity].
  destruct (nonzero _); destruct (nonzero _); fields; reflexivity.
Qed.

Lemma applyGravity_jumpConsistent (delta : Q) (s : State) :
  jumpConsistent s -> jumpConsistent (applyGravity delta s).
Proof.
  unfold jumpConsistent, applyGravity. intros (C & V & Y).
  destruct (isJumping s) eqn:J; fields; repeat split; try assumption;
    rewrite J; first [assumption | intro; congruence].
Qed.

Lemma land_jumpConsistent (g : Ground.t) (s : State) :
  jumpConsistent s -> jumpConsistent (land g s).
Proof.
  unfold jumpConsistent, land. intros (C & V & Y).
  destruct (_ && _); fields; repeat split; try assumption;
    first [reflexivity | intro; reflexivity].
Qed.

Lemma startFalling_jumpConsistent (g : Ground.t) (s : State) :
  jumpConsistent s -> jumpConsistent (startFalling g s).
Proof.
  unfold jumpConsistent, startFalling. intros (C & V & Y).
  destruct (_ && _); fields; repeat split; try assumption;
    first [reflexivity | intro; congruence].
Qed.

Lemma enforceMinimumHeight_jumpConsistent (s : State) :
  jumpConsistent s -> jumpConsistent (enforceMinimumHeight s).
Proof.
  unfold jumpConsistent, enforceMinimumHeight. intros (C & V & Y).
  destruct (_ <! _); fields; repeat split; try assumption;
    first [reflexivity | intro; reflexivity].
Qed.

Lemma movePlayer_jumpConsistent (Math_sqrt : Q -> Q) (delta : Q) (s : State) :
  jumpConsistent s -> jumpConsistent (movePlayer Math_sqrt delta s).
Proof.
  unfold jumpConsistent. intros (C & V & Y).
  destruct (movePlayer_frame Math_sqrt delta s) as ((M1 & M2 & M3) & _).
  rewrite M1, M2, M3. repeat split; try assumption.
  unfold movePlayer. fields.
  destruct (moveForward s || moveBackward s);
    destruct (moveLeft s || moveRight s); fields; exact Y.
Qed.

Lemma applyCollision_jumpConsistent (c : Collision.t) (s : State) :
  jumpConsistent s -> jumpConsistent (applyCollision c s).
Proof.
  unfold jumpConsistent. intros (C & V & Y).
  destruct (applyCollision_frame c s) as ((A1 & A2 & A3) & _).
  rewrite A1, A2, A3, applyCollision_velocity_y. repeat split; assumption.
Qed.

(** Every handler keeps the jump variables consistent. *)
Lemma handle_jumpConsistent
  (Math_sqrt : Q -> Q) (lookAt : Vector3.t -> Vector3.t -> Matrix.t)
  (orbitControls_update : OrbitControls.update)
  (s : State) (e : Event) :
  jumpConsistent s ->
  jumpConsistent (handle Math_sqrt lookAt orbitControls_update s e).
Proof.
  intro H. destruct e as [code|code| | |v| | |p|objs|delta]; cbn [handle].
  - destruct H as (C & V & Y). unfold jumpConsistent.
    keys code; fields; try (repeat split; assumption);
      destruct (canJump s) eqn:CJ; fields; repeat split;
      try assumption; try discriminate; congruence.
  - destruct H as (C & V & Y). unfold jumpConsistent.
    keys code; fields; repeat split; assumption.
  - unfold document_click. destruct (_ && _); [|exact H].
    destruct H as (C & V & Y). unfold jumpConsistent. fields.
    repeat split; assumption.
  - destruct H as (C & V & Y). unfold jumpConsistent, viewModeButton_click.
    fields. destruct (negb (overviewMode s)); fields; repeat split; assumption.
  - destruct H as (C & V & Y). unfold jumpConsistent, viewpoint_click.
    fields. repeat split; assumption.
  - destruct H as (C & V & Y). unfold jumpConsistent. fields.
    repeat split; assumption.
  - destruct H as (C & V & Y). unfold jumpConsistent. fields.
    repeat split; assumption.
  - destruct (orbitControls_enabled s); [|exact H].
    destruct H as (C & V & Y). unfold jumpConsistent. fields.
    repeat split; assumption.
  - destruct H as (C & V & Y). unfold jumpConsistent, houseLoaded. fields.
    repeat split; assumption.
  - unfold animate_completion, animate. destruct (overviewMode s).
    { destruct H as (C & V & Y). unfold jumpConsistent. cbn [stateOf]. fields.
      repeat split; assumption. }
    destruct (controls_isLocked s); [|exact H].
    destruct (intersectObjects_throws _); cbn [stateOf].
    { apply applyGravity_jumpConsistent, H. }
    unfold firstPersonUpdate, beforeCollision.
    apply applyCollision_jumpConsistent, movePlayer_jumpConsistent,
      enforceMinimumHeight_jumpConsistent, startFalling_jumpConsistent,
      land_jumpConsistent, applyGravity_jumpConsistent, H.
Qed.

(** X1.  In every state the script can reach, whatever the keys, clicks,
    loads and frames that led to it: [canJump] is the negation of
    [isJumping], the vertical velocity is 0 when not jumping, the vertical
    component of [velocity] is 0, and while jumping the Space key changes
    nothing (no second jump in the air). *)
Theorem reachable_jump_state :
  forall (Math_sqrt : Q -> Q) (lookAt : Vector3.t -> Vector3.t -> Matrix.t)
         (orbitControls_update : OrbitControls.update)
         (events : list Event),
    let s := run Math_sqrt lookAt orbitControls_update events in
    canJump s = negb (isJumping s)
    /\ (isJumping s = false -> jumpVelocity s = 0)
    /\ Vector3.y (velocity s) = 0
    /\ (isJumping s = true -> keydown Math_sqrt "Space" s = s).
Proof.
  intros Math_sqrt lookAt orbit events s.
  assert (H : jumpConsistent s).
  { apply run_invariant.
    - unfold jumpConsistent. cbn. repeat split.
    - intros t e. apply handle_jumpConsistent. }
  destruct H as (C & V & Y). repeat split; try assumption.
  intro J. rewrite J in C. cbn [negb] in C.
  change (keydown Math_sqrt "Space" s)
    with (if canJump s
          then set_canJump
                 (set_isJumping
                    (set_jumpVelocity s (Math_sqrt (2 * gravity * jumpHeight)))
                    true) false
          else s).
  rewrite C. reflexivity.
Qed.

(** Pressing Space in the air, after a jump from the floor. *)
Lemma reachable_jump_state_witness :
  let s := run Qsqrt lookAt_fixed orbit_fixed
             [DocumentClick; Keydown "Space"; Frame (1 # 60)] in
  keydown Qsqrt "Space" s = s.
Proof.
  intro s.
  apply (reachable_jump_state Qsqrt lookAt_fixed orbit_fixed
           [DocumentClick; Keydown "Space"; Frame (1 # 60)]).
  vm_compute. reflexivity.
Defined.

(** ** The mode variables *)

Ltac mode_frame :=
  repeat match goal with
         | |- context [if ?c then _ else _] => destruct c
         | |- context [match ?c with Finite _ => _ | Infinity => _ end] =>
             destruct c
         end;
  fields; repeat split; reflexivity.

Lemma firstPersonUpdate_mode (Math_sqrt : Q -> Q) (delta : Q) (s : State) :
  let s' := firstPersonUpdate Math_sqrt delta s in
  overviewMode s' = overviewMode s
  /\ controls_isLocked s' = controls_isLocked s
  /\ orbitControls_enabled s' = orbitControls_enabled s
  /\ orbitControls_target s' = orbitControls_target s.
Proof.
  intro s'. subst s'. unfold firstPersonUpdate, beforeCollision.
  set (s1 := applyGravity delta s).
  set (g := checkGround _ _).
  assert (E1 : overviewMode s1 = overviewMode s
               /\ controls_isLocked s1 = controls_isLocked s
               /\ orbitControls_enabled s1 = orbitControls_enabled s
               /\ orbitControls_target s1 = orbitControls_target s).
  { unfold s1, applyGravity. mode_frame. }
  generalize dependent s1. intros s1 g (A1 & B1 & C1 & D1).
  rewrite <- A1, <- B1, <- C1, <- D1. clear.
  set (s2 := land g s1).
  assert (E2 : overviewMode s2 = overviewMode s1
               /\ controls_isLocked s2 = controls_isLocked s1
               /\ orbitControls_enabled s2 = orbitControls_enabled s1
               /\ orbitControls_target s2 = orbitControls_target s1).
  { unfold s2, land. mode_frame. }
  destruct E2 as (A2 & B2 & C2 & D2).
  rewrite <- A2, <- B2, <- C2, <- D2. clearbody s2. clear.
  set (s3 := startFalling g s2).
  assert (E3 : overviewMode s3 = overviewMode s2
               /\ controls_isLocked s3 = controls_isLocked s2
               /\ orbitControls_enabled s3 = orbitControls_enabled s2
               /\ orbitControls_target s3 = orbitControls_target s2).
  { unfold s3, startFalling. mode_frame. }
  destruct E3 as (A3 & B3 & C3 & D3).
  rewrite <- A3, <- B3, <- C3, <- D3. clearbody s3. clear.
  set (s4 := enforceMinimumHeight s3).
  assert (E4 : overviewMode s4 = overviewMode s3
               /\ controls_isLocked s4 = controls_isLocked s3
               /\ orbitControls_enabled s4 = orbitControls_enabled s3
               /\ orbitControls_target s4 = orbitControls_target s3).
  { unfold s4, enforceMinimumHeight. mode_frame. }
  destruct E4 as (A4 & B4 & C4 & D4).
  rewrite <- A4, <- B4, <- C4, <- D4. clearbody s4. clear.
  set (s5 := movePlayer Math_sqrt delta s4).
  assert (E5 : overviewMode s5 = overviewMode s4
               /\ controls_isLocked s5 = controls_isLocked s4
               /\ orbitControls_enabled s5 = orbitControls_enabled s4
               /\ orbitControls_target s5 = orbitControls_target s4).
  { unfold s5, movePlayer. fields. repeat split; reflexivity. }
  destruct E5 as (A5 & B5 & C5 & D5).
  rewrite <- A5, <- B5, <- C5, <- D5. clearbody s5. clear.
  unfold applyCollision. mode_frame.
Qed.

Lemma handle_modeConsistent
  (Math_sqrt : Q -> Q) (lookAt : Vector3.t -> Vector3.t -> Matrix.t)
  (orbitControls_update : OrbitControls.update)
  (s : State) (e : Event) :
  modeConsistent s ->
  modeConsistent (handle Math_sqrt lookAt orbitControls_update s e).
Proof.
  unfold modeConsistent. intro E.
  destruct e as [code|code| | |v| | |p|objs|delta]; cbn [handle].
  - keys code; fields; try assumption;
      destruct (canJump s); fields; assumption.
  - keys code; fields; assumption.
  - unfold document_click. destruct (_ && _); fields; assumption.
  - unfold viewModeButton_click. fields.
    destruct (overviewMode s); cbn [negb]; fields; reflexivity.
  - unfold viewpoint_click. fields. reflexivity.
  - fields. assumption.
  - fields. assumption.
  - destruct (orbitControls_enabled s) eqn:OE; fields; rewrite ?OE;
      assumption.
  - unfold houseLoaded. fields. assumption.
  - unfold animate_completion, animate. destruct (overviewMode s) eqn:OM.
    { cbn [stateOf]. fields. rewrite OM. assumption. }
    destruct (controls_isLocked s); [|cbn [stateOf]; rewrite OM; assumption].
    destruct (intersectObjects_throws _); cbn [stateOf].
    { unfold applyGravity. destruct (isJumping s); fields; rewrite ?OM;
        assumption. }
    destruct (firstPersonUpdate_mode Math_sqrt delta s) as (A & _ & C & _).
    rewrite A, C, OM. assumption.
Qed.

(** X2.  In every state the script can reach, whatever the keys, clicks,
    loads and frames that led to it and whenever the browser granted or
    released the pointer lock, the orbit controller is enabled exactly in
    the overview: [orbitControls.enabled] and [overviewMode] are equal. *)
Theorem reachable_mode_state :
  forall (Math_sqrt : Q -> Q) (lookAt : Vector3.t -> Vector3.t -> Matrix.t)
         (orbitControls_update : OrbitControls.update)
         (events : list Event),
    let s := run Math_sqrt lookAt orbitControls_update events in
    orbitControls_enabled s = overviewMode s.
Proof.
  intros Math_sqrt lookAt orbit events s.
  apply (run_invariant Math_sqrt lookAt orbit modeConsistent).
  - reflexivity.
  - intros t e. apply handle_modeConsistent.
Qed.

(** ** The movement keys *)

(** X3.  Key auto-repeat is harmless: a second [keydown] of the same key
    changes nothing, Space included; and releasing a movement key gives the
    same state whether or not it was pressed: [keyup] clears the flag of the
    key, nothing is left behind by the press. *)
Theorem key_repeat_and_release :
  forall (Math_sqrt : Q -> Q) (code : string) (s : State),
    keydown Math_sqrt code (keydown Math_sqrt code s) = keydown Math_sqrt code s
    /\ ((code =? "Space")%string = false ->
        keyup code (keydown Math_sqrt code s) = keyup code s).
Proof.
  intros Math_sqrt code s. split.
  - keys code; try reflexivity.
    destruct (canJump s) eqn:CJ; fields; [reflexivity | rewrite CJ; reflexivity].
  - intro NS. keys code; try reflexivity. discriminate NS.
Qed.

Lemma key_repeat_and_release_witness :
  keyup "KeyW" (keydown Qsqrt "KeyW" initialState) = keyup "KeyW" initialState.
Proof.
  apply (key_repeat_and_release Qsqrt "KeyW" initialState). reflexivity.
Defined.


(** ** The collision resolver: which solid wins *)

Section Winner.
Variable Math_sqrt : Q -> Q.
Variable position : Vector3.t.
Variable radius : Q.

Lemma numLe_refl (a : Num) : numLe a a.
Proof. destruct a; cbn; [apply Qle_refl | exact I]. Qed.

Lemma numLe_trans (a b c : Num) : numLe a b -> numLe b c -> numLe a c.
Proof.
  destruct a, b, c; cbn; try tauto. apply Qle_trans.
Qed.

(** An iteration never increases the distance of the result. *)
Lemma checkObject_decreases (result : Collision.t) (object : Object3D.t) :
  numLe (Collision.distance
           (checkObject Math_sqrt position radius result object))
        (Collision.distance result).
Proof.
  destruct (checkObject_cases Math_sqrt position radius result object)
    as [->|(w & g & _ & _ & _ & _ & L & ->)]; [apply numLe_refl|].
  cbn [Collision.distance]. unfold lessThan in L.
  destruct (Collision.distance result); cbn; [|exact I].
  apply Qltb_lt in L. apply Qlt_le_weak, L.
Qed.

Lemma fold_decreases (objects : list Object3D.t) (result : Collision.t) :
  numLe (Collision.distance
           (fold_left (checkObject Math_sqrt position radius) objects result))
        (Collision.distance result).
Proof.
  revert result. induction objects as [|o objects IH]; intro r.
  - apply numLe_refl.
  - cbn [fold_left]. eapply numLe_trans; [apply IH|].
    apply checkObject_decreases.
Qed.

(** After the iteration on a candidate the distance of the result is at
    most the distance of that candidate. *)
Lemma checkObject_candidate (result : Collision.t) (object : Object3D.t)
  (n : Vector3.t) (d : Q) :
  candidate Math_sqrt position radius object n d ->
  numLe (Collision.distance
           (checkObject Math_sqrt position radius result object))
        (Finite d).
Proof.
  intros (w & g & F & W & G & C & P). unfold checkObject.
  rewrite F, W, G, C, P. unfold lessThan.
  destruct (Collision.distance result) as [q|] eqn:D.
  - destruct (d <! q) eqn:L; cbn [Collision.distance numLe].
    + apply Qle_refl.
    + rewrite D. apply Qltb_ge in L. exact L.
  - cbn. apply Qle_refl.
Qed.

Lemma fold_candidate (objects : list Object3D.t) (result : Collision.t)
  (object : Object3D.t) (n : Vector3.t) (d : Q) :
  In object objects ->
  candidate Math_sqrt position radius object n d ->
  numLe (Collision.distance
           (fold_left (checkObject Math_sqrt position radius) objects result))
        (Finite d).
Proof.
  revert result. induction objects as [|o objects IH]; intros r Hin Hc.
  - contradiction.
  - cbn [fold_left]. destruct Hin as [->|Hin].
    + eapply numLe_trans; [apply fold_decreases|].
      apply (checkObject_candidate _ _ n), Hc.
    + apply IH; assumption.
Qed.

(** A colliding result of the loop is the collision with one of the
    candidates of the list. *)
Lemma fold_winner (objects : list Object3D.t) :
  let result :=
    fold_left (checkObject Math_sqrt position radius) objects noCollision in
  Collision.colliding result = true ->
  exists o d,
    In o objects
    /\ Collision.object result = Some o
    /\ Collision.distance result = Finite d
    /\ candidate Math_sqrt position radius o (Collision.normal result) d.
Proof.
  apply (loop_invariant Math_sqrt position radius
           (fun r => Collision.colliding r = true ->
                     exists o d,
                       In o objects
                       /\ Collision.object r = Some o
                       /\ Collision.distance r = Finite d
                       /\ candidate Math_sqrt position radius o
                            (Collision.normal r) d)).
  - discriminate.
  - intros r o Hin IH.
    destruct (checkObject_cases Math_sqrt position radius r o)
      as [->|(w & g & F & W & G & C & _ & ->)]; [exact IH|].
    intros _. cbn [Collision.object Collision.distance Collision.normal].
    exists o. eexists. repeat split; try eassumption.
    exists w, g. repeat split; try assumption.
    destruct (penetration _ _); reflexivity.
Qed.

End Winner.

(** The floor plane apart, what [checkCollisions] returns. *)
Lemma checkCollisions_above_floor
  (Math_sqrt : Q -> Q) (objects : list Object3D.t) (position : Vector3.t)
  (radius : Q) :
  0.1 < Vector3.y position - playerHeight / 2 ->
  checkCollisions Math_sqrt objects position radius =
  fold_left (checkObject Math_sqrt position radius) objects noCollision.
Proof.
  intro H. rewrite checkCollisions_unfold.
  apply Qleb_gt in H. rewrite H. reflexivity.
Qed.

(** A box with [min <= max], expanded by a positive radius, has a positive
    size on every axis. *)
Lemma expandedBox_extent (g : Box3.t) (w : Vector3.t) (radius : Q) (a : Axis) :
  0 < radius -> Box3.isEmpty g = false ->
  0 < extent a (expandedBox g w radius).
Proof.
  intros R E. unfold Box3.isEmpty in E.
  rewrite !orb_false_iff, !Qltb_ge in E. destruct E as ((X & Y) & Z).
  unfold extent, expandedBox, Box3.expandByScalar.
  destruct a;
    cbn [component Box3.min Box3.max Vector3.addScalar Vector3.add
         Vector3.x Vector3.y Vector3.z]; lra.
Qed.

(** X4.  For a positive radius and geometries whose bounding boxes have
    [min <= max], so that every box tested has a positive size on every
    axis, and above the floor plane, the resolver answers with the nearest
    of the solids it tests: when some solid of the list is in range and
    contains the position in its expanded box, the result is colliding and
    its distance is at most the distance computed for that solid; and a
    colliding result names a solid of the list, with the normal and the
    distance computed for that very solid. *)
Theorem closest_solid_wins :
  forall (Math_sqrt : Q -> Q) (collisionObjects : list Object3D.t)
         (position : Vector3.t) (radius : Q),
    0 < radius ->
    solidBoxes collisionObjects ->
    0.1 < Vector3.y position - playerHeight / 2 ->
    let result := checkCollisions Math_sqrt collisionObjects position radius in
    (forall object w g a,
        In object collisionObjects -> Object3D.geometry object = Some g ->
        0 < extent a (expandedBox g w radius))
    /\ (forall object normal distance,
        In object collisionObjects ->
        candidate Math_sqrt position radius object normal distance ->
        Collision.colliding result = true
        /\ exists d, Collision.distance result = Finite d /\ d <= distance)
    /\ (Collision.colliding result = true ->
        exists object d,
          In object collisionObjects
          /\ Collision.object result = Some object
          /\ Collision.distance result = Finite d
          /\ candidate Math_sqrt position radius object
               (Collision.normal result) d).
Proof.
  intros Math_sqrt objs p r R B H result. split; [|split].
  - intros o w g a Hin G. apply expandedBox_extent; [exact R|].
    apply (B o g Hin G).
  - intros o n d Hin Hc.
    pose proof (fold_candidate Math_sqrt p r objs noCollision o n d Hin Hc) as L.
    rewrite <- (checkCollisions_above_floor Math_sqrt objs p r H) in L.
    fold result in L.
    destruct (Collision.colliding result) eqn:C.
    + split; [reflexivity|].
      destruct (Collision.distance result) as [q|]; cbn in L; [|contradiction].
      exists q. split; [reflexivity | exact L].
    + apply checkCollisions_not_colliding in C. fold result in L.
      unfold result in L. rewrite C in L. cbn in L. contradiction.
  - unfold result. rewrite (checkCollisions_above_floor Math_sqrt objs p r H).
    apply fold_winner.
Qed.


(** One solid in range that contains the camera. *)
Lemma closest_solid_wins_witness :
  Collision.colliding
    (checkCollisions Qsqrt [backWall; benchBack] (Vector3.new 10 1.6 (-9.75))
       playerRadius) = true.
Proof.
  refine (proj1 (proj1 (proj2 (closest_solid_wins Qsqrt [backWall; benchBack]
                                 (Vector3.new 10 1.6 (-9.75)) playerRadius
                                 _ _ _))
                   benchBack
                   (fst (penetration
                           (expandedBox
                              (Box3.new (Vector3.new (- (0.2 / 2)) (- (0.8 / 2))
                                           (- (2.5 / 2)))
                                        (Vector3.new (0.2 / 2) (0.8 / 2)
                                           (2.5 / 2)))
                              (Vector3.new 9.65 1.9 (-10.75)) playerRadius)
                           (Vector3.new 10 1.6 (-9.75))))
                   (snd (penetration
                           (expandedBox
                              (Box3.new (Vector3.new (- (0.2 / 2)) (- (0.8 / 2))
                                           (- (2.5 / 2)))
                                        (Vector3.new (0.2 / 2) (0.8 / 2)
                                           (2.5 / 2)))
                              (Vector3.new 9.65 1.9 (-10.75)) playerRadius)
                           (Vector3.new 10 1.6 (-9.75))))
                   _ _)).
  - reflexivity.
  - intros o g [<-|[<-|[]]] G; injection G as <-; reflexivity.
  - vm_compute. reflexivity.
  - right. left. reflexivity.
  - eexists. eexists. repeat split; reflexivity.
Defined.

(** ** The collision resolver: where the correction leads *)

Lemma Math_sign_zero (q : Q) : q == 0 -> Math_sign q = 0.
Proof.
  intro H. unfold Math_sign. unfold Qeq in H. cbn in H.
  assert (E : Qnum q = 0%Z) by lia. rewrite E. reflexivity.
Qed.

Lemma Math_sign_pos (q : Q) : 0 < q -> Math_sign q = 1.
Proof.
  intro H. unfold Math_sign. unfold Qlt in H. cbn in H.
  destruct (Qnum q) eqn:E; try lia. reflexivity.
Qed.

Lemma Math_sign_neg (q : Q) : q < 0 -> Math_sign q = -1.
Proof.
  intro H. unfold Math_sign. unfold Qlt in H. cbn in H.
  destruct (Qnum q) eqn:E; try lia. reflexivity.
Qed.

Lemma Qabs_zero (q : Q) : Qabs q <= 0 -> q == 0.
Proof.
  intro H. apply Qabs_Qle_condition in H. lra.
Qed.

(** The result of [checkCollisions] that names a solid is the collision
    computed for that solid. *)
Lemma checkCollisions_winner
  (Math_sqrt : Q -> Q) (objects : list Object3D.t) (position : Vector3.t)
  (radius : Q) (o : Object3D.t) :
  Collision.object (checkCollisions Math_sqrt objects position radius)
    = Some o ->
  Collision.colliding (checkCollisions Math_sqrt objects position radius) = true
  /\ exists d,
       Collision.distance (checkCollisions Math_sqrt objects position radius)
         = Finite d
       /\ candidate Math_sqrt position radius o
            (Collision.normal
               (checkCollisions Math_sqrt objects position radius)) d.
Proof.
  intro H.
  assert (C : Collision.colliding
                (checkCollisions Math_sqrt objects position radius) = true).
  { destruct (Collision.colliding _) eqn:C; [reflexivity|].
    apply checkCollisions_not_colliding in C. rewrite C in H. discriminate. }
  split; [exact C|].
  revert H C. rewrite checkCollisions_unfold.
  destruct (_ <=! 0.1); [discriminate|]. intros H C.
  destruct (fold_winner Math_sqrt position radius objects C)
    as (o' & d & _ & O & D & K).
  rewrite H in O. injection O as <-. exists d. split; assumption.
Qed.

(** The normal and the distance of a candidate, by the axis chosen. *)
Lemma candidate_axis
  (Math_sqrt : Q -> Q) (position : Vector3.t) (radius : Q) (o : Object3D.t)
  (n : Vector3.t) (d : Q) (w : Vector3.t) (g : Box3.t) :
  candidate Math_sqrt position radius o n d ->
  worldPositionOf o = Some w ->
  Object3D.geometry o = Some g ->
  let b := expandedBox g w radius in
  Box3.containsPoint b position = true
  /\ exists a,
       n = along a (Math_sign (ratio a b position))
       /\ d = extent a b / 2 - Math_abs (ratio a b position) * extent a b / 2
       /\ forall a', Math_abs (ratio a b position)
                     <= Math_abs (ratio a' b position).
Proof.
  intros (w' & g' & _ & W' & G' & C & P) W G b.
  rewrite W in W'. injection W' as <-. rewrite G in G'. injection G' as <-.
  split; [exact C|].
  destruct (penetration_axis (expandedBox g w radius) position
              (containsPoint_not_empty _ _ C))
    as (a & E & M).
  exists a. rewrite P in E. injection E as -> ->. repeat split. exact M.
Qed.

Lemma applyCollision_zero_normal (collision : Collision.t) (s : State) :
  Collision.normal collision = Vector3.zero ->
  velocity (applyCollision collision s) = velocity s
  /\ jumpVelocity (applyCollision collision s) = jumpVelocity s
  /\ sameVector (Camera.position (camera (applyCollision collision s)))
       (Camera.position (camera s)).
Proof.
  intro Z. unfold applyCollision, sameVector.
  destruct (Collision.colliding collision);
    [|repeat apply conj; reflexivity].
  destruct (Collision.distance collision) as [d|];
    [|repeat apply conj; reflexivity].
  rewrite Z. cbn [Vector3.multiplyScalar Vector3.zero Vector3.x Vector3.z].
  assert (N : nonzero (0 * (d + 0.01)) = false)
    by (apply nonzero_false; ring).
  rewrite N. fields.
  cbn [Vector3.add Vector3.multiplyScalar Vector3.zero
       Vector3.x Vector3.y Vector3.z].
  repeat apply conj; try reflexivity; ring.
Qed.

(** X5.  For a positive radius and geometries whose bounding boxes have
    [min <= max], a camera level with the centre of the winning solid's
    expanded box on some axis is not stopped by it: the resolver reports
    the collision with the zero vector as normal, and the response then
    leaves the position and the velocities as they were. *)
Theorem level_with_centre_is_not_stopped :
  forall (Math_sqrt : Q -> Q) (collisionObjects : list Object3D.t)
         (position : Vector3.t) (radius : Q)
         (solid : Object3D.t) (w : Vector3.t) (g : Box3.t) (a : Axis),
    0 < radius ->
    solidBoxes collisionObjects ->
    let collision := checkCollisions Math_sqrt collisionObjects position radius in
    Collision.object collision = Some solid ->
    worldPositionOf solid = Some w ->
    Object3D.geometry solid = Some g ->
    offset a (expandedBox g w radius) position == 0 ->
    Collision.colliding collision = true
    /\ Collision.normal collision = Vector3.zero
    /\ forall s,
         velocity (applyCollision collision s) = velocity s
         /\ jumpVelocity (applyCollision collision s) = jumpVelocity s
         /\ sameVector (Camera.position (camera (applyCollision collision s)))
              (Camera.position (camera s)).
Proof.
  intros Math_sqrt objs p r o w g a Rp Bx c O W G Z.
  destruct (checkCollisions_winner Math_sqrt objs p r o O) as (C & d & D & K).
  fold c in C, D, K. split; [exact C|].
  destruct (candidate_axis _ _ _ _ _ _ w g K W G) as (_ & a' & N & _ & M).
  assert (R : ratio a (expandedBox g w r) p == 0).
  { unfold ratio, Qdiv. rewrite Z. ring. }
  assert (R' : ratio a' (expandedBox g w r) p == 0).
  { apply Qabs_zero. specialize (M a). unfold Math_abs in M.
    rewrite R in M. exact M. }
  assert (NZ : Collision.normal c = Vector3.zero).
  { rewrite N, (Math_sign_zero _ R'). destruct a'; reflexivity. }
  split; [exact NZ|]. intro s. apply applyCollision_zero_normal, NZ.
Qed.

(** The wall scenario of the specification, walking in along the x axis
    through the centre of the box. *)
Lemma level_with_centre_is_not_stopped_witness :
  let collision :=
    checkCollisions Qsqrt [scenarioBox] (Vector3.new 3.71 1.6 0) playerRadius in
  Collision.colliding collision = true
  /\ Collision.normal collision = Vector3.zero.
Proof.
  intro collision.
  destruct (level_with_centre_is_not_stopped Qsqrt [scenarioBox]
              (Vector3.new 3.71 1.6 0) playerRadius scenarioBox
              (Vector3.new 5 0.5 0)
              (Box3.new (Vector3.new (- (2 / 2)) (- (2 / 2)) (- (2 / 2)))
                 (Vector3.new (2 / 2) (2 / 2) (2 / 2)))
              AxisZ)
    as (C & N & _).
  - reflexivity.
  - intros o g [<-|[]] G; injection G as <-; reflexivity.
  - vm_compute. reflexivity.
  - reflexivity.
  - reflexivity.
  - vm_compute. reflexivity.
  - split; assumption.
Defined.


Lemma containsPoint_outside (b : Box3.t) (p : Vector3.t) (a : Axis) :
  component a (Box3.max b) < component a p
  \/ component a p < component a (Box3.min b) ->
  Box3.containsPoint b p = false.
Proof.
  intro H. destruct (Box3.containsPoint b p) eqn:C; [|reflexivity].
  destruct (containsPoint_bounds b p C a) as [L U]. exfalso.
  destruct H as [H|H]; lra.
Qed.

(** On the chosen axis, a non-zero ratio: the corrected coordinate is
    beyond the face of the box on the side of the offset. *)
Lemma axis_escape (a : Axis) (b : Box3.t) (p : Vector3.t) :
  component a (Box3.min b) <= component a p ->
  component a p <= component a (Box3.max b) ->
  ~ ratio a b p == 0 ->
  let q :=
    component a p
    + Math_sign (ratio a b p)
      * (extent a b / 2 - Math_abs (ratio a b p) * extent a b / 2 + 0.01) in
  component a (Box3.max b) < q \/ q < component a (Box3.min b).
Proof.
  intros Hlo Hhi NZ q.
  assert (Hs : 0 <= extent a b) by (unfold extent; lra).
  assert (P : 0 < extent a b).
  { destruct (Qeq_dec (extent a b) 0) as [Z|Z]; [|lra].
    exfalso. apply NZ. unfold ratio. apply Qdiv_zero, Z. }
  assert (NO : ~ offset a b p == 0).
  { intro O. apply NZ. unfold ratio, Qdiv. rewrite O. ring. }
  pose proof (Qabs_div_mul (offset a b p) (extent a b) P) as M.
  fold (ratio a b p) in M.
  subst q. rewrite (sign_ratio a b p P). unfold Math_abs.
  set (r := Qabs (ratio a b p)) in *.
  assert (M' : r * extent a b / 2 == Qabs (offset a b p) / 2)
    by (rewrite M; reflexivity).
  destruct (Qlt_le_dec 0 (offset a b p)) as [Pos|Neg].
  - left. rewrite (Math_sign_pos _ Pos).
    rewrite (Qabs_pos (offset a b p)) in M' by lra.
    unfold offset, extent in *. qlra.
  - right. assert (Neg' : offset a b p < 0) by lra.
    rewrite (Math_sign_neg _ Neg').
    rewrite (Qabs_neg (offset a b p)) in M' by lra.
    unfold offset, extent in *. qlra.
Qed.

(** X6.  After a first-person tick that collided with a solid, the normal
    not being the zero vector, the camera is outside the expanded box of
    that solid. *)
Theorem correction_leaves_the_box :
  forall (Math_sqrt : Q -> Q)
         (orbitControls_update : OrbitControls.update)
         (delta : Q) (s : State)
         (solid : Object3D.t) (w : Vector3.t) (g : Box3.t),
    overviewMode s = false ->
    controls_isLocked s = true ->
    let s1 := beforeCollision Math_sqrt delta s in
    let collision :=
      checkCollisions Math_sqrt (collisionObjects s1)
        (Camera.position (camera s1)) playerRadius in
    Collision.object collision = Some solid ->
    worldPositionOf solid = Some w ->
    Object3D.geometry solid = Some g ->
    ~ sameVector (Collision.normal collision) Vector3.zero ->
    Box3.containsPoint (expandedBox g w playerRadius)
      (Camera.position (camera s1)) = true
    /\ Box3.containsPoint (expandedBox g w playerRadius)
         (Camera.position
            (camera (animate Math_sqrt orbitControls_update delta s))) = false.
Proof.
  intros Math_sqrt orbit delta s o w g OM LK s1 c O W G NZ.
  destruct (checkCollisions_winner Math_sqrt _ _ _ o O) as (C & d & D & K).
  fold c in C, D, K.
  destruct (candidate_axis _ _ _ _ _ _ w g K W G) as (B & a & N & E & _).
  split; [exact B|].
  destruct (checkCollisions_colliding_finite _ _ _ _ C) as (d' & D' & P).
  fold c in D'. rewrite D in D'. injection D' as <-.
  rewrite (animate_firstPerson _ _ _ _ OM LK).
  change (firstPersonUpdate Math_sqrt delta s) with (applyCollision c s1).
  destruct (applyCollision_response c s1 d C D P) as (Pos & _).
  rewrite Pos. apply (containsPoint_outside _ _ a).
  set (b := expandedBox g w playerRadius) in *.
  set (p := Camera.position (camera s1)) in *.
  assert (R : ~ ratio a b p == 0).
  { intro R. apply NZ. rewrite N, (Math_sign_zero _ R).
    destruct a; cbn; repeat apply conj; reflexivity. }
  destruct (containsPoint_bounds b p B a) as [Hlo Hhi].
  pose proof (axis_escape a b p Hlo Hhi R) as X. cbv zeta in X.
  rewrite <- E in X. rewrite N.
  destruct a; cbn [component along Vector3.add Vector3.multiplyScalar
                   Vector3.x Vector3.y Vector3.z] in *; exact X.
Qed.

(** Walking into the middle of the back wall. *)
Lemma correction_leaves_the_box_witness :
  let s := standingAt (Vector3.new 1 1.6 (-14.6)) [backWall] in
  Box3.containsPoint
    (expandedBox
       (Box3.new (Vector3.new (- (30 / 2)) (- (10 / 2)) (- (0.5 / 2)))
          (Vector3.new (30 / 2) (10 / 2) (0.5 / 2)))
       (Vector3.new 0 5 (-15)) playerRadius)
    (Camera.position (camera (animate Qsqrt orbit_fixed (1 # 60) s))) = false.
Proof.
  intro s.
  refine (proj2 (correction_leaves_the_box Qsqrt orbit_fixed (1 # 60) s backWall
                   (Vector3.new 0 5 (-15))
                   (Box3.new (Vector3.new (- (30 / 2)) (- (10 / 2)) (- (0.5 / 2)))
                      (Vector3.new (30 / 2) (10 / 2) (0.5 / 2)))
                   _ _ _ _ _ _)).
  - reflexivity.
  - reflexivity.
  - vm_compute. reflexivity.
  - reflexivity.
  - reflexivity.
  - intros (X & _). vm_compute in X. discriminate X.
Defined.

(** ** Damping *)

Lemma damped (v delta : Q) :
  0 <= delta -> delta <= 0.2 -> Qabs (v - v * 10 * delta) <= Qabs v.
Proof.
  intros L U.
  assert (E : v - v * 10 * delta == v * (1 - 10 * delta)) by ring.
  rewrite E, Qabs_Qmult.
  assert (K : Qabs (1 - 10 * delta) <= 1).
  { apply Qabs_Qle_condition. split; lra. }
  pose proof (Qabs_nonneg v) as NV.
  pose proof (Qmult_le_compat_r _ _ (Qabs v) K NV) as H.
  lra.
Qed.

(** The vertical phases of a tick leave the horizontal velocity and the
    input flags alone. *)
Lemma vertical_phases_frame (delta : Q) (g : Ground.t) (s : State) :
  sameHorizontal s
    (enforceMinimumHeight (startFalling g (land g (applyGravity delta s)))).
Proof.
  pose proof (applyGravity_frame delta s) as H1.
  pose proof (land_frame g (applyGravity delta s)) as H2.
  pose proof (startFalling_frame g (land g (applyGravity delta s))) as H3.
  pose proof (enforceMinimumHeight_frame
                (startFalling g (land g (applyGravity delta s)))) as H4.
  unfold sameHorizontal in *. intuition congruence.
Qed.

Lemma applyCollision_velocity_cases (c : Collision.t) (s : State) :
  (Vector3.x (velocity (applyCollision c s)) = Vector3.x (velocity s)
   \/ Vector3.x (velocity (applyCollision c s)) = 0)
  /\ (Vector3.z (velocity (applyCollision c s)) = Vector3.z (velocity s)
      \/ Vector3.z (velocity (applyCollision c s)) = 0).
Proof.
  unfold applyCollision.
  destruct (Collision.colliding c); [|split; left; reflexivity].
  destruct (Collision.distance c); [|split; left; reflexivity].
  destruct (nonzero _); destruct (nonzero _); fields; split;
    first [left; reflexivity | right; reflexivity].
Qed.

(** The horizontal velocity handed to the collision check when no movement
    key is down. *)
Lemma beforeCollision_velocity (Math_sqrt : Q -> Q) (delta : Q) (s : State) :
  moveForward s = false -> moveBackward s = false ->
  moveLeft s = false -> moveRight s = false ->
  velocity (beforeCollision Math_sqrt delta s)
  = Vector3.new
      (Vector3.x (velocity s) - Vector3.x (velocity s) * 10 * delta)
      (Vector3.y (velocity s))
      (Vector3.z (velocity s) - Vector3.z (velocity s) * 10 * delta).
Proof.
  intros F B L R. unfold beforeCollision.
  set (g := checkGround _ _).
  destruct (vertical_phases_frame delta g s)
    as (_ & _ & _ & _ & V & F' & B' & L' & R' & _).
  set (s4 := enforceMinimumHeight _) in *.
  unfold movePlayer. fields. rewrite F', B', L', R', F, B, L, R, V.
  reflexivity.
Qed.

(** X7.  With no movement key down, a first-person tick multiplies each
    horizontal velocity component by [1 - 10 * delta] before the collision
    response; for [0 <= delta <= 0.2] neither component is larger in
    absolute value at the end of the tick than at its start. *)
Theorem velocity_damped_without_input :
  forall (Math_sqrt : Q -> Q)
         (orbitControls_update : OrbitControls.update)
         (delta : Q) (s : State),
    overviewMode s = false ->
    controls_isLocked s = true ->
    moveForward s = false -> moveBackward s = false ->
    moveLeft s = false -> moveRight s = false ->
    let s1 := beforeCollision Math_sqrt delta s in
    let s' := animate Math_sqrt orbitControls_update delta s in
    Vector3.x (velocity s1) == Vector3.x (velocity s) * (1 - 10 * delta)
    /\ Vector3.z (velocity s1) == Vector3.z (velocity s) * (1 - 10 * delta)
    /\ (0 <= delta -> delta <= 0.2 ->
        Qabs (Vector3.x (velocity s')) <= Qabs (Vector3.x (velocity s))
        /\ Qabs (Vector3.z (velocity s')) <= Qabs (Vector3.z (velocity s))).
Proof.
  intros Math_sqrt orbit delta s OM LK F B L R s1 s'.
  pose proof (beforeCollision_velocity Math_sqrt delta s F B L R) as V.
  fold s1 in V. rewrite V. cbn [Vector3.x Vector3.z].
  split; [ring|]. split; [ring|]. intros D0 D1.
  unfold s'. rewrite (animate_firstPerson _ _ _ _ OM LK).
  unfold firstPersonUpdate. fold s1.
  match goal with
  | |- context [applyCollision ?c s1] =>
      destruct (applyCollision_velocity_cases c s1) as ([X|X] & [Z|Z]);
      rewrite X, Z
  end;
    rewrite ?V; cbn [Vector3.x Vector3.z];
    split;
    first [ apply damped; assumption
          | apply Qabs_nonneg ].
Qed.

Lemma velocity_damped_without_input_witness :
  let s := slidingAt (Vector3.new 0 1.6 10) (Vector3.new 1 0 (-2))
             Matrix.identity [] in
  let s' := animate Qsqrt orbit_fixed (1 # 60) s in
  Qabs (Vector3.x (velocity s')) <= Qabs (Vector3.x (velocity s))
  /\ Qabs (Vector3.z (velocity s')) <= Qabs (Vector3.z (velocity s)).
Proof.
  intros s s'.
  refine (proj2 (proj2 (velocity_damped_without_input Qsqrt orbit_fixed
                          (1 # 60) s _ _ _ _ _ _)) _ _);
    try reflexivity; vm_compute; discriminate.
Defined.


(** ** On the world floor *)

Lemma checkGround_nil (p : Vector3.t) :
  checkGround [] p = Ground.new (Vector3.y p <=! playerHeight) 0.
Proof.
  unfold checkGround, intersectObjects. cbn [flat_map sortHits fold_right].
  destruct (Vector3.y p <=! playerHeight); reflexivity.
Qed.

(** The phases of a tick, by whether they fire. *)
Lemma land_fires (g : Ground.t) (s : State) :
  isJumping s = true -> Ground.onGround g = true -> jumpVelocity s <= 0 ->
  land g s
  = set_canJump
      (set_position_y (set_jumpVelocity (set_isJumping s false) 0)
         (Ground.groundY g + playerHeight)) true.
Proof.
  intros J G V. unfold land. apply Qle_bool_iff in V.
  rewrite J, G, V. reflexivity.
Qed.

Lemma land_idle (g : Ground.t) (s : State) :
  isJumping s = false \/ Ground.onGround g = false \/ 0 < jumpVelocity s ->
  land g s = s.
Proof.
  intro H. unfold land.
  destruct H as [H|[H|H]]; [rewrite H; reflexivity| |].
  - rewrite H. destruct (isJumping s); reflexivity.
  - apply Qleb_gt in H. rewrite H.
    destruct (isJumping s); destruct (Ground.onGround g); reflexivity.
Qed.

Lemma startFalling_fires (g : Ground.t) (s : State) :
  isJumping s = false /\ Ground.onGround g = false ->
  startFalling g s
  = set_canJump (set_jumpVelocity (set_isJumping s true) 0) false.
Proof.
  intros (J & G). unfold startFalling. rewrite J, G. reflexivity.
Qed.

Lemma startFalling_idle (g : Ground.t) (s : State) :
  isJumping s = true \/ Ground.onGround g = true ->
  startFalling g s = s.
Proof.
  intro H. unfold startFalling.
  destruct H as [H|H]; rewrite H; [reflexivity|].
  destruct (isJumping s); reflexivity.
Qed.

Lemma enforceMinimumHeight_fires (s : State) :
  Vector3.y (Camera.position (camera s)) < playerHeight ->
  enforceMinimumHeight s
  = set_canJump
      (set_jumpVelocity (set_isJumping (set_position_y s playerHeight) false) 0)
      true.
Proof.
  intro H. unfold enforceMinimumHeight. apply Qltb_lt in H. rewrite H.
  reflexivity.
Qed.

Lemma enforceMinimumHeight_idle (s : State) :
  playerHeight <= Vector3.y (Camera.position (camera s)) ->
  enforceMinimumHeight s = s.
Proof.
  intro H. unfold enforceMinimumHeight. apply Qltb_ge in H. rewrite H.
  reflexivity.
Qed.

Section EmptyScene.
Variable Math_sqrt : Q -> Q.
Variable orbitControls_update : OrbitControls.update.
Variable delta : Q.

(** On an empty scene the tick is what comes before the collision check,
    and the scene stays empty. *)
Lemma emptyScene_tick (s : State) :
  emptyScene s ->
  animate Math_sqrt orbitControls_update delta s = beforeCollision Math_sqrt delta s /\ emptyScene (animate Math_sqrt orbitControls_update delta s).
Proof.
  intros (OM & LK & E & L).
  assert (T : animate Math_sqrt orbitControls_update delta s = beforeCollision Math_sqrt delta s).
  { rewrite (animate_firstPerson _ _ _ _ OM LK). unfold firstPersonUpdate.
    rewrite beforeCollision_objects, E, checkCollisions_unfold.
    pose proof (beforeCollision_floor Math_sqrt delta s L) as F.
    destruct (_ <=! 0.1) eqn:B; [|reflexivity].
    apply Qle_bool_iff in B. unfold playerHeight in *. exfalso. qlra. }
  split; [exact T|].
  destruct (firstPersonUpdate_mode Math_sqrt delta s) as (A & B & _).
  rewrite <- (animate_firstPerson _ orbitControls_update _ _ OM LK) in A, B.
  repeat split.
  - rewrite A. exact OM.
  - rewrite B. exact LK.
  - rewrite T, beforeCollision_objects. exact E.
  - rewrite T. unfold beforeCollision, level.
    match goal with
    | |- context [movePlayer Math_sqrt delta ?t] =>
        destruct (movePlayer_frame Math_sqrt delta t) as (_ & _ & M);
        rewrite M; apply (beforeCollision_level Math_sqrt), L
    end.
Qed.

(** The height and the jump variables after a tick on an empty scene, from
    the state after the vertical phases. *)
Lemma emptyScene_vertical (s : State) :
  emptyScene s ->
  let s4 :=
    enforceMinimumHeight
      (startFalling
         (Ground.new
            (Vector3.y (Camera.position (camera (applyGravity delta s)))
             <=! playerHeight) 0)
         (land
            (Ground.new
               (Vector3.y (Camera.position (camera (applyGravity delta s)))
                <=! playerHeight) 0)
            (applyGravity delta s))) in
  isJumping (animate Math_sqrt orbitControls_update delta s) = isJumping s4
  /\ canJump (animate Math_sqrt orbitControls_update delta s) = canJump s4
  /\ jumpVelocity (animate Math_sqrt orbitControls_update delta s) = jumpVelocity s4
  /\ Vector3.y (Camera.position (camera (animate Math_sqrt orbitControls_update delta s)))
     == Vector3.y (Camera.position (camera s4)).
Proof.
  intros H s4. destruct (emptyScene_tick s H) as (T & _).
  destruct H as (OM & LK & E & L).
  rewrite T. unfold beforeCollision.
  destruct (applyGravity_frame delta s) as (O1 & _).
  rewrite O1, E, checkGround_nil. fold s4.
  destruct (movePlayer_frame Math_sqrt delta s4) as ((J & V & C) & _).
  rewrite J, V, C. repeat apply conj; try reflexivity.
  apply movePlayer_height.
  unfold s4. rewrite <- checkGround_nil, <- E, <- O1.
  apply (beforeCollision_level Math_sqrt), L.
Qed.

(** A tick that starts in the air. *)
Lemma tick_in_the_air (s : State) :
  emptyScene s ->
  isJumping s = true ->
  let y1 := Vector3.y (Camera.position (camera s)) + jumpVelocity s * delta in
  let v1 := jumpVelocity s - gravity * delta in
  atRest (animate Math_sqrt orbitControls_update delta s)
  \/ (isJumping (animate Math_sqrt orbitControls_update delta s) = true
      /\ jumpVelocity (animate Math_sqrt orbitControls_update delta s) = v1
      /\ Vector3.y (Camera.position (camera (animate Math_sqrt orbitControls_update delta s))) == y1
      /\ playerHeight <= y1).
Proof.
  intros H J y1 v1.
  destruct (emptyScene_vertical s H) as (A & B & C & D). cbv zeta in *.
  unfold atRest. rewrite A, B, C, D. clear A B C D.
  assert (E1 : applyGravity delta s
               = set_jumpVelocity (set_position_y s y1) v1).
  { unfold applyGravity. rewrite J. reflexivity. }
  rewrite E1. set (s1 := set_jumpVelocity (set_position_y s y1) v1).
  assert (J1 : isJumping s1 = true) by exact J.
  assert (Y1 : Vector3.y (Camera.position (camera s1)) = y1) by reflexivity.
  assert (V1 : jumpVelocity s1 = v1) by reflexivity.
  rewrite Y1.
  destruct (y1 <=! playerHeight) eqn:G.
  - destruct (v1 <=! 0) eqn:V.
    + left. apply Qle_bool_iff in V.
      rewrite (land_fires (Ground.new true 0) s1 J1 eq_refl
                 ltac:(rewrite V1; exact V)).
      rewrite startFalling_idle by (right; reflexivity).
      rewrite enforceMinimumHeight_idle
        by (fields; cbn [Ground.groundY]; vm_compute; discriminate).
      fields. cbn [Ground.groundY]. repeat apply conj; try reflexivity.
    + apply Qleb_gt in V.
      rewrite land_idle by (right; right; rewrite V1; exact V).
      rewrite startFalling_idle by (left; exact J1).
      destruct (Qlt_le_dec y1 playerHeight) as [K|K].
      * left. rewrite enforceMinimumHeight_fires by (rewrite Y1; exact K).
        fields. repeat apply conj; reflexivity.
      * right. rewrite enforceMinimumHeight_idle by (rewrite Y1; exact K).
        repeat apply conj; try assumption. rewrite Y1. reflexivity.
  - apply Qleb_gt in G.
    rewrite land_idle by (right; left; reflexivity).
    rewrite startFalling_idle by (left; exact J1).
    rewrite enforceMinimumHeight_idle by (rewrite Y1; lra).
    right. repeat apply conj; try assumption; [rewrite Y1; reflexivity | lra].
Qed.

(** A tick that starts on the feet. *)
Lemma tick_on_the_feet (s : State) :
  emptyScene s ->
  isJumping s = false ->
  (Vector3.y (Camera.position (camera s)) <= playerHeight ->
   isJumping (animate Math_sqrt orbitControls_update delta s) = false
   /\ Vector3.y (Camera.position (camera (animate Math_sqrt orbitControls_update delta s))) == playerHeight
   /\ (canJump s = true -> canJump (animate Math_sqrt orbitControls_update delta s) = true))
  /\ (playerHeight < Vector3.y (Camera.position (camera s)) ->
      isJumping (animate Math_sqrt orbitControls_update delta s) = true
      /\ jumpVelocity (animate Math_sqrt orbitControls_update delta s) = 0
      /\ Vector3.y (Camera.position (camera (animate Math_sqrt orbitControls_update delta s)))
         == Vector3.y (Camera.position (camera s))).
Proof.
  intros H J.
  destruct (emptyScene_vertical s H) as (A & B & C & D). cbv zeta in *.
  rewrite A, B, C, D. clear A B C D.
  assert (E1 : applyGravity delta s = s).
  { unfold applyGravity. rewrite J. reflexivity. }
  rewrite E1.
  rewrite land_idle by (left; exact J).
  split; intro Y.
  - apply Qle_bool_iff in Y. rewrite Y. apply Qle_bool_iff in Y.
    rewrite startFalling_idle by (right; reflexivity).
    destruct (Qlt_le_dec (Vector3.y (Camera.position (camera s))) playerHeight)
      as [K|K].
    + rewrite enforceMinimumHeight_fires by exact K.
      fields. repeat apply conj; reflexivity.
    + rewrite enforceMinimumHeight_idle by exact K.
      repeat apply conj; [exact J | lra | tauto].
  - apply Qleb_gt in Y. rewrite Y. apply Qleb_gt in Y.
    rewrite startFalling_fires by (split; [exact J | reflexivity]).
    rewrite enforceMinimumHeight_idle by (fields; lra).
    fields. repeat apply conj; reflexivity.
Qed.

Lemma frames_add (a b : nat) (s : State) :
  frames Math_sqrt orbitControls_update delta (a + b) s = frames Math_sqrt orbitControls_update delta b (frames Math_sqrt orbitControls_update delta a s).
Proof.
  revert s. induction a as [|a IH]; intro s; [reflexivity|].
  cbn [Nat.add frames]. apply IH.
Qed.

Lemma atRest_frames (n : nat) (s : State) :
  emptyScene s -> atRest s ->
  emptyScene (frames Math_sqrt orbitControls_update delta n s) /\ atRest (frames Math_sqrt orbitControls_update delta n s).
Proof.
  revert s. induction n as [|n IH]; intros s H R; [split; assumption|].
  cbn [frames]. destruct R as (J & C & Y).
  destruct (tick_on_the_feet s H J) as (G & _).
  destruct (G ltac:(lra)) as (J' & Y' & C').
  apply IH; [apply emptyScene_tick, H|].
  repeat split; auto.
Qed.

End EmptyScene.

(** X8.  On an empty scene (first person, controls locked, camera without
    roll), a body standing on the world floor stays on it for any number
    of frames, whatever the movement keys and the horizontal velocity: it
    never starts to fall and its height stays [playerHeight]. *)
Theorem stays_on_the_floor :
  forall (Math_sqrt : Q -> Q)
         (orbitControls_update : OrbitControls.update)
         (delta : Q) (n : nat) (s : State),
    overviewMode s = false ->
    controls_isLocked s = true ->
    collisionObjects s = [] ->
    level s ->
    isJumping s = false ->
    canJump s = true ->
    Vector3.y (Camera.position (camera s)) == playerHeight ->
    let s' := frames Math_sqrt orbitControls_update delta n s in
    isJumping s' = false
    /\ canJump s' = true
    /\ Vector3.y (Camera.position (camera s')) == playerHeight.
Proof.
  intros Math_sqrt orbit delta n s OM LK E L J C Y s'.
  apply (atRest_frames Math_sqrt orbit delta n s); repeat split; assumption.
Qed.

(** Walking forward for a second. *)
Lemma stays_on_the_floor_witness :
  let s := keydown Qsqrt "KeyW" (standingAt (Vector3.new 0 1.6 10) []) in
  let s' := frames Qsqrt orbit_fixed (1 # 60) 60 s in
  isJumping s' = false
  /\ canJump s' = true
  /\ Vector3.y (Camera.position (camera s')) == playerHeight.
Proof.
  intros s s'.
  apply (stays_on_the_floor Qsqrt orbit_fixed (1 # 60) 60 s); reflexivity.
Defined.


(** ** Falling ends *)

Lemma Qnat_S (n : nat) : Qnat (S n) == Qnat n + 1.
Proof.
  unfold Qnat. rewrite Nat2Z.inj_succ, <- Z.add_1_r, inject_Z_plus.
  reflexivity.
Qed.

Lemma Qnat_nonneg (n : nat) : 0 <= Qnat n.
Proof.
  unfold Qnat. change 0 with (inject_Z 0). rewrite <- Zle_Qle. lia.
Qed.

(** Some natural number times a positive step exceeds any given bound. *)
Lemma steps_beyond (bound step : Q) :
  0 < step -> exists n : nat, (0 < n)%nat /\ bound < Qnat n * step.
Proof.
  intro P. destruct (Qarchimedean (bound / step)) as [p Hp].
  exists (Pos.to_nat p). split; [apply Pos2Nat.is_pos|].
  unfold Qnat. rewrite positive_nat_Z.
  assert (E : bound == bound / step * step) by (field; lra).
  rewrite E at 1. apply Qmult_lt_compat_r; [exact P|].
  exact Hp.
Qed.

Section Falling.
Variable Math_sqrt : Q -> Q.
Variable orbitControls_update : OrbitControls.update.
Variable delta : Q.
Hypothesis delta_pos : 0 < delta.

(** In the air with a vertical velocity of at most [V]: after [n] frames
    the body is at rest, or still in the air with its velocity lowered by
    [n * gravity * delta], no higher than [n * V * delta] above where it
    started, and (after the first frame) not below the player height. *)
Lemma descent (V : Q) (n : nat) :
  forall s,
    emptyScene s ->
    isJumping s = true ->
    jumpVelocity s <= V ->
    let s' := frames Math_sqrt orbitControls_update delta n s in
    emptyScene s'
    /\ (atRest s'
        \/ (isJumping s' = true
            /\ jumpVelocity s' == jumpVelocity s - Qnat n * (gravity * delta)
            /\ Vector3.y (Camera.position (camera s'))
               <= Vector3.y (Camera.position (camera s)) + Qnat n * (V * delta)
            /\ (n <> O ->
                playerHeight <= Vector3.y (Camera.position (camera s'))))).
Proof.
  induction n as [|n IH]; intros s H J B; cbn [frames].
  - split; [exact H|]. right. repeat apply conj.
    + exact J.
    + change (Qnat 0) with 0. ring.
    + change (Qnat 0) with 0. lra.
    + intro K. contradiction.
  - pose proof (emptyScene_tick Math_sqrt orbitControls_update delta s H)
      as (_ & H1).
    destruct (tick_in_the_air Math_sqrt orbitControls_update delta s H J)
      as [R|(J1 & V1 & Y1 & F1)].
    + destruct (atRest_frames Math_sqrt orbitControls_update delta n _ H1 R)
        as (Hn & Rn).
      split; [exact Hn | left; exact Rn].
    + set (s1 := animate Math_sqrt orbitControls_update delta s) in *.
      assert (B1 : jumpVelocity s1 <= V).
      { rewrite V1. unfold gravity. nra. }
      destruct (IH s1 H1 J1 B1) as (Hn & [Rn|(Jn & Vn & Yn & Fn)]).
      * split; [exact Hn | left; exact Rn].
      * split; [exact Hn|]. right. repeat apply conj.
        -- exact Jn.
        -- rewrite Vn, V1, Qnat_S. ring.
        -- rewrite Qnat_S. rewrite Y1 in Yn.
           assert (jumpVelocity s * delta <= V * delta)
             by (apply Qmult_le_compat_r; lra).
           lra.
        -- intros _. destruct n as [|n]; [|apply Fn; discriminate].
           cbn [frames]. fold s1. rewrite Y1. exact F1.
Qed.

(** From the air, the body comes to rest on the floor. *)
Lemma falling_ends_from_the_air (s : State) :
  emptyScene s ->
  isJumping s = true ->
  exists N, atRest (frames Math_sqrt orbitControls_update delta N s)
            /\ emptyScene (frames Math_sqrt orbitControls_update delta N s).
Proof.
  intros H J.
  (* first stage: until the velocity is at most -1 *)
  assert (GD : 0 < gravity * delta) by (unfold gravity; lra).
  destruct (steps_beyond (Qabs (jumpVelocity s) + 1) (gravity * delta) GD)
    as (n1 & _ & S1).
  pose proof (Qle_Qabs (jumpVelocity s)) as A.
  destruct (descent (Qabs (jumpVelocity s)) n1 s H J A)
    as (H1 & [R1|(J1 & V1 & Y1 & _)]).
  { exists n1. split; assumption. }
  set (s1 := frames Math_sqrt orbitControls_update delta n1 s) in *.
  assert (B1 : jumpVelocity s1 <= -1) by lra.
  (* second stage: the height falls by at least [delta] a frame *)
  destruct (steps_beyond
              (Vector3.y (Camera.position (camera s1)) - playerHeight)
              delta delta_pos)
    as (n2 & P2 & S2).
  destruct (descent (-1) n2 s1 H1 J1 B1) as (H2 & [R2|(_ & _ & Y2 & F2)]).
  - exists (n1 + n2)%nat. rewrite frames_add. split; assumption.
  - exfalso. specialize (F2 ltac:(lia)). lra.
Qed.

End Falling.

(** X9.  Nobody falls for ever on an empty scene: for any frame time
    [delta > 0], from any state in first person with the controls locked,
    a camera without roll and consistent jump flags, wherever the body is
    and whatever its vertical velocity, there is a number of frames after
    which the body is on the world floor for good: not jumping, free to
    jump, at height [playerHeight]. *)
Theorem falling_ends :
  forall (Math_sqrt : Q -> Q)
         (orbitControls_update : OrbitControls.update)
         (delta : Q) (s : State),
    0 < delta ->
    overviewMode s = false ->
    controls_isLocked s = true ->
    collisionObjects s = [] ->
    level s ->
    canJump s = negb (isJumping s) ->
    exists N, forall n, (N <= n)%nat ->
      let s' := frames Math_sqrt orbitControls_update delta n s in
      isJumping s' = false
      /\ canJump s' = true
      /\ Vector3.y (Camera.position (camera s')) == playerHeight.
Proof.
  intros Math_sqrt orbit delta s D OM LK E L C.
  assert (H : emptyScene s) by (repeat split; assumption).
  assert (K : exists N, atRest (frames Math_sqrt orbit delta N s)
                        /\ emptyScene (frames Math_sqrt orbit delta N s)).
  { destruct (isJumping s) eqn:J.
    - apply falling_ends_from_the_air; assumption.
    - cbn [negb] in C.
      destruct (emptyScene_tick Math_sqrt orbit delta s H) as (_ & H1).
      destruct (tick_on_the_feet Math_sqrt orbit delta s H J) as (G & F).
      destruct (Qlt_le_dec playerHeight (Vector3.y (Camera.position (camera s))))
        as [Y|Y].
      + destruct (F Y) as (J1 & _).
        destruct (falling_ends_from_the_air Math_sqrt orbit delta D _ H1 J1)
          as (N & R & HN).
        exists (S N). cbn [frames]. split; assumption.
      + destruct (G Y) as (J1 & Y1 & C1).
        exists 1%nat. cbn [frames]. split; [|exact H1].
        repeat split; auto. }
  destruct K as (N & R & HN). exists N. intros n Hn. cbv zeta.
  replace n with (N + (n - N))%nat by lia.
  rewrite frames_add.
  apply (atRest_frames Math_sqrt orbit delta (n - N) _ HN R).
Qed.

(** Dropped from the overview height of 15 with the jump flags of a fall. *)
Lemma falling_ends_witness :
  exists N, forall n, (N <= n)%nat ->
    let s' := frames Qsqrt orbit_fixed (1 # 60) n
                (jumpingAt (Vector3.new 0 15 0) 0 []) in
    isJumping s' = false
    /\ canJump s' = true
    /\ Vector3.y (Camera.position (camera s')) == playerHeight.
Proof.
  apply (falling_ends Qsqrt orbit_fixed (1 # 60)
           (jumpingAt (Vector3.new 0 15 0) 0 []));
    reflexivity.
Defined.


(** * minimap.js *)

(** X10.  On a canvas of non-zero size the two conversions of the minimap
    are inverse to each other: the world position computed for the point
    where a position is drawn is that position, and a point is drawn where
    its world position is; and for a positive size the dot of a position is
    on the canvas exactly when the position is on the 40 by 40 floor. *)
Theorem minimap_conversions :
  forall (width height : Q) (position : Vector3.t) (x y : Q),
    ~ width == 0 -> ~ height == 0 ->
    let p := minimapPoint width height position in
    let w := minimapWorld width height x y in
    (fst (minimapWorld width height (fst p) (snd p)) == Vector3.x position
     /\ snd (minimapWorld width height (fst p) (snd p)) == Vector3.z position)
    /\ (fst (minimapPoint width height (Vector3.new (fst w) 0 (snd w))) == x
        /\ snd (minimapPoint width height (Vector3.new (fst w) 0 (snd w))) == y)
    /\ (0 < width ->
        (0 <= fst p /\ fst p <= width
         <-> -20 <= Vector3.x position /\ Vector3.x position <= 20))
    /\ (0 < height ->
        (0 <= snd p /\ snd p <= height
         <-> -20 <= Vector3.z position /\ Vector3.z position <= 20)).
Proof.
  intros width height position x y W H p w.
  unfold p, w, minimapPoint, minimapWorld. cbn [fst snd Vector3.x Vector3.z].
  assert (S : forall c size : Q, 0 < size ->
            (0 <= (c + 20) * (size / 40) /\ (c + 20) * (size / 40) <= size
             <-> -20 <= c /\ c <= 20)).
  { intros c size P.
    assert (E : (c + 20) * (size / 40) == (c + 20) * size * (1 # 40))
      by (field).
    rewrite E. split; intros (A & B); split; nra. }
  repeat apply conj; try (field; assumption); intro P; apply S, P.
Qed.

Lemma minimap_conversions_witness :
  fst (minimapWorld 200 150
         (fst (minimapPoint 200 150 (Vector3.new 3 0.5 (-12))))
         (snd (minimapPoint 200 150 (Vector3.new 3 0.5 (-12))))) == 3.
Proof.
  refine (proj1 (proj1 (minimap_conversions 200 150 (Vector3.new 3 0.5 (-12))
                          0 0 _ _)));
    vm_compute; discriminate.
Defined.

(** * mp-loader.js: colours *)

Lemma lowerAscii_idempotent (c : ascii) : lowerAscii (lowerAscii c) = lowerAscii c.
Proof.
  destruct c as [[] [] [] [] [] [] [] []]; reflexivity.
Qed.

Lemma toLowerCase_idempotent (s : string) :
  toLowerCase (toLowerCase s) = toLowerCase s.
Proof.
  induction s as [|c s IH]; [reflexivity|].
  cbn [toLowerCase]. rewrite lowerAscii_idempotent, IH. reflexivity.
Qed.

(** X11.  The colour of the head texture and of the info panel does not
    depend on the case of the letters of the party name, and whenever the
    body of a figure has a party colour (not the default grey) the head
    texture and the info panel have the same colour. *)
Theorem party_colours_agree :
  forall party : string,
    getPartyColor (toLowerCase party) = getPartyColor party
    /\ (getMPColor party <> 0xCCCCCC%N ->
        getPartyColor party = getMPColor party).
Proof.
  intro party. split.
  - unfold getPartyColor. rewrite toLowerCase_idempotent. reflexivity.
  - unfold getMPColor.
    destruct (party =? "Labour")%string eqn:E1;
      [apply String.eqb_eq in E1; subst; reflexivity|].
    destruct (party =? "Conservative")%string eqn:E2;
      [apply String.eqb_eq in E2; subst; reflexivity|].
    destruct (party =? "Liberal Democrats")%string eqn:E3;
      [apply String.eqb_eq in E3; subst; reflexivity|].
    destruct (party =? "Non-partisan")%string eqn:E4;
      [apply String.eqb_eq in E4; subst; reflexivity|].
    intro H. contradiction H. reflexivity.
Qed.

Lemma party_colours_agree_witness :
  getPartyColor "Liberal Democrats" = getMPColor "Liberal Democrats".
Proof.
  apply (party_colours_agree "Liberal Democrats"). vm_compute. discriminate.
Defined.


(** * mp-loader.js: seats *)

Lemma sameSeat_spec (a b : Vector3.t) : sameSeat a b = true <-> sameVector a b.
Proof.
  unfold sameSeat, sameVector. rewrite !andb_true_iff, !Qeq_bool_iff. tauto.
Qed.

Lemma sameSeat_refl (a : Vector3.t) : sameSeat a a = true.
Proof. apply sameSeat_spec. repeat apply conj; reflexivity. Qed.

Lemma sameSeat_sym (a b : Vector3.t) : sameSeat a b = true -> sameSeat b a = true.
Proof.
  rewrite !sameSeat_spec. intros (X & Y & Z).
  repeat apply conj; symmetry; assumption.
Qed.

Lemma sameSeat_trans (a b c : Vector3.t) :
  sameSeat a b = true -> sameSeat b c = true -> sameSeat a c = true.
Proof.
  rewrite !sameSeat_spec. intros (X & Y & Z) (X' & Y' & Z').
  repeat apply conj; etransitivity; eassumption.
Qed.

Lemma has_spec (occupied : list Vector3.t) (seat : Vector3.t) :
  has occupied seat = true
  <-> exists p, In p occupied /\ sameSeat seat p = true.
Proof. apply existsb_exists. Qed.

Lemma has_same (occupied : list Vector3.t) (a b : Vector3.t) :
  sameSeat a b = true -> has occupied a = true -> has occupied b = true.
Proof.
  intros E H. apply has_spec in H. destruct H as (p & I & P).
  apply has_spec. exists p. split; [assumption|].
  eapply sameSeat_trans; [apply sameSeat_sym|]; eassumption.
Qed.

Lemma has_add (occupied : list Vector3.t) (seat : Vector3.t) :
  has (add occupied seat) seat = true.
Proof.
  unfold add. destruct (has occupied seat) eqn:H; [assumption|].
  cbn [has existsb]. rewrite sameSeat_refl. reflexivity.
Qed.

Lemma has_add_mono (occupied : list Vector3.t) (seat p : Vector3.t) :
  has occupied p = true -> has (add occupied seat) p = true.
Proof.
  intro H. unfold add. destruct (has occupied seat); [assumption|].
  cbn [has existsb]. unfold has in H. rewrite H. apply orb_true_r.
Qed.

Lemma mapGet_set (m : list (nat * Vector3.t)) (id : nat) (seat : Vector3.t) :
  mapGet (mapSet m id seat) id = Some seat.
Proof.
  induction m as [|[k v] m IH]; cbn [mapSet mapGet].
  - rewrite Nat.eqb_refl. reflexivity.
  - destruct (k =? id)%nat eqn:E; cbn [mapGet]; rewrite E;
      [reflexivity | assumption].
Qed.

Lemma mapGet_set_other (m : list (nat * Vector3.t)) (id id' : nat)
  (seat : Vector3.t) :
  id <> id' -> mapGet (mapSet m id seat) id' = mapGet m id'.
Proof.
  intro N. induction m as [|[k v] m IH]; cbn [mapSet mapGet].
  - destruct (id =? id')%nat eqn:E; [apply Nat.eqb_eq in E; contradiction|].
    reflexivity.
  - destruct (k =? id)%nat eqn:E; cbn [mapGet].
    + apply Nat.eqb_eq in E. subst k.
      destruct (id =? id')%nat eqn:E'; [apply Nat.eqb_eq in E'; contradiction|].
      reflexivity.
    + destruct (k =? id')%nat; [reflexivity | assumption].
Qed.


Lemma Qnat_le (a b : nat) : (a <= b)%nat -> Qnat a <= Qnat b.
Proof. intro H. unfold Qnat. rewrite <- Zle_Qle. lia. Qed.

Lemma Qnat_lt (a b : nat) : (a < b)%nat -> Qnat a < Qnat b.
Proof. intro H. unfold Qnat. rewrite <- Zlt_Qlt. lia. Qed.

Ltac parts := repeat match goal with |- _ /\ _ => split end.

Section Bench.
Variable side : Q.
Variable occupied : list Vector3.t.

Lemma benchRow_spec (tier : nat) :
  forall (count : nat) (z : Q) (j : nat),
    z == -10 + Qnat j * 0.5 -> (j + count = 41)%nat ->
    match benchRow side tier occupied z count with
    | Some p =>
        has occupied p = false
        /\ exists k, (j <= k <= 40)%nat
             /\ sameVector p (benchSeat side tier k)
             /\ ~ besideDispatchBox tier k
             /\ forall k', (j <= k' < k)%nat -> ~ besideDispatchBox tier k' ->
                  has occupied (benchSeat side tier k') = true
    | None =>
        forall k, (j <= k <= 40)%nat -> ~ besideDispatchBox tier k ->
          has occupied (benchSeat side tier k) = true
    end.
Proof.
  induction count as [|count IH]; intros z j Z J.
  - cbn [benchRow]. intros k K. lia.
  - cbn [benchRow].
    assert (L : (z <=! 10) = true).
    { apply Qle_bool_iff. rewrite Z.
      pose proof (Qnat_le j 40 ltac:(lia)) as B.
      change (Qnat 40) with 40 in B. lra. }
    rewrite L.
    assert (Z' : z + 0.5 == -10 + Qnat (S j) * 0.5)
      by (rewrite Qnat_S, Z; ring).
    specialize (IH (z + 0.5) (S j) Z' ltac:(lia)).
    assert (step : forall k, (j <= k)%nat -> k = j \/ (S j <= k)%nat)
      by (intros; lia).
    destruct ((tier =? 0)%nat && (-2 <! z) && (z <! 2)) eqn:D.
    + apply andb_true_iff in D. destruct D as (D & D3).
      apply andb_true_iff in D. destruct D as (D1 & D2).
      apply Nat.eqb_eq in D1. apply Qltb_lt in D2, D3.
      assert (B : besideDispatchBox tier j)
        by (unfold besideDispatchBox; rewrite <- Z; auto).
      destruct (benchRow side tier occupied (z + 0.5) count) as [p|].
      * destruct IH as (F & k & K & P & N & E).
        split; [assumption|]. exists k.
        parts; try assumption; try lia.
        intros k' K' N'. destruct (step k' ltac:(lia)) as [->|G];
          [contradiction | apply E; [lia | assumption]].
      * intros k K N. destruct (step k ltac:(lia)) as [->|G];
          [contradiction | apply IH; [lia | assumption]].
    + assert (N : ~ besideDispatchBox tier j).
      { intros (B1 & B2 & B3). rewrite <- Z in B2, B3.
        apply Nat.eqb_eq in B1. apply Qltb_lt in B2, B3.
        rewrite B1, B2, B3 in D. discriminate. }
      assert (S : sameVector
                    (Vector3.new (side * (3 + Qnat tier * 1.5))
                       (Qnat tier * 0.25 + 0.5) z)
                    (benchSeat side tier j)).
      { unfold sameVector, benchSeat. cbn [Vector3.x Vector3.y Vector3.z].
        repeat apply conj; [reflexivity | reflexivity | assumption]. }
      destruct (has occupied
                  (Vector3.new (side * (3 + Qnat tier * 1.5))
                     (Qnat tier * 0.25 + 0.5) z)) eqn:H; cbn [negb].
      * apply sameSeat_spec in S. pose proof (has_same _ _ _ S H) as H'.
        destruct (benchRow side tier occupied (z + 0.5) count) as [p|].
        -- destruct IH as (F & k & K & P & N' & E).
           split; [assumption|]. exists k.
           parts; try assumption; try lia.
           intros k' K' N''. destruct (step k' ltac:(lia)) as [->|G];
             [assumption | apply E; [lia | assumption]].
        -- intros k K N'. destruct (step k ltac:(lia)) as [->|G];
             [assumption | apply IH; [lia | assumption]].
      * split; [assumption|]. exists j.
        parts; try assumption; try lia.
Qed.

Lemma benchTiers_spec :
  forall (count tier : nat),
    match benchTiers side occupied tier count with
    | Some p =>
        has occupied p = false
        /\ exists t k, (tier <= t < tier + count)%nat /\ (k <= 40)%nat
             /\ sameVector p (benchSeat side t k)
             /\ ~ besideDispatchBox t k
             /\ forall t' k', (tier <= t')%nat -> (k' <= 40)%nat ->
                  before t' k' t k -> ~ besideDispatchBox t' k' ->
                  has occupied (benchSeat side t' k') = true
    | None =>
        forall t k, (tier <= t < tier + count)%nat -> (k <= 40)%nat ->
          ~ besideDispatchBox t k ->
          has occupied (benchSeat side t k) = true
    end.
Proof.
  induction count as [|count IH]; intro tier; cbn [benchTiers].
  - intros t k T. lia.
  - pose proof (benchRow_spec tier 41 (-10) 0 ltac:(reflexivity) eq_refl) as R.
    destruct (benchRow side tier occupied (-10) 41) as [p|].
    + destruct R as (F & k & K & P & N & E).
      split; [assumption|]. exists tier, k.
      parts; try assumption; try lia.
      intros t' k' T' K' [B|(-> & B)] N'; [lia|].
      apply E; [lia | assumption].
    + specialize (IH (S tier)).
      destruct (benchTiers side occupied (S tier) count) as [p|].
      * destruct IH as (F & t & k & T & K & P & N & E).
        split; [assumption|]. exists t, k.
        parts; try assumption; try lia.
        intros t' k' T' K' B N'.
        destruct (Nat.eq_dec t' tier) as [->|D];
          [apply R; [lia | assumption]
          | apply E; [lia | assumption | assumption | assumption]].
      * intros t k T K N.
        destruct (Nat.eq_dec t tier) as [->|D];
          [apply R; [lia | assumption] | apply IH; [lia | assumption | assumption]].
Qed.

End Bench.

(** X12.  [findPartyBenchSeat] returns the first free seat of its benches,
    lowest tier first and lowest [z] first within a tier, the seats beside
    the dispatch boxes left out; when every such seat is taken it returns
    the fallback place [(side * 10, 0.5, 0)]. *)
Theorem bench_seat_first_free_or_fallback :
  forall (side : Q) (isFrontbench : bool) (occupied : list Vector3.t),
    let p := findPartyBenchSeat side isFrontbench occupied in
    (has occupied p = false
     /\ exists tier k,
          onBench isFrontbench tier k
          /\ sameVector p (benchSeat side tier k)
          /\ forall tier' k',
               onBench isFrontbench tier' k' -> before tier' k' tier k ->
               has occupied (benchSeat side tier' k') = true)
    \/ (p = Vector3.new (side * 10) 0.5 0
        /\ forall tier k,
             onBench isFrontbench tier k ->
             has occupied (benchSeat side tier k) = true).
Proof.
  intros side isFrontbench occupied p. unfold p, findPartyBenchSeat.
  destruct isFrontbench; cbn [Nat.sub].
  - pose proof (benchTiers_spec side occupied 1 0) as T.
    destruct (benchTiers side occupied 0 1) as [q|].
    + left. destruct T as (F & t & k & T & K & P & N & E).
      split; [assumption|]. exists t, k. unfold onBench.
      parts; try assumption; try lia.
      intros t' k' (T' & K' & N') B. apply E; try assumption; lia.
    + right. split; [reflexivity|].
      intros t k (T' & K' & N'). apply T; try assumption; lia.
  - pose proof (benchTiers_spec side occupied 7 1) as T.
    destruct (benchTiers side occupied 1 7) as [q|].
    + left. destruct T as (F & t & k & T & K & P & N & E).
      split; [assumption|]. exists t, k. unfold onBench.
      parts; try assumption; try lia.
      intros t' k' (T' & K' & N') B. apply E; try assumption; lia.
    + right. split; [reflexivity|].
      intros t k (T' & K' & N'). apply T; try assumption; lia.
Qed.

Section Minor.
Variables xBase zOffset : Q.
Variable occupied : list Vector3.t.

Lemma minorSeats_spec (row : nat) :
  forall (count seat : nat),
    match minorSeats xBase zOffset occupied row seat count with
    | Some p =>
        has occupied p = false
        /\ exists s, (seat <= s < seat + count)%nat
             /\ p = minorSeat xBase zOffset row s
             /\ forall s', (seat <= s' < s)%nat ->
                  has occupied (minorSeat xBase zOffset row s') = true
    | None =>
        forall s, (seat <= s < seat + count)%nat ->
          has occupied (minorSeat xBase zOffset row s) = true
    end.
Proof.
  induction count as [|count IH]; intro seat; cbn [minorSeats].
  - intros s S. lia.
  - fold (minorSeat xBase zOffset row seat).
    assert (step : forall s, (seat <= s)%nat -> s = seat \/ (S seat <= s)%nat)
      by (intros; lia).
    destruct (has occupied (minorSeat xBase zOffset row seat)) eqn:H;
      cbn [negb].
    + specialize (IH (S seat)).
      destruct (minorSeats xBase zOffset occupied row (S seat) count) as [p|].
      * destruct IH as (F & s & S & P & E).
        split; [assumption|]. exists s. parts; try assumption; try lia.
        intros s' S'. destruct (step s' ltac:(lia)) as [->|G];
          [assumption | apply E; lia].
      * intros s S. destruct (step s ltac:(lia)) as [->|G];
          [assumption | apply IH; lia].
    + split; [assumption|]. exists seat. parts; try reflexivity; try lia.
Qed.

Lemma minorRows_spec :
  forall (count row : nat),
    match minorRows xBase zOffset occupied row count with
    | Some p =>
        has occupied p = false
        /\ exists r s, (row <= r < row + count)%nat /\ (s < 4)%nat
             /\ p = minorSeat xBase zOffset r s
             /\ forall r' s', (row <= r')%nat -> (s' < 4)%nat ->
                  before r' s' r s ->
                  has occupied (minorSeat xBase zOffset r' s') = true
    | None =>
        forall r s, (row <= r < row + count)%nat -> (s < 4)%nat ->
          has occupied (minorSeat xBase zOffset r s) = true
    end.
Proof.
  induction count as [|count IH]; intro row; cbn [minorRows].
  - intros r s R. lia.
  - pose proof (minorSeats_spec row 4 0) as R.
    destruct (minorSeats xBase zOffset occupied row 0 4) as [p|].
    + destruct R as (F & s & S & P & E).
      split; [assumption|]. exists row, s. parts; try assumption; try lia.
      intros r' s' R' S' [B|(-> & B)]; [lia | apply E; lia].
    + specialize (IH (S row)).
      destruct (minorRows xBase zOffset occupied (S row) count) as [p|].
      * destruct IH as (F & r & s & Rr & S & P & E).
        split; [assumption|]. exists r, s. parts; try assumption; try lia.
        intros r' s' R' S' B.
        destruct (Nat.eq_dec r' row) as [->|D];
          [apply R; lia | apply E; [lia | assumption | assumption]].
      * intros r s Rr S.
        destruct (Nat.eq_dec r row) as [->|D];
          [apply R; lia | apply IH; [lia | assumption]].
Qed.

End Minor.

(** X13.  [findMinorPartySeat] returns the first free place of the three
    rows of four of the minor party area, row by row; when all twelve are
    taken, what it returns as its fallback is the first of them again, a
    place that is taken. *)
Theorem minor_seat_first_free_or_taken :
  forall (side zOffset : Q) (occupied : list Vector3.t),
    let p := findMinorPartySeat side zOffset occupied in
    (has occupied p = false
     /\ exists row seat,
          (row < 3)%nat /\ (seat < 4)%nat
          /\ p = minorSeat (side * 12) zOffset row seat
          /\ forall row' seat',
               (seat' < 4)%nat -> before row' seat' row seat ->
               has occupied (minorSeat (side * 12) zOffset row' seat') = true)
    \/ (has occupied p = true
        /\ sameVector p (minorSeat (side * 12) zOffset 0 0)
        /\ forall row seat,
             (row < 3)%nat -> (seat < 4)%nat ->
             has occupied (minorSeat (side * 12) zOffset row seat) = true).
Proof.
  intros side zOffset occupied p. unfold p, findMinorPartySeat.
  pose proof (minorRows_spec (side * 12) zOffset occupied 3 0) as R.
  destruct (minorRows (side * 12) zOffset occupied 0 3) as [q|].
  - left. destruct R as (F & r & s & Rr & S & P & E).
    split; [assumption|]. exists r, s. parts; try assumption; try lia.
    intros r' s' S' B. apply E; [lia | assumption | assumption].
  - right.
    assert (V : sameVector (Vector3.new (side * 12) 0.5 zOffset)
                  (minorSeat (side * 12) zOffset 0 0)).
    { unfold sameVector, minorSeat. cbn [Vector3.x Vector3.y Vector3.z].
      change (Qnat 0) with 0. repeat apply conj; ring. }
    parts.
    + apply has_same with (a := minorSeat (side * 12) zOffset 0 0).
      * apply sameSeat_sym, sameSeat_spec, V.
      * apply R; lia.
    + exact V.
    + intros r s Rr S. apply R; lia.
Qed.

Section Nearest.
Variable random : nat -> Q.
Variable preferred : Vector3.t.
Variable occupied : list Vector3.t.

Lemma nearbySeat_free :
  forall (count attempts k : nat),
    match nearbySeat random preferred occupied attempts count k with
    | (Some p, _) => has occupied p = false
    | (None, k') => k' = (k + 2 * count)%nat
    end.
Proof.
  induction count as [|count IH]; intros attempts k; cbn [nearbySeat].
  - lia.
  - match goal with |- context [has occupied ?p] =>
      destruct (has occupied p) eqn:H end; cbn [negb].
    + specialize (IH (S attempts) (S (S k))).
      destruct (nearbySeat random preferred occupied (S attempts) count
                  (S (S k))) as [[p|] k']; [assumption | lia].
    + assumption.
Qed.

Lemma nearbySeat_first (count k : nat) :
  has occupied preferred = true ->
  nearbySeat random preferred occupied 0 (S count) k
  = nearbySeat random preferred occupied 1 count (S (S k)).
Proof.
  intro H. cbn [nearbySeat].
  match goal with |- context [has occupied ?p] =>
    assert (E : has occupied p = true) end.
  { apply has_same with (a := preferred); [|assumption].
    apply sameSeat_spec. unfold sameVector.
    cbn [Vector3.x Vector3.y Vector3.z]. change (Qnat 0) with 0.
    repeat apply conj; ring. }
  rewrite E. reflexivity.
Qed.

Lemma nearbySeat_near :
  unitInterval random ->
  forall (count attempts k : nat),
    match nearbySeat random preferred occupied attempts count k with
    | (Some p, k') =>
        exists a, (attempts <= a < attempts + count)%nat
          /\ k' = (k + 2 * (a - attempts) + 2)%nat
          /\ Vector3.y p = Vector3.y preferred
          /\ Qabs (Vector3.x p - Vector3.x preferred) <= 0.25 * Qnat a
          /\ Qabs (Vector3.z p - Vector3.z preferred) <= 0.25 * Qnat a
    | (None, _) => True
    end.
Proof.
  intro U. induction count as [|count IH]; intros attempts k;
    cbn [nearbySeat]; [exact I|].
  match goal with |- context [has occupied ?p] =>
    destruct (has occupied p) eqn:H end; cbn [negb].
  - specialize (IH (S attempts) (S (S k))).
    destruct (nearbySeat random preferred occupied (S attempts) count
                (S (S k))) as [[p|] k']; [|exact I].
    destruct IH as (a & A & K & Y & X & Z).
    exists a. parts; try assumption; lia.
  - exists attempts. cbn [Vector3.x Vector3.y Vector3.z].
    pose proof (Qnat_nonneg attempts) as N.
    assert (B : forall r : Q, 0 <= r /\ r < 1 ->
              forall c : Q,
                Qabs (c + (r - 0.5) * 0.5 * Qnat attempts - c)
                <= 0.25 * Qnat attempts).
    { intros r (R0 & R1) c. apply Qabs_Qle_condition. split; nra. }
    parts; try reflexivity; try lia; apply B, U.
Qed.

End Nearest.

(** X14.  Called for a preferred seat that is taken, as [calculateMPSeats]
    does, [findNearestAvailableSeat] spends its first attempt on the
    preferred seat itself.  What it returns is either a free place at the
    height of the preferred seat, found at an attempt [a] from 1 to 19 after
    [2 * (a + 1)] calls of [Math.random] and within [0.25 * a] of the
    preferred seat in [x] and in [z], or, after 40 calls, the last resort
    made of the next two random values. *)
Theorem nearest_seat_attempts :
  forall (random : nat -> Q) (preferred : Vector3.t) (party : string)
         (occupied : list Vector3.t) (k : nat),
    unitInterval random ->
    has occupied preferred = true ->
    let r := findNearestAvailableSeat random preferred party occupied k in
    (has occupied (fst r) = false
     /\ Vector3.y (fst r) = Vector3.y preferred
     /\ exists a, (1 <= a <= 19)%nat
          /\ snd r = (k + 2 * (a + 1))%nat
          /\ Qabs (Vector3.x (fst r) - Vector3.x preferred) <= 0.25 * Qnat a
          /\ Qabs (Vector3.z (fst r) - Vector3.z preferred) <= 0.25 * Qnat a)
    \/ r = (lastResort random party (k + 40), (k + 42)%nat).
Proof.
  intros random preferred party occupied k U H r.
  unfold r, findNearestAvailableSeat.
  rewrite (nearbySeat_first random preferred occupied 19 k H).
  pose proof (nearbySeat_free random preferred occupied 19 1 (S (S k))) as F.
  pose proof (nearbySeat_near random preferred occupied U 19 1 (S (S k))) as N.
  destruct (nearbySeat random preferred occupied 1 19 (S (S k)))
    as [[p|] k'].
  - left. cbn [fst snd]. destruct N as (a & A & K & Y & X & Z).
    parts; try assumption. exists a. parts; try assumption; lia.
  - right. subst k'. f_equal; [f_equal|]; lia.
Qed.

Lemma nearest_seat_attempts_witness :
  let r := findNearestAvailableSeat (fun _ => 0) (Vector3.new 2 0.5 (-1))
             "Labour" [Vector3.new 2 0.5 (-1)] 0 in
  (has [Vector3.new 2 0.5 (-1)] (fst r) = false
   /\ Vector3.y (fst r) = 0.5
   /\ exists a, (1 <= a <= 19)%nat
        /\ snd r = (0 + 2 * (a + 1))%nat
        /\ Qabs (Vector3.x (fst r) - 2) <= 0.25 * Qnat a
        /\ Qabs (Vector3.z (fst r) - -1) <= 0.25 * Qnat a)
  \/ r = (lastResort (fun _ => 0) "Labour" (0 + 40), (0 + 42)%nat).
Proof.
  apply (nearest_seat_attempts (fun _ => 0) (Vector3.new 2 0.5 (-1)) "Labour"
           [Vector3.new 2 0.5 (-1)] 0).
  - intro k. split; [apply Qle_refl | reflexivity].
  - reflexivity.
Defined.

Section Seating.
Variable random : nat -> Q.

Lemma seatMP_speaker (st : Seating) (mp : MP.t) :
  speaker mp ->
  seatMP random st mp
  = mkSeating (mapSet (seatMap st) (MP.id mp) (Vector3.new 0 0.5 (-13)))
      (occupiedSeats st) (drawn st).
Proof.
  unfold speaker, seatMP. intros ->. reflexivity.
Qed.

Lemma seatMP_other (st : Seating) (mp : MP.t) :
  ~ speaker mp ->
  exists seat,
    seatMap (seatMP random st mp) = mapSet (seatMap st) (MP.id mp) seat
    /\ occupiedSeats (seatMP random st mp) = add (occupiedSeats st) seat
    /\ (has (occupiedSeats st) seat = false
        \/ exists n, seat = lastResort random (MP.party mp) n).
Proof.
  intro N. unfold seatMP.
  destruct (MP.position mp =? "Speaker of the House of Commons")%string eqn:E;
    [apply String.eqb_eq in E; contradiction|].
  match goal with |- context [has (occupiedSeats st) ?p] =>
    generalize p end.
  intro seatPosition.
  destruct (has (occupiedSeats st) seatPosition) eqn:H; cbn [negb].
  - unfold findNearestAvailableSeat.
    pose proof (nearbySeat_free random seatPosition (occupiedSeats st) 20 0
                  (drawn st)) as F.
    destruct (nearbySeat random seatPosition (occupiedSeats st) 0 20
                (drawn st)) as [[p|] k'].
    + exists p. cbn [seatMap occupiedSeats]. auto.
    + eexists. cbn [seatMap occupiedSeats]. parts; try reflexivity.
      right. eexists. reflexivity.
  - exists seatPosition. cbn [seatMap occupiedSeats]. auto.
Qed.

Lemma seatMP_map (st : Seating) (mp : MP.t) :
  exists seat,
    seatMap (seatMP random st mp) = mapSet (seatMap st) (MP.id mp) seat.
Proof.
  destruct (string_dec (MP.position mp) "Speaker of the House of Commons")
    as [S|S].
  - rewrite (seatMP_speaker st mp S). eexists. reflexivity.
  - destruct (seatMP_other st mp S) as (seat & M & _). eauto.
Qed.

Lemma seatMP_occupied (st : Seating) (mp : MP.t) (p : Vector3.t) :
  has (occupiedSeats st) p = true ->
  has (occupiedSeats (seatMP random st mp)) p = true.
Proof.
  intro H.
  destruct (string_dec (MP.position mp) "Speaker of the House of Commons")
    as [S|S].
  - rewrite (seatMP_speaker st mp S). assumption.
  - destruct (seatMP_other st mp S) as (seat & _ & O & _). rewrite O.
    apply has_add_mono, H.
Qed.

Lemma seats_occupied (l : list MP.t) :
  forall (st : Seating) (p : Vector3.t),
    has (occupiedSeats st) p = true ->
    has (occupiedSeats (fold_left (seatMP random) l st)) p = true.
Proof.
  induction l as [|mp l IH]; intros st p H; cbn [fold_left];
    [assumption | apply IH, seatMP_occupied, H].
Qed.

Lemma seats_kept (l : list MP.t) :
  forall (st : Seating) (id : nat),
    ~ In id (map MP.id l) ->
    mapGet (seatMap (fold_left (seatMP random) l st)) id
    = mapGet (seatMap st) id.
Proof.
  induction l as [|mp l IH]; intros st id N; cbn [fold_left]; [reflexivity|].
  cbn [map In] in N. rewrite IH by tauto.
  destruct (seatMP_map st mp) as (seat & ->).
  apply mapGet_set_other. tauto.
Qed.

Lemma seats_in_order (l1 l2 l3 : list MP.t) (a b : MP.t) (st : Seating) :
  NoDup (map MP.id (l1 ++ a :: l2 ++ b :: l3)) ->
  ~ speaker a -> ~ speaker b ->
  exists sa sb,
    mapGet (seatMap (fold_left (seatMP random) (l1 ++ a :: l2 ++ b :: l3) st))
      (MP.id a) = Some sa
    /\ mapGet (seatMap (fold_left (seatMP random) (l1 ++ a :: l2 ++ b :: l3) st))
         (MP.id b) = Some sb
    /\ (sameSeat sa sb = true ->
        exists n, sb = lastResort random (MP.party b) n).
Proof.
  intros D Na Nb.
  rewrite map_app in D. apply NoDup_app_remove_l in D.
  cbn [map] in D. rewrite map_app in D. cbn [map] in D.
  apply NoDup_cons_iff in D. destruct D as (A & D).
  apply NoDup_app_remove_l in D.
  apply NoDup_cons_iff in D. destruct D as (B & _).
  rewrite in_app_iff in A. cbn [In] in A.
  rewrite fold_left_app. cbn [fold_left].
  rewrite fold_left_app. cbn [fold_left].
  set (st1 := fold_left (seatMP random) l1 st).
  destruct (seatMP_other st1 a Na) as (sa & Ma & Oa & _).
  set (st3 := fold_left (seatMP random) l2 (seatMP random st1 a)).
  destruct (seatMP_other st3 b Nb) as (sb & Mb & Ob & Fb).
  assert (Ha : has (occupiedSeats st3) sa = true).
  { apply seats_occupied. rewrite Oa. apply has_add. }
  exists sa, sb. parts.
  - rewrite seats_kept by tauto. rewrite Mb.
    rewrite mapGet_set_other by (intro; apply A; auto).
    unfold st3. rewrite seats_kept by tauto. rewrite Ma. apply mapGet_set.
  - rewrite seats_kept by assumption. rewrite Mb. apply mapGet_set.
  - intro S. destruct Fb as [Fb|Fb]; [|assumption].
    rewrite (has_same _ _ _ S Ha) in Fb. discriminate.
Qed.

End Seating.

(** X15.  Whatever order the sort leaves the MPs in, two MPs with different
    ids, neither of them the Speaker, both get a seat, and they get the same
    seat only when one of the two seats is the last resort of
    [findNearestAvailableSeat], which is not tested against the taken
    seats. *)
Theorem seats_shared_only_as_last_resort :
  forall (random : nat -> Q) (sort : list MP.t -> list MP.t)
         (mps : list MP.t) (k : nat) (a b : MP.t),
    Permutation (sort mps) mps ->
    NoDup (map MP.id mps) ->
    In a mps -> In b mps -> MP.id a <> MP.id b ->
    ~ speaker a -> ~ speaker b ->
    exists sa sb,
      mapGet (calculateMPSeats random sort mps k) (MP.id a) = Some sa
      /\ mapGet (calculateMPSeats random sort mps k) (MP.id b) = Some sb
      /\ (sameSeat sa sb = true ->
          exists n, sa = lastResort random (MP.party a) n
                    \/ sb = lastResort random (MP.party b) n).
Proof.
  intros random sort mps k a b P D Ia Ib N Na Nb.
  unfold calculateMPSeats, seatAll.
  assert (D' : NoDup (map MP.id (sort mps))).
  { apply Permutation_NoDup with (l := map MP.id mps); [|assumption].
    apply Permutation_map, Permutation_sym, P. }
  apply (Permutation_in _ (Permutation_sym P)) in Ia, Ib.
  destruct (in_split _ _ Ia) as (l1 & l2 & E).
  rewrite E in Ib. apply in_app_or in Ib. cbn [In] in Ib.
  destruct Ib as [Ib|[Ib|Ib]]; [| subst b; contradiction |].
  - destruct (in_split _ _ Ib) as (m1 & m2 & E1). subst l1.
    rewrite <- app_assoc in E. cbn [app] in E. rewrite E in D' |- *.
    destruct (seats_in_order random m1 m2 l2 b a (mkSeating [] [] k) D' Nb Na)
      as (sb & sa & Gb & Ga & S).
    exists sa, sb. parts; try assumption.
    intro Q. apply sameSeat_sym in Q. destruct (S Q) as (n & L). eauto.
  - destruct (in_split _ _ Ib) as (m1 & m2 & E1). subst l2.
    rewrite E in D' |- *.
    destruct (seats_in_order random l1 m1 m2 a b (mkSeating [] [] k) D' Na Nb)
      as (sa & sb & Ga & Gb & S).
    exists sa, sb. parts; try assumption.
    intro Q. destruct (S Q) as (n & L). eauto.
Qed.

Lemma seats_shared_only_as_last_resort_witness :
  exists sa sb,
    mapGet (calculateMPSeats (fun _ => 0) (fun l => l)
              [MP.new 1 "Labour" ""; MP.new 2 "Labour" "Prime Minister";
               MP.new 3 "Labour" ""] 0) 1%nat = Some sa
    /\ mapGet (calculateMPSeats (fun _ => 0) (fun l => l)
                 [MP.new 1 "Labour" ""; MP.new 2 "Labour" "Prime Minister";
                  MP.new 3 "Labour" ""] 0) 3%nat = Some sb
    /\ (sameSeat sa sb = true ->
        exists n, sa = lastResort (fun _ => 0) "Labour" n
                  \/ sb = lastResort (fun _ => 0) "Labour" n).
Proof.
  apply (seats_shared_only_as_last_resort (fun _ => 0) (fun l => l)
           [MP.new 1 "Labour" ""; MP.new 2 "Labour" "Prime Minister";
            MP.new 3 "Labour" ""] 0
           (MP.new 1 "Labour" "") (MP.new 3 "Labour" "")).
  - apply Permutation_refl.
  - repeat constructor; cbn; intuition congruence.
  - cbn. auto.
  - cbn. auto.
  - discriminate.
  - discriminate.
  - discriminate.
Defined.

(** X16.  Whatever order the sort leaves the MPs in, when no two MPs share
    an id every MP whose position is Speaker of the House of Commons is
    seated at [(0, 0.5, -13)]; and seating a Speaker takes no seat: the
    taken seats and the calls of [Math.random] are as before. *)
Theorem speaker_seat :
  forall (random : nat -> Q) (sort : list MP.t -> list MP.t)
         (mps : list MP.t) (k : nat) (a : MP.t),
    Permutation (sort mps) mps ->
    NoDup (map MP.id mps) ->
    In a mps -> speaker a ->
    mapGet (calculateMPSeats random sort mps k) (MP.id a)
    = Some (Vector3.new 0 0.5 (-13))
    /\ forall st,
         occupiedSeats (seatMP random st a) = occupiedSeats st
         /\ drawn (seatMP random st a) = drawn st.
Proof.
  intros random sort mps k a P D I S. split.
  - unfold calculateMPSeats, seatAll.
    assert (D' : NoDup (map MP.id (sort mps))).
    { apply Permutation_NoDup with (l := map MP.id mps); [|assumption].
      apply Permutation_map, Permutation_sym, P. }
    apply (Permutation_in _ (Permutation_sym P)) in I.
    destruct (in_split _ _ I) as (l1 & l2 & E). rewrite E in D' |- *.
    rewrite map_app in D'. apply NoDup_app_remove_l in D'. cbn [map] in D'.
    apply NoDup_cons_iff in D'. destruct D' as (A & _).
    rewrite fold_left_app. cbn [fold_left].
    rewrite seats_kept by assumption.
    rewrite (seatMP_speaker random _ a S). cbn [seatMap]. apply mapGet_set.
  - intro st. rewrite (seatMP_speaker random st a S). split; reflexivity.
Qed.

Lemma speaker_seat_witness :
  mapGet (calculateMPSeats (fun _ => 0) (fun l => l)
            [MP.new 1 "Labour" "Prime Minister";
             MP.new 2 "" "Speaker of the House of Commons"] 0) 2%nat
  = Some (Vector3.new 0 0.5 (-13)).
Proof.
  refine (proj1 (speaker_seat (fun _ => 0) (fun l => l)
           [MP.new 1 "Labour" "Prime Minister";
            MP.new 2 "" "Speaker of the House of Commons"] 0
           (MP.new 2 "" "Speaker of the House of Commons") _ _ _ _)).
  - apply Permutation_refl.
  - repeat constructor; cbn; intuition congruence.
  - cbn. auto.
  - reflexivity.
Defined.

(** X17.  The comparator of the sort follows the seating priority: an MP
    of higher priority compares as less, one of lower priority as greater,
    and two front benchers or two back benchers as equal; but two MPs who
    both hold the position of Speaker, of Prime Minister or of Leader of
    the Opposition compare as less in either order, and each of them
    compared with itself does too, so that the comparator is not a
    consistent one. *)
Theorem comparator_follows_priority :
  forall a b : MP.t,
    compareMPs a b
    = match Nat.compare (priority a) (priority b) with
      | Lt => (-1)%Z
      | Gt => 1%Z
      | Eq => if (priority a <? 3)%nat then (-1)%Z else 0%Z
      end.
Proof.
  intros a b. unfold compareMPs, priority, isFrontbench.
  destruct (MP.position a =? "Speaker of the House of Commons")%string,
    (MP.position b =? "Speaker of the House of Commons")%string,
    (MP.position a =? "Prime Minister")%string,
    (MP.position b =? "Prime Minister")%string,
    (MP.position a =? "Leader of the Opposition")%string,
    (MP.position b =? "Leader of the Opposition")%string,
    (MP.position a =? "")%string, (MP.position b =? "")%string;
    reflexivity.
Qed.
